(** * teide-bench: the benchmark harness and the dataset generator

    A shallow embedding of [bench_all.py] (the timing protocol, the three
    engine adapters, the summary table), of [gen/generate_data.py] (the
    generators of the group-by and join datasets and the names of the
    datasets) and of [gen/generate_join.py], with the properties the
    specification states about them and further properties of the code.

    Conventions of the embedding.
    - Clock readings and durations are Python floats.  They are modelled
      by integers: subtraction, the scaling by 1000, the comparisons and
      the truth test [if t] are the exact ones; rounding is not modelled.
    - The three engines, the clock and the random number generator are
      outside the repository.  Every call into them is recorded in a log
      and answered by an environment, about which nothing is assumed.
    - A Python exception is an outcome [Raise e]; [try ... finally] is a
      combinator of the monad the code runs in. *)

From stdpp Require Import gmap strings list sorting pretty.
From Stdlib Require Import ZArith Lia.

Open Scope string_scope.
Open Scope Z_scope.

(** [++] is the concatenation of lists; strings use [+:+]. *)
Disable Notation "_ ++ _" : string_scope.

(** ** Python values and exceptions *)

Inductive Exn : Type :=
| IndexError
| ZeroDivisionError
| AttributeError
| EngineError
| SystemExit (code : Z).

Inductive Outcome (A : Type) : Type :=
| Ok (a : A)
| Raise (e : Exn).
Arguments Ok {A} a.
Arguments Raise {A} e.

(** ** [median]

    [sorted] is Python's stable sort, which compares with [<] only. *)

Fixpoint insert_sorted (x : Z) (s : list Z) : list Z :=
  match s with
  | [] => [x]
  | y :: s' => if x <? y then x :: y :: s' else y :: insert_sorted x s'
  end.

Definition sorted (lst : list Z) : list Z :=
  fold_left (fun s x => insert_sorted x s) lst [].

(** [s[i]] for a non-negative index: [IndexError] out of range. *)
Definition py_index (s : list Z) (i : nat) : Outcome Z :=
  match s !! i with
  | Some v => Ok v
  | None => Raise IndexError
  end.

(** [def median(lst): s = sorted(lst); return s[len(s) // 2]] *)
Definition median (lst : list Z) : Outcome Z :=
  let s := sorted lst in
  py_index s (length s / 2)%nat.

(** ** Strings

    The few pieces of Python's string formatting the harness uses.  A
    string is its UTF-8 encoding; [py_len] counts code points, as [len]
    and the padding of a format specification do. *)

Definition nl : string := String (Ascii.ascii_of_nat 10) "".

Definition is_continuation_byte (c : Ascii.ascii) : bool :=
  let n := Ascii.nat_of_ascii c in
  ((128 <=? n) && (n <? 192))%nat.

Fixpoint py_len (s : string) : nat :=
  match s with
  | EmptyString => 0
  | String c s' => if is_continuation_byte c then py_len s' else S (py_len s')
  end.

(** [s * n] *)
Fixpoint str_mul (s : string) (n : nat) : string :=
  match n with
  | O => ""
  | S n' => s +:+ str_mul s n'
  end.

(** [f"{s:<w}"] (also [f"{s:ws}"]) and [f"{s:>w}"] *)
Definition ljust (w : nat) (s : string) : string :=
  s +:+ str_mul " " (w - py_len s).

Definition rjust (w : nat) (s : string) : string :=
  str_mul " " (w - py_len s) +:+ s.

(** [s.startswith(p)] *)
Fixpoint starts_with (p s : string) : bool :=
  match p with
  | EmptyString => true
  | String a p' =>
      match s with
      | EmptyString => false
      | String b s' => Ascii.eqb a b && starts_with p' s'
      end
  end.

(** [os.path.join(a, b)] on POSIX, for a relative [b] *)
Definition path_join (a b : string) : string :=
  if bool_decide (a = "") then b
  else if String.eqb (String.substring (String.length a - 1) 1 a) "/"
       then a +:+ b
       else a +:+ "/" +:+ b.

(** ** The world outside the harness

    Every call into an engine is a [Call]; the log records it with what
    it returned ([None]: it raised).  Handles, row counts and thread
    counts are integers; the null handle (Python's [None] for a
    [c_void_p]) is 0. *)

Inductive PlAgg : Type :=
| PlSum (col : string)
| PlMean (col : string)
| PlLen.

Inductive Call : Type :=
| SysPathInsert (path : string)
| SetEnviron (name value : string)
| Import (module : string)
(* duckdb *)
| DuckConnect
| ConExecute (sql : string)
| Fetchone0
| ConClose
(* polars *)
| PlReadCsv (path : string)
| PlHeight (df : Z)
| PlGroupByAgg (df : Z) (keys : list string) (aggs : list PlAgg)
| PlSort (df : Z) (keys : list string)
| PlJoin (left right : Z) (on : list string) (how : string)
(* teide *)
| TeideLibNew
| ArenaInit
| SymInit
| ReadCsv (path : string)
| TableNrows (tbl : Z)
| GraphNew (tbl : Z)
| Scan (g : Z) (col : string)
| TdGroup (g : Z) (keys : list Z) (nk : nat) (ops ins : list Z) (na : nat)
| Optimize (g root : Z)
| Execute (g root : Z)
| Release (h : Z)
| GraphFree (g : Z)
| ConstTable (g tbl : Z)
| SortOp (g table_node : Z) (keys descs : list Z)
| SymIntern (name : string)
| TdTableGetCol (tbl name_id : Z)
| ConstVec (g vec : Z)
| Join (g left : Z) (left_keys : list Z) (right : Z) (right_keys : list Z)
       (kind : Z)
| SymDestroy
| ArenaDestroyAll.

(** A value of the module-level dictionary [results]. *)
Inductive Entry : Type :=
| EMedians (res : gmap string Z)
| EText (s : string)
| ENumber (n : Z).

Inductive Event : Type :=
| EvCall (c : Call) (ret : option Z)
| EvClock (t : Z)
| EvPrint (line : string)
| EvDump (path : string) (doc : gmap string Entry).

(** The log holds the newest event first. *)
Record State : Type := mkState {
  log : list Event;
  results : gmap string Entry
}.

Definition init_state : State := mkState [] ∅.

(** What the harness cannot decide: the answers of the engines and of
    the clock (functions of everything that happened before), the file
    system, the constants it imports and Python's float formatting
    ([format_float p n d] is [f"{n/d:.pf}"], [format_thousands n] is
    [f"{n:,}"]). *)
Record Env : Type := mkEnv {
  SCRIPT_DIR : string;
  path_exists : string → bool;
  perf_counter : list Event → Z;
  respond : list Event → Call → option Z;
  duckdb_version : string;
  polars_version : string;
  OP_SUM : Z;
  OP_AVG : Z;
  OP_COUNT : Z;
  format_float : nat → Z → Z → string;
  format_thousands : Z → string
}.

(** ** State and exceptions

    A program over a state [St] returns a value or raises, and leaves a
    state.  The harness runs over [State], the dataset generator over the
    state of the random number generator and of the files. *)

Definition SE (St A : Type) : Type := St → Outcome A * St.

Definition ret {St A} (a : A) : SE St A := fun s => (Ok a, s).

Definition raise {St A} (e : Exn) : SE St A := fun s => (Raise e, s).

Definition bind {St A B} (m : SE St A) (k : A → SE St B) : SE St B := fun s =>
  match m s with
  | (Ok a, s1) => k a s1
  | (Raise e, s1) => (Raise e, s1)
  end.

Notation "x <- m ;; k" := (bind m (fun x => k))
  (at level 100, m at next level, right associativity).
Notation "m ;; k" := (bind m (fun _ => k))
  (at level 100, right associativity).

Definition lift {St A} (o : Outcome A) : SE St A := fun s => (o, s).

(** [try: body finally: handler] *)
Definition try_finally {St A} (body : SE St A) (handler : SE St unit)
  : SE St A := fun s =>
  match body s with
  | (Ok a, s1) =>
      match handler s1 with
      | (Ok _, s2) => (Ok a, s2)
      | (Raise e, s2) => (Raise e, s2)
      end
  | (Raise e, s1) =>
      match handler s1 with
      | (Ok _, s2) => (Raise e, s2)
      | (Raise e', s2) => (Raise e', s2)
      end
  end.

(** [for _ in range(n): body] *)
Fixpoint repeat_m {St} (n : nat) (body : SE St unit) : SE St unit :=
  match n with
  | O => ret tt
  | S n' => body ;; repeat_m n' body
  end.

Definition for_range {St} (n : Z) (body : SE St unit) : SE St unit :=
  repeat_m (Z.to_nat n) body.

(** [acc = a0; for _ in range(n): acc = body(acc)] *)
Fixpoint iterate_m {St A} (n : nat) (body : A → SE St A) (acc : A)
  : SE St A :=
  match n with
  | O => ret acc
  | S n' => acc' <- body acc ;; iterate_m n' body acc'
  end.

(** [[f(x) for x in xs]] *)
Fixpoint map_m {St A B} (f : A → SE St B) (xs : list A) : SE St (list B) :=
  match xs with
  | [] => ret []
  | x :: xs' => y <- f x ;; ys <- map_m f xs' ;; ret (y :: ys)
  end.

(** [for x in xs: f(x)] *)
Fixpoint for_each {St A} (xs : list A) (f : A → SE St unit) : SE St unit :=
  match xs with
  | [] => ret tt
  | x :: xs' => f x ;; for_each xs' f
  end.

(** The monad of the harness. *)
Definition M (A : Type) : Type := SE State A.

Definition emit (e : Event) : M unit := fun s =>
  (Ok tt, mkState (e :: log s) (results s)).

(** ** [bench_all.py] *)

Definition N_ITER : Z := 7.
Definition N_ITER_JOIN : Z := 5.
Definition N_WARMUP : Z := 3.

(** The ctypes arrays of type [ctypes.c_void_p * n] and
    [ctypes.c_uint16 * n], built from the elements of a list: too many
    initialisers raise [IndexError], missing ones are zero, and an integer
    is stored modulo the width of the cell. *)
Definition c_void_p (v : Z) : Z := v mod 2 ^ 64.
Definition c_uint16 (v : Z) : Z := v mod 2 ^ 16.

Definition c_array (cell : Z → Z) (n : nat) (items : list Z) : Outcome (list Z) :=
  if (n <? length items)%nat then Raise IndexError
  else Ok (map cell items ++ replicate (n - length items) 0).

(** [r and r >= 32], for a handle [r] that is an integer or [None] *)
Definition owned (r : Z) : bool := negb (r =? 0) && (32 <=? r).

Definition queries : list (string * string) :=
  [ ("q1 — id1, SUM", "q1");
    ("q2 — id1+id2, SUM", "q2");
    ("q3 — id3, SUM+AVG", "q3");
    ("q5 — id6, 3xSUM", "q5");
    ("q7 — 6-key, SUM+COUNT", "q7");
    ("sort s1 — id1 ASC", "s1");
    ("sort s6 — 3-key ASC", "s6");
    ("join j1 — inner, 3-key", "j1") ].

(** [results.get(engine, {}).get(key)] *)
Definition get_median (rs : gmap string Entry) (engine key : string)
  : Outcome (option Z) :=
  match rs !! engine with
  | None => Ok None
  | Some (EMedians res) => Ok (res !! key)
  | Some _ => Raise AttributeError
  end.

Section Harness.

Variable env : Env.

Definition DATASETS : string := path_join (SCRIPT_DIR env) "datasets".
Definition CSV_GROUPBY : string :=
  path_join (path_join DATASETS "G1_1e7_1e2_0_0") "G1_1e7_1e2_0_0.csv".
Definition CSV_JOIN_X : string :=
  path_join (path_join DATASETS "h2oai_join_1e7") "J1_1e7_NA_0_0.csv".
Definition CSV_JOIN_Y : string :=
  path_join (path_join DATASETS "h2oai_join_1e7") "J1_1e7_1e7_0_0.csv".

(** *** Primitive effects *)

Definition call (c : Call) : M Z := fun s =>
  match respond env (log s) c with
  | Some v => (Ok v, mkState (EvCall c (Some v) :: log s) (results s))
  | None => (Raise EngineError, mkState (EvCall c None :: log s) (results s))
  end.

Definition call_ (c : Call) : M unit := call c ;; ret tt.

Definition time_perf_counter : M Z := fun s =>
  let t := perf_counter env (log s) in
  (Ok t, mkState (EvClock t :: log s) (results s)).

Definition print (line : string) : M unit := emit (EvPrint line).

(** [results[k] = v] and a read of [results] *)
Definition set_result (k : string) (v : Entry) : M unit := fun s =>
  (Ok tt, mkState (log s) (<[k := v]> (results s))).

Definition get_results : M (gmap string Entry) := fun s => (Ok (results s), s).

(** *** [fmt] *)

Definition fmt (ms : Z) : string :=
  if ms <? 1 then format_float env 0 (ms * 1000) 1 +:+ "us"
  else if ms <? 1000 then format_float env 1 ms 1 +:+ "ms"
  else format_float env 2 ms 1000 +:+ "s".

(** [print(f"  {label:24s} {fmt(ms):>10s}")] *)
Definition query_line (label : string) (ms : Z) : string :=
  "  " +:+ ljust 24 label +:+ " " +:+ rjust 10 (fmt ms).

Definition print_query_line (label : string) (ms : Z) : M unit :=
  print (query_line label ms).

(** The sample appended by one measured iteration. *)
Definition elapsed_ms (t0 t1 : Z) : Z := (t1 - t0) * 1000.

(** *** DuckDB *)

Definition duckdb_thunk (sql : string) : M unit :=
  call_ (ConExecute ("CREATE OR REPLACE TABLE _r AS " +:+ sql)).

(** [run], nested in [bench_duckdb] *)
Definition bench_duckdb_run (label sql : string) (n_iter : Z) : M Z :=
  for_range N_WARMUP (duckdb_thunk sql) ;;
  times <- iterate_m (Z.to_nat n_iter) (fun times =>
      t0 <- time_perf_counter ;;
      duckdb_thunk sql ;;
      t1 <- time_perf_counter ;;
      ret (times ++ [elapsed_ms t0 t1])) [] ;;
  call_ (ConExecute "DROP TABLE IF EXISTS _r") ;;
  ms <- lift (median times) ;;
  print_query_line label ms ;;
  ret ms.

Definition bench_duckdb : M (gmap string Z) :=
  call_ (Import "duckdb") ;;
  call_ DuckConnect ;;
  call_ (ConExecute "RESET threads") ;;
  call_ (ConExecute "SELECT current_setting('threads')") ;;
  nthreads <- call Fetchone0 ;;
  print (nl +:+ "=== DuckDB " +:+ duckdb_version env +:+ " ("
         +:+ pretty nthreads +:+ " threads) ===") ;;
  print "Loading groupby CSV..." ;;
  t0 <- time_perf_counter ;;
  call_ (ConExecute ("CREATE TABLE df AS SELECT * FROM read_csv_auto('"
                     +:+ CSV_GROUPBY +:+ "')")) ;;
  t1 <- time_perf_counter ;;
  call_ (ConExecute "SELECT COUNT(*) FROM df") ;;
  nrows <- call Fetchone0 ;;
  print ("  " +:+ format_thousands env nrows +:+ " rows in "
         +:+ format_float env 0 (elapsed_ms t0 t1) 1 +:+ "ms") ;;
  q1 <- bench_duckdb_run "q1 — id1, SUM"
    "SELECT id1, SUM(v1) AS v1 FROM df GROUP BY id1" N_ITER ;;
  q2 <- bench_duckdb_run "q2 — id1+id2, SUM"
    "SELECT id1, id2, SUM(v1) AS v1 FROM df GROUP BY id1, id2" N_ITER ;;
  q3 <- bench_duckdb_run "q3 — id3, SUM+AVG"
    "SELECT id3, SUM(v1) AS v1, AVG(v3) AS v3 FROM df GROUP BY id3" N_ITER ;;
  q5 <- bench_duckdb_run "q5 — id6, 3xSUM"
    "SELECT id6, SUM(v1) AS v1, SUM(v2) AS v2, SUM(v3) AS v3 FROM df GROUP BY id6"
    N_ITER ;;
  q7 <- bench_duckdb_run "q7 — 6-key, SUM+COUNT"
    "SELECT id1,id2,id3,id4,id5,id6, SUM(v3) AS v3, COUNT(*) AS cnt FROM df GROUP BY id1,id2,id3,id4,id5,id6"
    N_ITER ;;
  s1 <- bench_duckdb_run "sort s1 — id1 ASC"
    "SELECT * FROM df ORDER BY id1" N_ITER ;;
  s6 <- bench_duckdb_run "sort s6 — 3-key ASC"
    "SELECT * FROM df ORDER BY id1, id2, id3" N_ITER ;;
  print "  Loading join CSVs..." ;;
  call_ (ConExecute ("CREATE TABLE x AS SELECT * FROM read_csv_auto('"
                     +:+ CSV_JOIN_X +:+ "')")) ;;
  call_ (ConExecute ("CREATE TABLE small AS SELECT * FROM read_csv_auto('"
                     +:+ CSV_JOIN_Y +:+ "')")) ;;
  j1 <- bench_duckdb_run "join j1 — inner, 3-key"
    "SELECT x.id1,x.id2,x.id3,x.v1,small.v2 FROM x INNER JOIN small ON x.id1=small.id1 AND x.id2=small.id2 AND x.id3=small.id3"
    N_ITER_JOIN ;;
  call_ ConClose ;;
  let res : gmap string Z :=
    <["j1" := j1]> (<["s6" := s6]> (<["s1" := s1]> (<["q7" := q7]>
    (<["q5" := q5]> (<["q3" := q3]> (<["q2" := q2]> (<["q1" := q1]> ∅))))))) in
  set_result "duckdb" (EMedians res) ;;
  set_result "duckdb_version" (EText (duckdb_version env)) ;;
  set_result "duckdb_threads" (ENumber nthreads) ;;
  ret res.

(** *** Polars *)

(** The warm-up and measurement lines of [run], nested in
    [bench_polars]; the same lines are written out once more for the
    join, with [N_ITER_JOIN]. *)
Definition polars_measure (query_fn : M Z) (n_iter : Z) : M Z :=
  for_range N_WARMUP (query_fn ;; ret tt) ;;
  times <- iterate_m (Z.to_nat n_iter) (fun times =>
      t0 <- time_perf_counter ;;
      query_fn ;;
      t1 <- time_perf_counter ;;
      ret (times ++ [elapsed_ms t0 t1])) [] ;;
  lift (median times).

Definition bench_polars_run (df : Z) (label : string) (query_fn : Z → M Z)
    (n_iter : Z) : M Z :=
  ms <- polars_measure (query_fn df) n_iter ;;
  print_query_line label ms ;;
  ret ms.

Definition bench_polars : M (gmap string Z) :=
  call_ (Import "polars") ;;
  print (nl +:+ "=== Polars " +:+ polars_version env +:+ " ===") ;;
  print "Loading groupby CSV..." ;;
  t0 <- time_perf_counter ;;
  df <- call (PlReadCsv CSV_GROUPBY) ;;
  t1 <- time_perf_counter ;;
  height <- call (PlHeight df) ;;
  print ("  " +:+ format_thousands env height +:+ " rows in "
         +:+ format_float env 0 (elapsed_ms t0 t1) 1 +:+ "ms") ;;
  q1 <- bench_polars_run df "q1 — id1, SUM"
    (fun d => call (PlGroupByAgg d ["id1"] [PlSum "v1"])) N_ITER ;;
  q2 <- bench_polars_run df "q2 — id1+id2, SUM"
    (fun d => call (PlGroupByAgg d ["id1"; "id2"] [PlSum "v1"])) N_ITER ;;
  q3 <- bench_polars_run df "q3 — id3, SUM+AVG"
    (fun d => call (PlGroupByAgg d ["id3"] [PlSum "v1"; PlMean "v3"])) N_ITER ;;
  q5 <- bench_polars_run df "q5 — id6, 3xSUM"
    (fun d => call (PlGroupByAgg d ["id6"] [PlSum "v1"; PlSum "v2"; PlSum "v3"]))
    N_ITER ;;
  q7 <- bench_polars_run df "q7 — 6-key, SUM+COUNT"
    (fun d => call (PlGroupByAgg d ["id1"; "id2"; "id3"; "id4"; "id5"; "id6"]
                                 [PlSum "v3"; PlLen])) N_ITER ;;
  s1 <- bench_polars_run df "sort s1 — id1 ASC"
    (fun d => call (PlSort d ["id1"])) N_ITER ;;
  s6 <- bench_polars_run df "sort s6 — 3-key ASC"
    (fun d => call (PlSort d ["id1"; "id2"; "id3"])) N_ITER ;;
  print "  Loading join CSVs..." ;;
  x <- call (PlReadCsv CSV_JOIN_X) ;;
  small <- call (PlReadCsv CSV_JOIN_Y) ;;
  j1 <- polars_measure (call (PlJoin x small ["id1"; "id2"; "id3"] "inner"))
                       N_ITER_JOIN ;;
  print_query_line "join j1 — inner, 3-key" j1 ;;
  let res : gmap string Z :=
    <["j1" := j1]> (<["s6" := s6]> (<["s1" := s1]> (<["q7" := q7]>
    (<["q5" := q5]> (<["q3" := q3]> (<["q2" := q2]> (<["q1" := q1]> ∅))))))) in
  set_result "polars" (EMedians res) ;;
  set_result "polars_version" (EText (polars_version env)) ;;
  ret res.

(** *** Teide *)

(** [if r and r >= 32: lib.release(r)] *)
Definition release_if_owned (r : Z) : M unit :=
  if owned r then call_ (Release r) else ret tt.

(** The warm-up and measurement lines, written out three times in
    [bench_teide]: in [run_groupby], in [run_sort] and for the join. *)
Definition teide_warmup (g root : Z) : M unit :=
  for_range N_WARMUP (
    r <- call (Execute g root) ;;
    release_if_owned r).

Definition teide_measure (g root : Z) (n_iter : Z) : M (list Z) :=
  iterate_m (Z.to_nat n_iter) (fun times =>
      t0 <- time_perf_counter ;;
      r <- call (Execute g root) ;;
      t1 <- time_perf_counter ;;
      release_if_owned r ;;
      ret (times ++ [elapsed_ms t0 t1])) [].

Definition run_groupby (tbl : Z) (label : string) (key_names : list string)
    (agg_ops : list Z) (agg_col_names : list string) (n_iter : Z) : M Z :=
  g <- call (GraphNew tbl) ;;
  try_finally (
    keys <- map_m (fun k => call (Scan g k)) key_names ;;
    agg_ins <- map_m (fun c => call (Scan g c)) agg_col_names ;;
    let nk := length keys in
    let na := length agg_ops in
    keys_arr <- lift (c_array c_void_p nk keys) ;;
    ops_arr <- lift (c_array c_uint16 na agg_ops) ;;
    ins_arr <- lift (c_array c_void_p na agg_ins) ;;
    root <- call (TdGroup g keys_arr nk ops_arr ins_arr na) ;;
    root <- call (Optimize g root) ;;
    teide_warmup g root ;;
    times <- teide_measure g root n_iter ;;
    ms <- lift (median times) ;;
    print_query_line label ms ;;
    ret ms)
  (call_ (GraphFree g)).

Definition run_sort (tbl : Z) (label : string) (col_names : list string)
    (descs : list Z) (n_iter : Z) : M Z :=
  g <- call (GraphNew tbl) ;;
  try_finally (
    table_node <- call (ConstTable g tbl) ;;
    keys <- map_m (fun c => call (Scan g c)) col_names ;;
    root <- call (SortOp g table_node keys descs) ;;
    root <- call (Optimize g root) ;;
    teide_warmup g root ;;
    times <- teide_measure g root n_iter ;;
    ms <- lift (median times) ;;
    print_query_line label ms ;;
    ret ms)
  (call_ (GraphFree g)).

(** The join of [bench_teide]: from [g = lib.graph_new(x)] to the end of
    its [try ... finally]; [res] is the dictionary of medians so far. *)
Definition bench_teide_join (x y : Z) (res : gmap string Z)
  : M (gmap string Z) :=
  g <- call (GraphNew x) ;;
  try_finally (
    left_node <- call (ConstTable g x) ;;
    right_node <- call (ConstTable g y) ;;
    left_keys <- map_m (fun k => call (Scan g k)) ["id1"; "id2"; "id3"] ;;
    right_keys <- map_m (fun k =>
        name_id <- call (SymIntern k) ;;
        col_vec <- call (TdTableGetCol y name_id) ;;
        call (ConstVec g col_vec)) ["id1"; "id2"; "id3"] ;;
    root <- call (Join g left_node left_keys right_node right_keys 0) ;;
    root <- call (Optimize g root) ;;
    teide_warmup g root ;;
    times <- teide_measure g root N_ITER_JOIN ;;
    ms <- lift (median times) ;;
    print_query_line "join j1 — inner, 3-key" ms ;;
    ret (<["j1" := ms]> res))
  (call_ (GraphFree g)).

Definition bench_teide : M (gmap string Z) :=
  call_ (SysPathInsert (path_join (path_join (SCRIPT_DIR env) "..") "teide-py")) ;;
  call_ (SetEnviron "TEIDE_LIB"
           (path_join (path_join (path_join (path_join (SCRIPT_DIR env) "..")
              "teide") "build") "libteide.so")) ;;
  call_ (Import "teide") ;;
  call_ (Import "ctypes") ;;
  call_ TeideLibNew ;;
  call_ ArenaInit ;;
  call_ SymInit ;;
  print (nl +:+ "=== Teide (C17 engine) ===") ;;
  print "Loading groupby CSV..." ;;
  t0 <- time_perf_counter ;;
  tbl <- call (ReadCsv CSV_GROUPBY) ;;
  t1 <- time_perf_counter ;;
  nrows <- call (TableNrows tbl) ;;
  print ("  " +:+ format_thousands env nrows +:+ " rows in "
         +:+ format_float env 0 (elapsed_ms t0 t1) 1 +:+ "ms") ;;
  q1 <- run_groupby tbl "q1 — id1, SUM" ["id1"] [OP_SUM env] ["v1"] N_ITER ;;
  q2 <- run_groupby tbl "q2 — id1+id2, SUM" ["id1"; "id2"] [OP_SUM env] ["v1"]
          N_ITER ;;
  q3 <- run_groupby tbl "q3 — id3, SUM+AVG" ["id3"] [OP_SUM env; OP_AVG env]
          ["v1"; "v3"] N_ITER ;;
  q5 <- run_groupby tbl "q5 — id6, 3xSUM" ["id6"]
          [OP_SUM env; OP_SUM env; OP_SUM env] ["v1"; "v2"; "v3"] N_ITER ;;
  q7 <- run_groupby tbl "q7 — 6-key, SUM+COUNT"
          ["id1"; "id2"; "id3"; "id4"; "id5"; "id6"] [OP_SUM env; OP_COUNT env]
          ["v3"; "v1"] N_ITER ;;
  s1 <- run_sort tbl "sort s1 — id1 ASC" ["id1"] [0] N_ITER ;;
  s6 <- run_sort tbl "sort s6 — 3-key ASC" ["id1"; "id2"; "id3"] [0; 0; 0]
          N_ITER ;;
  let res : gmap string Z :=
    <["s6" := s6]> (<["s1" := s1]> (<["q7" := q7]>
    (<["q5" := q5]> (<["q3" := q3]> (<["q2" := q2]> (<["q1" := q1]> ∅)))))) in
  print "  Loading join CSVs..." ;;
  x <- call (ReadCsv CSV_JOIN_X) ;;
  y <- call (ReadCsv CSV_JOIN_Y) ;;
  res <- bench_teide_join x y res ;;
  call_ (Release y) ;;
  call_ (Release x) ;;
  call_ (Release tbl) ;;
  call_ SymDestroy ;;
  call_ ArenaDestroyAll ;;
  set_result "teide" (EMedians res) ;;
  ret res.

(** *** The main program *)

(** [fmt(t) if t else 'N/A'] *)
Definition cell (t : option Z) : string :=
  match t with
  | Some v => if negb (v =? 0) then fmt v else "N/A"
  | None => "N/A"
  end.

Definition summary_row (rs : gmap string Entry) (q : string * string)
  : Outcome string :=
  let '(label, key) := q in
  match get_median rs "teide" key with
  | Raise e => Raise e
  | Ok t =>
    match get_median rs "duckdb" key with
    | Raise e => Raise e
    | Ok d =>
      match get_median rs "polars" key with
      | Raise e => Raise e
      | Ok p =>
          Ok ("  " +:+ ljust 28 label +:+ " " +:+ rjust 10 (cell t) +:+ " "
              +:+ rjust 10 (cell d) +:+ " " +:+ rjust 10 (cell p))
      end
    end
  end.

Definition check_datasets : M unit :=
  for_each [CSV_GROUPBY; CSV_JOIN_X; CSV_JOIN_Y] (fun path =>
    if negb (path_exists env path)
    then print ("Dataset not found: " +:+ path) ;; raise (SystemExit 1)
    else ret tt).

Definition print_summary : M unit :=
  print (nl +:+ nl +:+ str_mul "=" 80) ;;
  print "SUMMARY — H2O.ai 10M rows" ;;
  print (str_mul "=" 80) ;;
  print (nl +:+ "  " +:+ ljust 28 "Query" +:+ " " +:+ rjust 10 "Teide" +:+ " "
         +:+ rjust 10 "DuckDB" +:+ " " +:+ rjust 10 "Polars") ;;
  print ("  " +:+ str_mul "-" 28 +:+ " " +:+ str_mul "-" 10 +:+ " "
         +:+ str_mul "-" 10 +:+ " " +:+ str_mul "-" 10) ;;
  for_each queries (fun q =>
    rs <- get_results ;;
    row <- lift (summary_row rs q) ;;
    print row).

Definition save_results : M unit :=
  let out_path := path_join (SCRIPT_DIR env) "results.json" in
  rs <- get_results ;;
  emit (EvDump out_path rs) ;;
  print (nl +:+ "Results saved to " +:+ out_path).

Definition main : M unit :=
  check_datasets ;;
  bench_duckdb ;;
  bench_polars ;;
  bench_teide ;;
  print_summary ;;
  save_results.

End Harness.

(** ** [gen/generate_data.py]: the group-by dataset

    Python's [random] module and the formatting of floats are outside
    the repository: a [PyRandom] gives the state of the generator, what
    each function of the module draws from a state, and the three
    operations on floats the generator uses.  The lines printed to the
    console are not modelled, nor a failure of the file system. *)

Record PyRandom : Type := mkPyRandom {
  rng : Type;
  float : Type;
  (** [random.seed(n)] *)
  seed_state : Z → rng;
  (** [random.randint(a, b)] *)
  randint : Z → Z → rng → Z * rng;
  (** the index [random.choice] draws in a sequence of the given length *)
  choice_index : nat → rng → nat * rng;
  (** [random.random()] *)
  random : rng → float * rng;
  (** [random.uniform(a, b)] *)
  uniform : Z → Z → rng → float * rng;
  (** [x < 0.5] *)
  lt_half : float → bool;
  (** [round(x, 6)] *)
  round6 : float → float;
  (** the text [csv.writer] writes for a float *)
  repr : float → string
}.

Definition comma : Ascii.ascii := Ascii.ascii_of_nat 44.
Definition dquote : Ascii.ascii := Ascii.ascii_of_nat 34.
Definition cr : Ascii.ascii := Ascii.ascii_of_nat 13.
Definition lf : Ascii.ascii := Ascii.ascii_of_nat 10.

(** The default dialect of [csv.writer]: a field that holds the
    delimiter, the quote character or a character of the line terminator
    is quoted, its quote characters doubled. *)
Fixpoint needs_quote (s : string) : bool :=
  match s with
  | EmptyString => false
  | String c s' =>
      Ascii.eqb c comma || Ascii.eqb c dquote || Ascii.eqb c cr
      || Ascii.eqb c lf || needs_quote s'
  end.

Fixpoint double_quotes (s : string) : string :=
  match s with
  | EmptyString => EmptyString
  | String c s' =>
      if Ascii.eqb c dquote then String c (String c (double_quotes s'))
      else String c (double_quotes s')
  end.

Definition quote_minimal (s : string) : string :=
  if needs_quote s
  then String dquote (double_quotes s +:+ String dquote EmptyString)
  else s.

(** [f"{i:0wd}"] *)
Definition format_0d (w : nat) (i : Z) : string :=
  if i <? 0 then "-" +:+ str_mul "0" (w - 1 - String.length (pretty (- i)))
                 +:+ pretty (- i)
  else str_mul "0" (w - String.length (pretty i)) +:+ pretty i.

(** [range(a, b)] *)
Definition py_range (a b : Z) : list Z := seqZ a (b - a).

Section Generator.

Variable R : PyRandom.

Inductive Field : Type :=
| FStr (s : string)
| FInt (n : Z)
| FFloat (x : float R).

Definition csv_field (f : Field) : string :=
  match f with
  | FStr s => quote_minimal s
  | FInt n => pretty n
  | FFloat x => quote_minimal (repr R x)
  end.

(** [writer.writerow(row)] writes this line. *)
Definition csv_line (row : list Field) : string :=
  String.concat (String comma EmptyString) (map csv_field row)
  +:+ String cr (String lf EmptyString).

(** The state of the generator: the hidden state of the module [random]
    and the content of the files. *)
Record GenState : Type := mkGenState {
  random_state : rng R;
  files : gmap string string
}.

Definition G (A : Type) : Type := SE GenState A.

Definition random_seed (n : Z) : G unit := fun st =>
  (Ok tt, mkGenState (seed_state R n) (files st)).

Definition random_randint (a b : Z) : G Z := fun st =>
  let '(n, r) := randint R a b (random_state st) in
  (Ok n, mkGenState r (files st)).

Definition random_random : G (float R) := fun st =>
  let '(x, r) := random R (random_state st) in
  (Ok x, mkGenState r (files st)).

Definition random_uniform (a b : Z) : G (float R) := fun st =>
  let '(x, r) := uniform R a b (random_state st) in
  (Ok x, mkGenState r (files st)).

(** [random.choice(seq)]: [IndexError] on an empty sequence *)
Definition random_choice {A} (seq : list A) : G A := fun st =>
  match seq with
  | [] => (Raise IndexError, st)
  | _ =>
      let '(i, r) := choice_index R (length seq) (random_state st) in
      match seq !! i with
      | Some x => (Ok x, mkGenState r (files st))
      | None => (Raise IndexError, mkGenState r (files st))
      end
  end.

(** [open(path, "w", newline="")] and a write to the file *)
Definition open_w (path : string) : G unit := fun st =>
  (Ok tt, mkGenState (random_state st) (<[path := ""]> (files st))).

Definition write (path text : string) : G unit := fun st =>
  (Ok tt, mkGenState (random_state st)
            (<[path := default "" (files st !! path) +:+ text]> (files st))).

Definition writerow (path : string) (row : list Field) : G unit :=
  write path (csv_line row).

(** [n_rows // k] *)
Definition floordiv (a b : Z) : G Z :=
  if b =? 0 then raise ZeroDivisionError else ret (a / b).

(** The row of one iteration of the inner loop. *)
Definition draw_row (na_pct : Z) (id1_values id2_values id3_values : list string)
    (id4_values id5_values id6_values : list Z) : G (list Field) :=
  na <- (if 0 <? na_pct
         then n <- random_randint 1 100 ;; ret (n <=? na_pct)
         else ret false) ;;
  if na : bool then
    r1 <- random_random ;;
    id1 <- (if lt_half R r1 then ret "" else random_choice id1_values) ;;
    r2 <- random_random ;;
    id2 <- (if lt_half R r2 then ret "" else random_choice id2_values) ;;
    id3 <- random_choice id3_values ;;
    id4 <- random_choice id4_values ;;
    id5 <- random_choice id5_values ;;
    id6 <- random_choice id6_values ;;
    v1 <- random_randint 1 5 ;;
    v2 <- random_randint 1 15 ;;
    v3 <- random_uniform 0 100 ;;
    ret [FStr id1; FStr id2; FStr id3; FInt id4; FInt id5; FInt id6;
         FInt v1; FInt v2; FFloat (round6 R v3)]
  else
    id1 <- random_choice id1_values ;;
    id2 <- random_choice id2_values ;;
    id3 <- random_choice id3_values ;;
    id4 <- random_choice id4_values ;;
    id5 <- random_choice id5_values ;;
    id6 <- random_choice id6_values ;;
    v1 <- random_randint 1 5 ;;
    v2 <- random_randint 1 15 ;;
    v3 <- random_uniform 0 100 ;;
    ret [FStr id1; FStr id2; FStr id3; FInt id4; FInt id5; FInt id6;
         FInt v1; FInt v2; FFloat (round6 R v3)].

Definition batch_size : Z := 1000000.

(** [while rows_written < n_rows: ...]: one unit of fuel per batch;
    [None] when the fuel runs out. *)
Fixpoint write_batches (fuel : nat) (path : string) (row : G (list Field))
    (n_rows rows_written : Z) (st : GenState)
  : option (Outcome unit * GenState) :=
  if rows_written <? n_rows then
    match fuel with
    | O => None
    | S fuel' =>
        let batch_end := Z.min (rows_written + batch_size) n_rows in
        match for_range (batch_end - rows_written)
                (r <- row ;; writerow path r) st with
        | (Ok _, st') => write_batches fuel' path row n_rows batch_end st'
        | (Raise e, st') => Some (Raise e, st')
        end
    end
  else Some (Ok tt, st).

Definition generate_h2oai_groupby (fuel : nat) (output_path : string)
    (n_rows k na_pct seed : Z) (st : GenState)
  : option (Outcome unit * GenState) :=
  match
    (random_seed seed ;;
     q <- floordiv n_rows k ;;
     let n_high := Z.max q k in
     let id1_values := map (fun i => "id" +:+ format_0d 3 i) (py_range 1 (k + 1)) in
     let id2_values := map (fun i => "id" +:+ format_0d 3 i) (py_range 1 (k + 1)) in
     let id3_values :=
       map (fun i => "id" +:+ format_0d 9 i) (py_range 1 (n_high + 1)) in
     let id4_values := py_range 1 (k + 1) in
     let id5_values := py_range 1 (k + 1) in
     let id6_values := py_range 1 (n_high + 1) in
     open_w output_path ;;
     writerow output_path
       [FStr "id1"; FStr "id2"; FStr "id3"; FStr "id4"; FStr "id5";
        FStr "id6"; FStr "v1"; FStr "v2"; FStr "v3"] ;;
     ret (draw_row na_pct id1_values id2_values id3_values
                   id4_values id5_values id6_values)) st
  with
  | (Ok row, st1) => write_batches fuel output_path row n_rows 0 st1
  | (Raise e, st1) => Some (Raise e, st1)
  end.

End Generator.

(** ** [gen/generate_data.py]: the names of the datasets and the join tables

    [n_to_scientific], the names [main] builds with it, and
    [generate_h2oai_join].  The operator [/] of [pathlib] is outside the
    repository: it is a parameter of the generator. *)

Definition n_to_scientific (n : Z) : string :=
  if n >=? 1000000000 then "1e9"
  else if n >=? 100000000 then "1e8"
  else if n >=? 10000000 then "1e7"
  else if n >=? 1000000 then "1e6"
  else if n >=? 100000 then "1e5"
  else if n >=? 10000 then "1e4"
  else if n >=? 1000 then "1e3"
  else if n >=? 100 then "1e2"
  else if n >=? 10 then "1e1"
  else pretty n.

(** In [main]: [f"G1_{n_str}_{k_str}_{na_pct}_{seed}"] and
    [f"{dataset_name}.csv"] *)
Definition dataset_name (n_rows k na_pct seed : Z) : string :=
  "G1_" +:+ n_to_scientific n_rows +:+ "_" +:+ n_to_scientific k +:+ "_"
  +:+ pretty na_pct +:+ "_" +:+ pretty seed.

Definition csv_filename (n_rows k na_pct seed : Z) : string :=
  dataset_name n_rows k na_pct seed +:+ ".csv".

(** In [generate_h2oai_join]: [f"J1_{n_rows}_NA_0_0.csv"] and
    [f"J1_{n_rows}_{n_rows}_0_0.csv"] *)
Definition x_name (n_rows : Z) : string :=
  "J1_" +:+ pretty n_rows +:+ "_NA_0_0.csv".

Definition y_name (n_rows : Z) : string :=
  "J1_" +:+ pretty n_rows +:+ "_" +:+ pretty n_rows +:+ "_0_0.csv".

Section JoinGenerator.

Variable R : PyRandom.

(** [output_dir / name] *)
Variable path_div : string → string → string.

Definition generate_h2oai_join (output_dir : string) (n_rows seed : Z)
  : G R unit :=
  random_seed R seed ;;
  let x_path := path_div output_dir (x_name n_rows) in
  open_w R x_path ;;
  writerow R x_path
    [FStr R "id1"; FStr R "id2"; FStr R "id3"; FStr R "id4"; FStr R "id5";
     FStr R "id6"; FStr R "v1"] ;;
  for_each (py_range 0 n_rows) (fun i =>
    v1 <- random_uniform R 0 100 ;;
    writerow R x_path
      [FInt R (i mod 100 + 1); FInt R (i mod 100 + 1); FInt R (i mod 100 + 1);
       FStr R ("id" +:+ format_0d 3 (i mod 100 + 1));
       FStr R ("id" +:+ format_0d 3 (i mod 100 + 1));
       FStr R ("id" +:+ format_0d 3 (i mod 100 + 1));
       FFloat R (round6 R v1)]) ;;
  let y_path := path_div output_dir (y_name n_rows) in
  open_w R y_path ;;
  writerow R y_path
    [FStr R "id1"; FStr R "id2"; FStr R "id3"; FStr R "id4"; FStr R "id5";
     FStr R "id6"; FStr R "v2"] ;;
  for_each (py_range 0 n_rows) (fun i =>
    v2 <- random_uniform R 0 100 ;;
    writerow R y_path
      [FInt R (i mod 100 + 1); FInt R (i mod 100 + 1); FInt R (i mod 100 + 1);
       FStr R ("id" +:+ format_0d 3 (i mod 100 + 1));
       FStr R ("id" +:+ format_0d 3 (i mod 100 + 1));
       FStr R ("id" +:+ format_0d 3 (i mod 100 + 1));
       FFloat R (round6 R v2)]).

End JoinGenerator.

(** ** [gen/generate_join.py]

    [random.randint] raises [ValueError] on an empty range: the
    exceptions of this generator are those of the harness and this one. *)

Inductive PyExn : Type :=
| ValueError
| Builtin (e : Exn).

Definition J (R : PyRandom) (A : Type) : Type :=
  GenState R → (A + PyExn) * GenState R.

Definition jret {R : PyRandom} {A} (a : A) : J R A := fun st => (inl a, st).

Definition jbind {R : PyRandom} {A B} (m : J R A) (k : A → J R B) : J R B :=
  fun st =>
    match m st with
    | (inl a, st1) => k a st1
    | (inr e, st1) => (inr e, st1)
    end.

Notation "x <-- m ;; k" := (jbind m (fun x => k))
  (at level 100, m at next level, right associativity).

(** A program of the group-by generator, run in this one. *)
Definition from_g {R : PyRandom} {A} (m : G R A) : J R A := fun st =>
  match m st with
  | (Ok a, st1) => (inl a, st1)
  | (Raise e, st1) => (inr (Builtin e), st1)
  end.

Fixpoint jrepeat {R : PyRandom} (n : nat) (body : J R unit) : J R unit :=
  match n with
  | O => jret tt
  | S n' => _ <-- body ;; jrepeat n' body
  end.

Section JoinData.

Variable R : PyRandom.
Variable path_div : string → string → string.

(** [random.randint(a, b)] *)
Definition randint_checked (a b : Z) : J R Z := fun st =>
  if b <? a then (inr ValueError, st) else from_g (random_randint R a b) st.

(** The row of one iteration. *)
Definition draw_join_row (n k : Z) : J R (list (Field R)) :=
  id1 <-- randint_checked 1 k ;;
  id2 <-- randint_checked 1 k ;;
  q3 <-- from_g (floordiv R n k) ;;
  id3 <-- randint_checked 1 q3 ;;
  id4 <-- randint_checked 1 k ;;
  id5 <-- randint_checked 1 k ;;
  q6 <-- from_g (floordiv R n k) ;;
  id6 <-- randint_checked 1 q6 ;;
  v <-- from_g (random_uniform R 0 100) ;;
  jret [FInt R id1; FInt R id2; FInt R id3;
        FStr R ("id" +:+ pretty id4); FStr R ("id" +:+ pretty id5);
        FStr R ("id" +:+ pretty id6); FFloat R (round6 R v)].

Definition generate_h2oai_join_data (output_dir : string) (n k seed : Z)
  : J R unit :=
  _ <-- from_g (random_seed R seed) ;;
  let x_path := path_div output_dir "J1_1e7_NA_0_0.csv" in
  _ <-- from_g (open_w R x_path) ;;
  _ <-- from_g (writerow R x_path
          [FStr R "id1"; FStr R "id2"; FStr R "id3"; FStr R "id4";
           FStr R "id5"; FStr R "id6"; FStr R "v1"]) ;;
  _ <-- jrepeat (Z.to_nat n) (
          row <-- draw_join_row n k ;;
          from_g (writerow R x_path row)) ;;
  let y_path := path_div output_dir "J1_1e7_1e7_0_0.csv" in
  _ <-- from_g (random_seed R (seed + 1)) ;;
  _ <-- from_g (open_w R y_path) ;;
  _ <-- from_g (writerow R y_path
          [FStr R "id1"; FStr R "id2"; FStr R "id3"; FStr R "id4";
           FStr R "id5"; FStr R "id6"; FStr R "v2"]) ;;
  jrepeat (Z.to_nat n) (
    row <-- draw_join_row n k ;;
    from_g (writerow R y_path row)).

End JoinData.

(** Two states of the generator agree: the same state of [random] and
    the same content in the two output files. *)
Definition agree (R : PyRandom) (p1 p2 : string) (st1 st2 : GenState R)
  : Prop :=
  random_state R st1 = random_state R st2
  ∧ files R st1 !! p1 = files R st2 !! p2
  ∧ is_Some (files R st1 !! p1).

(** Two programs run alike from states that agree. *)
Definition alike (R : PyRandom) (p1 p2 : string) {A} (m1 m2 : G R A)
  : Prop :=
  ∀ st1 st2, agree R p1 p2 st1 st2 →
    (m1 st1).1 = (m2 st2).1 ∧ agree R p1 p2 (m1 st1).2 (m2 st2).2.

(** ** Observers of the log

    Each claim about the order or the number of calls is stated through
    a function that reads the log, oldest event first, and keeps a small
    state.  The log holds the newest event first, hence [foldr]. *)

(** *** Timing: which runs of a query were timed

    A thunk is one execution of a benchmarked query, in any of the three
    engines.  It is [Timed] when a clock reading immediately precedes it
    and another immediately follows it; the sample is what the harness
    appends to [times].  The printed query line closes the runs of a
    query. *)

Inductive Run : Type :=
| Untimed
| Timed (ms : Z).

Definition is_thunk (c : Call) : bool :=
  match c with
  | ConExecute sql => starts_with "CREATE OR REPLACE TABLE _r AS " sql
  | PlGroupByAgg _ _ _ | PlSort _ _ | PlJoin _ _ _ _ => true
  | Execute _ _ => true
  | _ => false
  end.

Inductive Phase : Type :=
| Idle
| Armed (t0 : Z)
| Running (t0 : Z).

Record Meter : Type := mkMeter {
  phase : Phase;
  runs : list Run;
  reported : list (string * list Run)
}.

(** A thunk that was still running when something other than the clock
    happened was not timed. *)
Definition settle (p : Phase) (rs : list Run) : list Run :=
  match p with
  | Running _ => Untimed :: rs
  | _ => rs
  end.

Definition meter_step (e : Event) (m : Meter) : Meter :=
  match e with
  | EvClock t =>
      match phase m with
      | Running t0 =>
          mkMeter (Armed t) (Timed ((t - t0) * 1000) :: runs m) (reported m)
      | _ => mkMeter (Armed t) (runs m) (reported m)
      end
  | EvCall c _ =>
      if is_thunk c then
        match phase m with
        | Armed t0 => mkMeter (Running t0) (runs m) (reported m)
        | p => mkMeter Idle (Untimed :: settle p (runs m)) (reported m)
        end
      else mkMeter Idle (settle (phase m) (runs m)) (reported m)
  | EvPrint line =>
      match settle (phase m) (runs m) with
      | [] => mkMeter Idle [] (reported m)
      | rs => mkMeter Idle [] ((line, rev rs) :: reported m)
      end
  | EvDump _ _ => mkMeter Idle (settle (phase m) (runs m)) (reported m)
  end.

Definition meter (l : list Event) : Meter :=
  foldr meter_step (mkMeter Idle [] []) l.

(** The runs of a query measured by the protocol: [w] warm-up runs, then
    one timed run per sample. *)
Definition protocol_runs (w : nat) (samples : list Z) : list Run :=
  replicate w Untimed ++ (Timed <$> samples).

Definition is_timed (r : Run) : bool :=
  match r with
  | Timed _ => true
  | Untimed => false
  end.

Definition count_untimed (rs : list Run) : nat :=
  length (List.filter (fun r => negb (is_timed r)) rs).

Definition count_timed (rs : list Run) : nat :=
  length (List.filter is_timed rs).

(** *** Result handles of the native engine

    [Some (pending, live)]: no violation so far; [pending] is the result
    at or above 32 of the latest [execute] that has not been released yet
    and [live] is the number of graphs that are not freed.  [None]: an owned
    result was not released before the next [execute] or before the graph
    was freed, or something that [execute] did not hand over (a sentinel,
    a result a second time, a table) was released while a graph was
    live. *)

Definition handles_step (e : Event) (st : option (option Z * nat))
  : option (option Z * nat) :=
  match st with
  | None => None
  | Some (pending, live) =>
      match e with
      | EvCall (Execute _ _) ret =>
          match pending with
          | Some _ => None
          | None =>
              match ret with
              | Some r => Some (if 32 <=? r then Some r else None, live)
              | None => Some (None, live)
              end
          end
      | EvCall (Release h) _ =>
          match pending with
          | Some r => if r =? h then Some (None, live) else None
          | None => if (live =? 0)%nat then Some (None, live) else None
          end
      | EvCall (GraphNew _) (Some _) => Some (pending, S live)
      | EvCall (GraphFree _) _ =>
          match pending with
          | Some _ => None
          | None => Some (None, pred live)
          end
      | _ => st
      end
  end.

Definition handles (l : list Event) : option (option Z * nat) :=
  foldr handles_step (Some (None, O)) l.

(** *** Planning of the native engine

    The life of one graph: nodes are added while it is [Building]; one
    successful [optimize] makes it [Ready] with the root to execute and
    the number of executions so far; [Broken]: a node was added or
    [optimize] ran after the graph was optimized, [execute] ran on a graph
    that was not optimized or on another root, or a graph was created
    while another one was live.  The second component lists, newest
    first, the number of executions of every graph that was optimized and
    freed. *)

Inductive Plan : Type :=
| NoGraph
| Building (g : Z)
| Ready (g root : Z) (executions : nat)
| Failed (g : Z)
| Broken.

Definition builds_node (c : Call) : option Z :=
  match c with
  | Scan g _ | ConstTable g _ | ConstVec g _ | TdGroup g _ _ _ _ _
  | SortOp g _ _ _ | Join g _ _ _ _ _ => Some g
  | _ => None
  end.

Definition planner_step (e : Event) (st : Plan * list nat) : Plan * list nat :=
  let '(p, done) := st in
  match e with
  | EvCall (GraphNew _) (Some g) =>
      match p with
      | NoGraph => (Building g, done)
      | _ => (Broken, done)
      end
  | EvCall (Optimize g' _) ret =>
      match p with
      | Building g =>
          if g =? g' then
            match ret with
            | Some root => (Ready g root 0, done)
            | None => (Failed g, done)
            end
          else (Broken, done)
      | _ => (Broken, done)
      end
  | EvCall (Execute g' r) _ =>
      match p with
      | Ready g root n =>
          if (g =? g') && (root =? r) then (Ready g root (S n), done)
          else (Broken, done)
      | _ => (Broken, done)
      end
  | EvCall (GraphFree g') _ =>
      match p with
      | Building g | Failed g =>
          if g =? g' then (NoGraph, done) else (Broken, done)
      | Ready g _ n =>
          if g =? g' then (NoGraph, n :: done) else (Broken, done)
      | _ => (Broken, done)
      end
  | EvCall c _ =>
      match builds_node c with
      | Some g' =>
          match p with
          | Building g => if g =? g' then st else (Broken, done)
          | _ => (Broken, done)
          end
      | None => st
      end
  | _ => st
  end.

Definition planner (l : list Event) : Plan * list nat :=
  foldr planner_step (NoGraph, []) l.

(** *** Borrowed tables of the native engine

    A graph borrows the table it was created on, the tables wrapped by
    [const_table] and the tables owning the columns wrapped by
    [const_vec].  A release that does not give back the latest result of
    [execute] is the release of a table: it is a violation while a live
    graph borrows that table. *)

Record Borrows : Type := mkBorrows {
  result : option Z;
  graphs : list (Z * list Z);
  columns : list (Z * Z);
  loaded : list (string * Z);
  released : list Z
}.

Definition borrow (g t : Z) (gs : list (Z * list Z)) : list (Z * list Z) :=
  map (fun '(g', ts) => if g' =? g then (g', t :: ts) else (g', ts)) gs.

Definition owners (v : Z) (cols : list (Z * Z)) : list Z :=
  map snd (List.filter (fun '(v', _) => v' =? v) cols).

Definition borrowed (t : Z) (gs : list (Z * list Z)) : bool :=
  existsb (fun '(_, ts) => existsb (Z.eqb t) ts) gs.

Definition gives_back (h : Z) (result : option Z) : bool :=
  match result with
  | Some r => r =? h
  | None => false
  end.

Definition borrows_step (e : Event) (st : option Borrows) : option Borrows :=
  match st with
  | None => None
  | Some b =>
      match e with
      | EvCall (ReadCsv path) (Some t) =>
          Some (mkBorrows (result b) (graphs b) (columns b)
                          ((path, t) :: loaded b) (released b))
      | EvCall (GraphNew t) (Some g) =>
          Some (mkBorrows (result b) ((g, [t]) :: graphs b) (columns b)
                          (loaded b) (released b))
      | EvCall (ConstTable g t) _ =>
          Some (mkBorrows (result b) (borrow g t (graphs b)) (columns b)
                          (loaded b) (released b))
      | EvCall (TdTableGetCol t _) (Some v) =>
          Some (mkBorrows (result b) (graphs b) ((v, t) :: columns b)
                          (loaded b) (released b))
      | EvCall (ConstVec g v) _ =>
          Some (mkBorrows (result b)
                  (foldr (borrow g) (graphs b) (owners v (columns b)))
                  (columns b) (loaded b) (released b))
      | EvCall (Execute _ _) ret =>
          Some (mkBorrows
                  (match ret with
                   | Some r => if 32 <=? r then Some r else None
                   | None => None
                   end)
                  (graphs b) (columns b) (loaded b) (released b))
      | EvCall (Release h) _ =>
          if gives_back h (result b)
          then Some (mkBorrows None (graphs b) (columns b) (loaded b)
                               (released b))
          else if borrowed h (graphs b) then None
          else Some (mkBorrows (result b) (graphs b) (columns b) (loaded b)
                               (h :: released b))
      | EvCall (GraphFree g) _ =>
          Some (mkBorrows (result b)
                  (List.filter (fun '(g', _) => negb (g' =? g)) (graphs b))
                  (columns b) (loaded b) (released b))
      | _ => st
      end
  end.

Definition borrows (l : list Event) : option Borrows :=
  foldr borrows_step (Some (mkBorrows None [] [] [] [])) l.

(** ** Weakest preconditions

    [wp m Q s]: run from [s], the program [m] ends in an outcome and a
    state that satisfy [Q]. *)

Definition wp {A} (m : M A) (Q : Outcome A → State → Prop) (s : State) : Prop :=
  Q (m s).1 (m s).2.

(** The postcondition of the first half of a sequence: [k] if it
    returned, [Q] if it raised. *)
Definition after {A B} (k : A → State → Prop) (Q : Outcome B → State → Prop)
  : Outcome A → State → Prop :=
  fun o s => match o with Ok a => k a s | Raise e => Q (Raise e) s end.

(** The clock was not read for a thunk that is still running. *)
Definition resting (p : Phase) : Prop :=
  match p with Running _ => False | _ => True end.

(** What a measured query leaves in the observer: its line and the runs
    of the protocol, whose samples have [ms] for median. *)
Definition measured (env : Env) (label : string) (n_iter : Z) (ms : Z)
    (R : list (string * list Run)) (s' : State) : Prop :=
  ∃ samples, length samples = Z.to_nat n_iter ∧ median samples = Ok ms
    ∧ meter (log s') =
        mkMeter Idle [] ((query_line env label ms,
                          protocol_runs (Z.to_nat N_WARMUP) samples) :: R).

(** The state of the observer between the warm-up and the end of the
    measured loop. *)
Definition measuring (R : list (string * list Run)) (i : nat)
    (times : list Z) (s : State) : Prop :=
  length times = i ∧ ∃ p, resting p ∧
    meter (log s) = mkMeter p (rev (Timed <$> times)
                               ++ replicate (Z.to_nat N_WARMUP) Untimed) R.

(** No run of the current query yet, and the clock may have been read. *)
Definition quiet (R : list (string * list Run)) (s : State) : Prop :=
  ∃ p, resting p ∧ meter (log s) = mkMeter p [] R.

(** A suite was measured as the specification says: every query of
    [queries], in order, left its line and the runs of the protocol with
    3 warm-up runs and 7 samples (5 for the join), and its median is in
    the dictionary [res]. *)
Definition suite_measured (env : Env) (res : gmap string Z)
    (R : list (string * list Run)) (s' : State) : Prop :=
  ∃ rep, meter (log s') = mkMeter Idle [] (rev rep ++ R)
    ∧ Forall2 (fun '(label, key) '(line, rs) =>
         ∃ samples ms, res !! key = Some ms
           ∧ length samples = (if starts_with "j" key then 5 else 7)%nat
           ∧ median samples = Ok ms
           ∧ line = query_line env label ms
           ∧ rs = protocol_runs 3 samples
           ∧ count_untimed rs = 3%nat
           ∧ count_timed rs = (if starts_with "j" key then 5 else 7)%nat)
       queries rep.

(** ** Sample environments

    An environment for the examples: every call into an engine returns a
    fresh handle above the threshold, every dataset exists, and the [k]-th
    execution of a thunk lasts [k] units of the clock. *)

Definition thunks_so_far (l : list Event) : Z :=
  Z.of_nat (length (List.filter
    (fun e => match e with EvCall c _ => is_thunk c | _ => false end) l)).

Definition sample_env : Env :=
  {| SCRIPT_DIR := "/bench";
     path_exists := fun _ => true;
     perf_counter := fun l => thunks_so_far l * (thunks_so_far l + 1) / 2;
     respond := fun l _ => Some (100 + Z.of_nat (length l));
     duckdb_version := "1.1.0";
     polars_version := "1.9.0";
     OP_SUM := 1;
     OP_AVG := 2;
     OP_COUNT := 3;
     format_float := fun _ n d => pretty (n / d);
     format_thousands := pretty |}.

(** The same environment without the left table of the join. *)
Definition missing_env : Env :=
  {| SCRIPT_DIR := "/bench";
     path_exists := fun p =>
       negb (String.eqb p "/bench/datasets/h2oai_join_1e7/J1_1e7_NA_0_0.csv");
     perf_counter := perf_counter sample_env;
     respond := respond sample_env;
     duckdb_version := "1.1.0";
     polars_version := "1.9.0";
     OP_SUM := 1;
     OP_AVG := 2;
     OP_COUNT := 3;
     format_float := fun _ n d => pretty (n / d);
     format_thousands := pretty |}.

(** An engine whose [execute] returns the sentinel 5, and an engine whose
    [optimize] raises. *)
Definition sentinel_env : Env :=
  {| SCRIPT_DIR := "/bench";
     path_exists := fun _ => true;
     perf_counter := perf_counter sample_env;
     respond := fun l c =>
       match c with
       | Execute _ _ => Some 5
       | _ => Some (100 + Z.of_nat (length l))
       end;
     duckdb_version := "1.1.0";
     polars_version := "1.9.0";
     OP_SUM := 1;
     OP_AVG := 2;
     OP_COUNT := 3;
     format_float := fun _ n d => pretty (n / d);
     format_thousands := pretty |}.

Definition failing_env : Env :=
  {| SCRIPT_DIR := "/bench";
     path_exists := fun _ => true;
     perf_counter := perf_counter sample_env;
     respond := fun l c =>
       match c with
       | Optimize _ _ => None
       | _ => Some (100 + Z.of_nat (length l))
       end;
     duckdb_version := "1.1.0";
     polars_version := "1.9.0";
     OP_SUM := 1;
     OP_AVG := 2;
     OP_COUNT := 3;
     format_float := fun _ n d => pretty (n / d);
     format_thousands := pretty |}.

(** The calls of a log, oldest first. *)
Definition calls_of (l : list Event) : list Call :=
  omap (fun e => match e with EvCall c _ => Some c | _ => None end) (rev l).

(** A small congruential generator in the place of the module [random],
    with integers for floats. *)
Definition sample_random : PyRandom :=
  {| rng := Z;
     float := Z;
     seed_state := fun n => n;
     randint := fun a b r => (a + r mod (b - a + 1), (r * 75 + 74) mod 65537);
     choice_index := fun n r =>
       (Z.to_nat (r mod Z.of_nat n), (r * 75 + 74) mod 65537);
     random := fun r => (r mod 100, (r * 75 + 74) mod 65537);
     uniform := fun a b r => (a + r mod (b - a), (r * 75 + 74) mod 65537);
     lt_half := fun x => x <? 50;
     round6 := fun x => x;
     repr := pretty |}.


(** What the adapters store under the name of an engine, if anything, is
    a dictionary of medians. *)
Definition medians_or_absent (rs : gmap string Entry) (engine : string) : Prop :=
  rs !! engine = None ∨ ∃ res, rs !! engine = Some (EMedians res).

(** ** Postconditions used in the proofs *)

Definition returned {A} (o : Outcome A) : bool :=
  match o with Ok _ => true | Raise _ => false end.

(** The graph [g] is the one being built or executed. *)
Definition open_graph (g : Z) (p : Plan) : Prop :=
  match p with
  | Building g' | Failed g' | Ready g' _ _ => g' = g
  | _ => False
  end.

(** What the loops leave: the same root, and the executions counted. *)
Definition executed (g root : Z) (n : nat) (done : list nat) (o_ok : bool)
    (s' : State) : Prop :=
  ∃ k, planner (log s') = (Ready g root k, done) ∧ (o_ok = true → k = n).

(** A graph section: the plan is back to [NoGraph]; a section that
    returns has added its number of executions. *)
Definition planned (n : nat) (done : list nat) (o_ok : bool) (s' : State)
  : Prop :=
  ∃ ns, planner (log s') = (NoGraph, ns) ∧ (o_ok = true → ns = n :: done).

(** A graph [g] is live and nothing else. *)
Definition within (g : Z) (L : list (string * Z)) (Rl : list Z) (s : State)
  : Prop :=
  ∃ ts cols, borrows (log s) = Some (mkBorrows None [(g, ts)] cols L Rl).

(** No graph is live. *)
Definition between (L : list (string * Z)) (Rl : list Z) (s : State) : Prop :=
  ∃ cols, borrows (log s) = Some (mkBorrows None [] cols L Rl).

(** The end of a suite that returns: the three tables that were loaded
    are released, [y], [x], then the group-by table, right after the
    graph of the join is freed, and the symbol table and the arenas are
    destroyed last. *)
Definition torn_down (env : Env) (L : list (string * Z)) (Rl : list Z) (s' : State)
  : Prop :=
  ∃ tbl x y g cols r1 r2 r3 r4 r5 r6 l,
    borrows (log s') =
      Some (mkBorrows None [] cols
              ((CSV_JOIN_Y env, y) :: (CSV_JOIN_X env, x)
               :: (CSV_GROUPBY env, tbl) :: L)
              (tbl :: x :: y :: Rl))
    ∧ log s' =
        EvCall ArenaDestroyAll r1 :: EvCall SymDestroy r2
        :: EvCall (Release tbl) r3 :: EvCall (Release x) r4
        :: EvCall (Release y) r5 :: EvCall (GraphFree g) r6 :: l.

(** ** Predicates of the further properties *)

(** The samples strictly below [m], and those at most [m]. *)
Definition count_below (m : Z) (lst : list Z) : nat :=
  length (List.filter (fun x => x <? m) lst).

Definition count_at_most (m : Z) (lst : list Z) : nat :=
  length (List.filter (fun x => x <=? m) lst).

(** An event that a program may append to the log: a call that [ok] lets
    through, a reading of the clock or a printed line, and no dump of the
    results. *)
Definition kept (ok : Call → bool) (e : Event) : bool :=
  match e with
  | EvCall c _ => ok c
  | EvDump _ _ => false
  | _ => true
  end.

(** From [s] to [s'] the log only grew, by events that are [kept]. *)
Definition extends (ok : Call → bool) (s s' : State) : Prop :=
  ∃ evs, log s' = evs ++ log s ∧ Forall (fun e => kept ok e = true) evs.

(** A program that leaves [results] alone, appends kept events only,
    returns values in [P] and raises exceptions in [E]. *)
Definition confined {A} (ok : Call → bool) (E : Exn → Prop) (P : A → Prop)
    (m : M A) : Prop :=
  ∀ s, extends ok s (m s).2 ∧ results (m s).2 = results s
       ∧ match (m s).1 with Ok a => P a | Raise e => E e end.

Definition any_call (c : Call) : bool := true.

(** The calls that close an engine: the connection of DuckDB, the symbol
    table and the arenas of the native engine. *)
Definition is_destroy (c : Call) : bool :=
  match c with ConClose | SymDestroy | ArenaDestroyAll => true | _ => false end.

Definition no_destroy (c : Call) : bool := negb (is_destroy c).

(** The calls of the last lines of [bench_teide]. *)
Definition is_teardown (c : Call) : bool :=
  match c with Release _ | SymDestroy | ArenaDestroyAll => true | _ => false end.

(** A dictionary of medians with an entry for every query. *)
Definition complete (res : gmap string Z) : Prop :=
  Forall (fun q : string * string => is_Some (res !! q.2)) queries.

Definition raises_one_of {A} (o : Outcome A) (es : list Exn) : Prop :=
  ∃ e, o = Raise e ∧ e ∈ es.

(** The text of data rows. *)
Definition csv_text (R : PyRandom) (rows : list (list (Field R))) : string :=
  foldr (fun row text => csv_line R row +:+ text) "" rows.

Definition groupby_header (R : PyRandom) : list (Field R) :=
  [FStr R "id1"; FStr R "id2"; FStr R "id3"; FStr R "id4"; FStr R "id5";
   FStr R "id6"; FStr R "v1"; FStr R "v2"; FStr R "v3"].

(** A label [id001], ..., of a column of [hi] groups, or the empty field
    of an NA. *)
Definition label_of (w : nat) (hi : Z) (na : bool) (s : string) : Prop :=
  (na = true ∧ s = "") ∨ ∃ i, 1 ≤ i ≤ hi ∧ s = "id" +:+ format_0d w i.

(** A row of the group-by dataset: three labels, of which the first two
    may be NA when [na_pct] is positive, three integer keys in range and
    three values. *)
Definition group_row (R : PyRandom) (n_rows k na_pct : Z) (row : list (Field R))
  : Prop :=
  ∃ id1 id2 id3 id4 id5 id6 v1 v2 v3,
    row = [FStr R id1; FStr R id2; FStr R id3; FInt R id4; FInt R id5;
           FInt R id6; FInt R v1; FInt R v2; FFloat R v3]
    ∧ label_of 3 k (0 <? na_pct) id1
    ∧ label_of 3 k (0 <? na_pct) id2
    ∧ label_of 9 (Z.max (n_rows / k) k) false id3
    ∧ 1 ≤ id4 ≤ k ∧ 1 ≤ id5 ≤ k ∧ 1 ≤ id6 ≤ Z.max (n_rows / k) k.

(** A program of the generator that leaves the files alone, returns
    values in [P] and raises exceptions in [E]. *)
Definition draws {R : PyRandom} {A} (E : Exn → Prop) (P : A → Prop)
    (m : G R A) : Prop :=
  ∀ st, files R (m st).2 = files R st
        ∧ match (m st).1 with Ok a => P a | Raise e => E e end.

(** [random.choice] draws an index of the sequence. *)
Definition choice_in_range (R : PyRandom) : Prop :=
  ∀ n r, (0 < n)%nat → ((choice_index R n r).1 < n)%nat.

(** What a file holds while rows are appended to it: [text] followed by
    whole rows in [P]; the other files are those of [fs]. *)
Definition holds {R : PyRandom} (path text : string)
    (P : list (Field R) → Prop) (fs : gmap string string)
    (rows : list (list (Field R))) (st : GenState R) : Prop :=
  files R st = <[path := text +:+ csv_text R rows]> fs ∧ Forall P rows.

(** The row of index [i] of a join table, with the value [v]. *)
Definition join_row (R : PyRandom) (i : Z) (v : float R) : list (Field R) :=
  let key := i mod 100 + 1 in
  [FInt R key; FInt R key; FInt R key;
   FStr R ("id" +:+ format_0d 3 key); FStr R ("id" +:+ format_0d 3 key);
   FStr R ("id" +:+ format_0d 3 key); FFloat R (round6 R v)].

Definition join_header (R : PyRandom) (value : string) : list (Field R) :=
  [FStr R "id1"; FStr R "id2"; FStr R "id3"; FStr R "id4"; FStr R "id5";
   FStr R "id6"; FStr R value].

Definition is_digit (c : Ascii.ascii) : bool :=
  let n := Ascii.nat_of_ascii c in ((48 <=? n) && (n <=? 57))%nat.

Fixpoint all_digits (s : string) : bool :=
  match s with
  | EmptyString => true
  | String c s' => is_digit c && all_digits s'
  end.

(** The values [n] calls of [random.uniform(0, 100)] draw from a state of
    the generator, and the state they leave. *)
Fixpoint uniform_draws (R : PyRandom) (n : nat) (r : rng R)
  : list (float R) * rng R :=
  match n with
  | O => ([], r)
  | S n' =>
      let '(v, r1) := uniform R 0 100 r in
      let '(vs, r2) := uniform_draws R n' r1 in
      (v :: vs, r2)
  end.

(** The rows [count] iterations draw from a state of [random], how the
    drawing ends and the state it leaves. *)
Fixpoint drawn_rows (R : PyRandom) (count : nat) (n k : Z) (r : rng R)
  : list (list (Field R)) * (unit + PyExn) * rng R :=
  match count with
  | O => ([], inl tt, r)
  | S count' =>
      match draw_join_row R n k (mkGenState R r ∅) with
      | (inl row, st1) =>
          let '(rows, o, r2) := drawn_rows R count' n k (random_state R st1) in
          (row :: rows, o, r2)
      | (inr e, st1) => ([], inr e, random_state R st1)
      end
  end.

(** A program that reads and moves the state of [random] and nothing
    else. *)
Definition only_draws {R : PyRandom} {A} (m : J R A) : Prop :=
  ∀ st, m st = ((m (mkGenState R (random_state R st) ∅)).1,
                mkGenState R
                  (random_state R (m (mkGenState R (random_state R st) ∅)).2)
                  (files R st)).

(** An environment in which DuckDB cannot connect. *)
Definition offline_env : Env :=
  {| SCRIPT_DIR := "/bench";
     path_exists := fun _ => true;
     perf_counter := perf_counter sample_env;
     respond := fun l c =>
       match c with
       | DuckConnect => None
       | _ => Some (100 + Z.of_nat (length l))
       end;
     duckdb_version := "1.1.0";
     polars_version := "1.9.0";
     OP_SUM := 1;
     OP_AVG := 2;
     OP_COUNT := 3;
     format_float := fun _ n d => pretty (n / d);
     format_thousands := pretty |}.

Arguments meter : simpl never.
Arguments handles : simpl never.
Arguments planner : simpl never.
Arguments borrows : simpl never.

(** * Properties *)

(** ** Sorting *)

Lemma insert_sorted_Permutation x s : insert_sorted x s ≡ₚ x :: s.
Proof.
  induction s as [|y s IH]; simpl; [done|].
  destruct (x <? y); [done|].
  rewrite IH. apply Permutation_swap.
Qed.

Lemma insert_sorted_Sorted x s : Sorted Z.le s → Sorted Z.le (insert_sorted x s).
Proof.
  induction s as [|y s IH]; simpl; intros Hs.
  - by repeat constructor.
  - destruct (Z.ltb_spec x y) as [Hlt|Hge].
    + constructor; [done|]. constructor. lia.
    + apply Sorted_inv in Hs as [Hs Hhd].
      constructor; [by apply IH|].
      destruct s as [|z s]; simpl.
      * constructor. lia.
      * destruct (x <? z); constructor; [lia|].
        by apply HdRel_inv in Hhd.
Qed.

Lemma fold_insert_Permutation lst acc :
  fold_left (fun s x => insert_sorted x s) lst acc ≡ₚ lst ++ acc.
Proof.
  revert acc. induction lst as [|x lst IH]; intros acc; simpl; [done|].
  rewrite IH, insert_sorted_Permutation.
  by rewrite Permutation_middle.
Qed.

Lemma fold_insert_Sorted lst acc :
  Sorted Z.le acc → Sorted Z.le (fold_left (fun s x => insert_sorted x s) lst acc).
Proof.
  revert acc. induction lst as [|x lst IH]; intros acc Hacc; simpl; [done|].
  by apply IH, insert_sorted_Sorted.
Qed.

Lemma sorted_Permutation lst : sorted lst ≡ₚ lst.
Proof. unfold sorted. by rewrite fold_insert_Permutation, app_nil_r. Qed.

Lemma sorted_Sorted lst : Sorted Z.le (sorted lst).
Proof. apply fold_insert_Sorted. constructor. Qed.

Lemma sorted_length lst : length (sorted lst) = length lst.
Proof. by rewrite sorted_Permutation. Qed.

(** [sorted lst] is the one ascending arrangement of [lst]. *)
Lemma sorted_unique lst s : Sorted Z.le s → s ≡ₚ lst → sorted lst = s.
Proof.
  intros Hs Hp. apply (Sorted_unique Z.le); [apply sorted_Sorted|done|].
  by rewrite sorted_Permutation, Hp.
Qed.

Lemma median_lookup lst :
  median lst = py_index (sorted lst) (length lst / 2)%nat.
Proof. unfold median. by rewrite sorted_length. Qed.

(** ** C1 *)

(** C1, as the specification states it, fails: on the four samples
    4, 1, 3, 2 the specification announces 2, the lower of the two middle
    elements, and [median] returns 3, the upper one. *)
Lemma median_even_counterexample :
  median [4; 1; 3; 2] = Ok 3 ∧ median [4; 1; 3; 2] ≠ Ok 2
  ∧ sorted [4; 1; 3; 2] !! 1%nat = Some 2.
Proof. by vm_compute. Qed.

(** C1 (amended): for every non-empty sequence of samples, [median]
    returns the element of index [len // 2] of the ascending arrangement
    [s] of the samples: the exact middle one when the count [2k+1] is odd
    and the upper of the two middle ones, [s[k]] and not [s[k-1]], when the
    count [2k] is even; 3, 1, 2 gives 2 and 4, 1, 3, 2 gives 3. *)
Theorem median_upper_middle (lst s : list Z) (k : nat) :
  lst ≠ [] → Sorted Z.le s → s ≡ₚ lst →
  (∃ m, median lst = Ok m ∧ s !! (length lst / 2)%nat = Some m ∧ m ∈ lst)
  ∧ (length lst = (2 * k + 1)%nat → ∃ m, median lst = Ok m ∧ s !! k = Some m)
  ∧ (length lst = (2 * k)%nat →
     ∃ lo m, s !! (k - 1)%nat = Some lo ∧ s !! k = Some m
             ∧ median lst = Ok m ∧ lo ≤ m)
  ∧ median [3; 1; 2] = Ok 2 ∧ median [4; 1; 3; 2] = Ok 3.
Proof.
  intros Hne Hs Hp.
  assert (Hlen : length s = length lst) by by rewrite Hp.
  assert (Hpos : (0 < length lst)%nat) by (destruct lst; [done|simpl; lia]).
  assert (Hmed : ∀ i m, (length lst / 2)%nat = i → s !! i = Some m →
                        median lst = Ok m).
  { intros i m <- Hi. rewrite median_lookup, (sorted_unique lst s) by done.
    unfold py_index. by rewrite Hi. }
  assert (Hsome : ∀ i, (i < length lst)%nat → ∃ m, s !! i = Some m).
  { intros i Hi. apply lookup_lt_is_Some. lia. }
  repeat split.
  - destruct (Hsome (length lst / 2)%nat) as [m Hm].
    { apply Nat.div_lt; lia. }
    exists m. split_and!; [by eapply Hmed|done|].
    rewrite <- Hp. by eapply list_elem_of_lookup_2.
  - intros Hk. destruct (Hsome k) as [m Hm]; [lia|].
    exists m. split; [|done]. apply (Hmed k); [|done].
    rewrite Hk. symmetry. apply (Nat.div_unique _ 2 k 1); lia.
  - intros Hk. destruct (Hsome (k - 1)%nat) as [lo Hlo]; [lia|].
    destruct (Hsome k) as [m Hm]; [lia|].
    exists lo, m. split_and!; [done|done| |].
    + apply (Hmed k); [|done].
      rewrite Hk. symmetry. apply (Nat.div_unique _ 2 k 0); lia.
    + apply (Sorted_StronglySorted Z.le) in Hs.
      assert (k = S (k - 1))%nat as Hk' by lia.
      rewrite Hk' in Hm.
      clear -Hs Hlo Hm. revert Hlo Hm. generalize (k - 1)%nat as i.
      induction Hs as [|x s Hs IH Hall]; intros i Hlo Hm; [done|].
      destruct i as [|i]; simpl in *.
      * injection Hlo as ->. rewrite Forall_forall in Hall.
        apply Hall. by eapply list_elem_of_lookup_2.
      * by eapply IH.
Qed.

(** ** A weakest-precondition calculus for the harness *)

Section Calculus.

Variable env : Env.

Lemma wp_mono {A} (m : M A) (Q Q' : Outcome A → State → Prop) s :
  wp m Q s → (∀ o s', Q o s' → Q' o s') → wp m Q' s.
Proof. unfold wp. auto. Qed.

Lemma wp_ret {A} (a : A) Q s : Q (Ok a) s → wp (ret a) Q s.
Proof. done. Qed.

Lemma wp_raise {A} e (Q : Outcome A → State → Prop) s :
  Q (Raise e) s → wp (raise e) Q s.
Proof. done. Qed.

Lemma wp_lift {A} (o : Outcome A) Q s : Q o s → wp (lift o) Q s.
Proof. done. Qed.

Lemma wp_bind {A B} (m : M A) (k : A → M B) Q s :
  wp m (after (fun a => wp (k a) Q) Q) s → wp (bind m k) Q s.
Proof.
  unfold wp, bind, after. destruct (m s) as [[a|e] s1]; simpl; auto.
Qed.

Lemma wp_emit e Q s :
  Q (Ok tt) (mkState (e :: log s) (results s)) → wp (emit e) Q s.
Proof. done. Qed.

Lemma wp_print line Q s :
  Q (Ok tt) (mkState (EvPrint line :: log s) (results s)) →
  wp (print line) Q s.
Proof. done. Qed.

Lemma wp_call c Q s :
  (∀ v, Q (Ok v) (mkState (EvCall c (Some v) :: log s) (results s))) →
  Q (Raise EngineError) (mkState (EvCall c None :: log s) (results s)) →
  wp (call env c) Q s.
Proof.
  intros Hok Herr. unfold wp, call. destruct (respond env (log s) c); simpl; auto.
Qed.

Lemma wp_call_ c Q s :
  Q (Ok tt) (mkState (EvCall c (respond env (log s) c) :: log s) (results s)) →
  Q (Raise EngineError) (mkState (EvCall c None :: log s) (results s)) →
  wp (call_ env c) Q s.
Proof.
  intros Hok Herr. unfold wp, call_, bind, call.
  destruct (respond env (log s) c); simpl; auto.
Qed.

Lemma wp_clock Q s :
  (∀ t, Q (Ok t) (mkState (EvClock t :: log s) (results s))) →
  wp (time_perf_counter env) Q s.
Proof. intros H. apply H. Qed.

Lemma wp_set_result k v Q s :
  Q (Ok tt) (mkState (log s) (<[k := v]> (results s))) →
  wp (set_result k v) Q s.
Proof. done. Qed.

Lemma wp_get_results Q s : Q (Ok (results s)) s → wp get_results Q s.
Proof. done. Qed.

Lemma wp_try_finally {A} (body : M A) handler Q s :
  wp body (fun o s1 =>
    wp handler (fun o' s2 =>
      Q (match o' with Ok _ => o | Raise e' => Raise e' end) s2) s1) s →
  wp (try_finally body handler) Q s.
Proof.
  unfold wp, try_finally.
  destruct (body s) as [[a|e] s1]; simpl;
    destruct (handler s1) as [[[]|e'] s2]; simpl; auto.
Qed.

(** Loops, with an invariant indexed by the number of iterations done. *)
Lemma wp_repeat_m n body (I : nat → State → Prop) Q s :
  I O s →
  (∀ i s, (i < n)%nat → I i s →
          wp body (after (fun _ s' => I (S i) s') Q) s) →
  (∀ s, I n s → Q (Ok tt) s) →
  wp (repeat_m n body) Q s.
Proof.
  revert I s. induction n as [|n IH]; intros I s H0 Hbody Hend; simpl.
  - by apply wp_ret, Hend.
  - apply wp_bind. eapply wp_mono; [apply (Hbody O); [lia|done]|].
    intros [[]|e] s'; simpl; [|done]. intros H1.
    apply (IH (fun i => I (S i))); [done| |done].
    intros i s'' Hi. apply Hbody. lia.
Qed.

Lemma wp_for_range n body (I : nat → State → Prop) Q s :
  I O s →
  (∀ i s, (i < Z.to_nat n)%nat → I i s →
          wp body (after (fun _ s' => I (S i) s') Q) s) →
  (∀ s, I (Z.to_nat n) s → Q (Ok tt) s) →
  wp (for_range n body) Q s.
Proof. apply wp_repeat_m. Qed.

Lemma wp_iterate_m {A} n (body : A → M A) (I : nat → A → State → Prop) Q a s :
  I O a s →
  (∀ i a s, (i < n)%nat → I i a s →
            wp (body a) (after (fun a' s' => I (S i) a' s') Q) s) →
  (∀ a s, I n a s → Q (Ok a) s) →
  wp (iterate_m n body a) Q s.
Proof.
  revert I a s. induction n as [|n IH]; intros I a s H0 Hbody Hend; simpl.
  - by apply wp_ret, Hend.
  - apply wp_bind. eapply wp_mono; [apply (Hbody O); [lia|done]|].
    intros [a'|e] s'; simpl; [|done]. intros H1.
    apply (IH (fun i => I (S i))); [done| |done].
    intros i a'' s'' Hi. apply Hbody. lia.
Qed.

(** A list comprehension whose calls keep an invariant of the state. *)
Lemma wp_map_m {A B} (f : A → M B) xs (I : State → Prop) Q s :
  I s →
  (∀ x s, I s → wp (f x) (fun _ s' => I s') s) →
  (∀ o s', I s' → Q o s') →
  wp (map_m f xs) Q s.
Proof.
  intros H0 Hf HQ. eapply wp_mono; [|apply HQ]. clear HQ Q.
  revert s H0. induction xs as [|x xs IH]; intros s H0; simpl; [done|].
  apply wp_bind. eapply wp_mono; [by apply Hf|].
  intros [y|e] s1 H1; simpl; [|done].
  apply wp_bind. eapply wp_mono; [by apply IH|].
  by intros [ys|e] s2 H2.
Qed.

End Calculus.

Ltac wp_simpl := cbn [after log results fst snd].

(** Closes the goal left by a step that raised, when the postcondition
    only speaks of runs that return. *)
Ltac wp_raised := by (wp_simpl; intros ? [=]).

(** ** The timing observer *)

Section Timing.

Variable env : Env.

Lemma meter_cons e l : meter (e :: l) = meter_step e (meter l).
Proof. done. Qed.

Lemma settle_resting p rs : resting p → settle p rs = rs.
Proof. by destruct p. Qed.

Lemma meter_step_clock t p rs R :
  resting p → meter_step (EvClock t) (mkMeter p rs R) = mkMeter (Armed t) rs R.
Proof. by destruct p. Qed.

Lemma meter_step_stop t t0 rs R :
  meter_step (EvClock t) (mkMeter (Running t0) rs R)
  = mkMeter (Armed t) (Timed (elapsed_ms t0 t) :: rs) R.
Proof. done. Qed.

Lemma meter_step_start c ret t0 rs R :
  is_thunk c = true →
  meter_step (EvCall c ret) (mkMeter (Armed t0) rs R) = mkMeter (Running t0) rs R.
Proof. intros H. simpl. by rewrite H. Qed.

Lemma meter_step_untimed c ret rs R :
  is_thunk c = true →
  meter_step (EvCall c ret) (mkMeter Idle rs R) = mkMeter Idle (Untimed :: rs) R.
Proof. intros H. simpl. by rewrite H. Qed.

Lemma meter_step_other c ret p rs R :
  is_thunk c = false → resting p →
  meter_step (EvCall c ret) (mkMeter p rs R) = mkMeter Idle rs R.
Proof. intros H Hp. simpl. rewrite H. by destruct p. Qed.

Lemma meter_step_print line p rs R :
  resting p → rs ≠ [] →
  meter_step (EvPrint line) (mkMeter p rs R)
  = mkMeter Idle [] ((line, rev rs) :: R).
Proof. intros Hp Hrs. simpl. rewrite settle_resting by done. by destruct rs. Qed.

Lemma meter_step_print_nil line p R :
  resting p → meter_step (EvPrint line) (mkMeter p [] R) = mkMeter Idle [] R.
Proof. intros Hp. simpl. by rewrite settle_resting. Qed.

Lemma meter_step_dump path doc p rs R :
  resting p → meter_step (EvDump path doc) (mkMeter p rs R) = mkMeter Idle rs R.
Proof. intros Hp. simpl. by rewrite settle_resting. Qed.

Lemma protocol_runs_rev w times :
  rev (rev (Timed <$> times) ++ replicate w Untimed) = protocol_runs w times.
Proof.
  unfold protocol_runs. rewrite rev_app_distr, rev_involutive. f_equal.
  induction w as [|w IH]; simpl; [done|].
  rewrite IH. clear IH. induction w as [|w IH]; simpl; [done|]. by rewrite IH.
Qed.

Lemma warmed_up_not_nil times :
  rev (Timed <$> times) ++ replicate (Z.to_nat N_WARMUP) Untimed ≠ [].
Proof.
  intros E. apply (f_equal length) in E. rewrite length_app in E.
  simpl in E. lia.
Qed.

Lemma measuring_next R i times s t0 t1 c ret :
  measuring R i times s → is_thunk c = true →
  measuring R (S i) (times ++ [elapsed_ms t0 t1])
    (mkState (EvClock t1 :: EvCall c ret :: EvClock t0 :: log s) (results s)).
Proof.
  intros (Hlen & p & Hp & Hs) Hc. split.
  - rewrite length_app. simpl. lia.
  - exists (Armed t1). split; [done|]. cbn [log].
    rewrite !meter_cons, Hs, meter_step_clock, meter_step_start,
      meter_step_stop by done.
    by rewrite fmap_app, rev_app_distr.
Qed.

Lemma measuring_report R i times s label ms l :
  measuring R i times s → median times = Ok ms →
  meter l = meter (log s) ∨ (∃ c ret, l = EvCall c ret :: log s
                                      ∧ is_thunk c = false) →
  meter (EvPrint (query_line env label ms) :: l)
  = mkMeter Idle [] ((query_line env label ms,
                      protocol_runs (Z.to_nat N_WARMUP) times) :: R).
Proof.
  intros (Hlen & p & Hp & Hs) Hmed Hl.
  assert (∃ p', resting p' ∧ meter l = mkMeter p'
     (rev (Timed <$> times) ++ replicate (Z.to_nat N_WARMUP) Untimed) R)
    as (p' & Hp' & Hl').
  { destruct Hl as [->|(c & ret & -> & Hc)]; [by exists p|].
    exists Idle. split; [done|].
    by rewrite meter_cons, Hs, meter_step_other. }
  rewrite meter_cons, Hl', meter_step_print; [|done|apply warmed_up_not_nil].
  by rewrite protocol_runs_rev.
Qed.

(** *** DuckDB *)

Lemma meter_bench_duckdb_run label sql n_iter R s :
  meter (log s) = mkMeter Idle [] R →
  wp (bench_duckdb_run env label sql n_iter)
     (fun o s' => ∀ ms, o = Ok ms → measured env label n_iter ms R s') s.
Proof.
  intros Hs. unfold bench_duckdb_run.
  apply wp_bind.
  apply (wp_for_range _ _
    (fun i s => meter (log s) = mkMeter Idle (replicate i Untimed) R));
    [done| |].
  { clear s Hs. intros i s _ Hs. unfold duckdb_thunk.
    apply wp_call_; [|wp_raised]. wp_simpl.
    by rewrite meter_cons, Hs, meter_step_untimed. }
  clear s Hs. intros s Hs. wp_simpl.
  apply wp_bind, (wp_iterate_m _ _ (measuring R)).
  { split; [done|]. by exists Idle. }
  { clear s Hs. intros i times s _ Hs.
    apply wp_bind, wp_clock. intros t0. wp_simpl.
    apply wp_bind. unfold duckdb_thunk. apply wp_call_; [|wp_raised]. wp_simpl.
    apply wp_bind, wp_clock. intros t1. wp_simpl.
    apply wp_ret. wp_simpl. by apply measuring_next. }
  clear s Hs. intros times s Hs. wp_simpl.
  apply wp_bind, wp_call_; [|wp_raised]. wp_simpl.
  apply wp_bind, wp_lift.
  destruct (median times) as [ms|e] eqn:Hmed; [|wp_raised]. wp_simpl.
  apply wp_bind, wp_print. wp_simpl.
  apply wp_ret. intros ms' [= <-]. exists times.
  split_and!; [apply Hs|done|]. cbn [log].
  eapply measuring_report; [done|done|]. right. by eexists _, _.
Qed.

(** *** Polars *)

Lemma meter_polars_measure c n_iter R s :
  is_thunk c = true →
  meter (log s) = mkMeter Idle [] R →
  wp (polars_measure env (call env c) n_iter)
     (fun o s' => ∀ ms, o = Ok ms →
        ∃ times, median times = Ok ms ∧ measuring R (Z.to_nat n_iter) times s')
     s.
Proof.
  intros Hc Hs. unfold polars_measure.
  apply wp_bind.
  apply (wp_for_range _ _
    (fun i s => meter (log s) = mkMeter Idle (replicate i Untimed) R));
    [done| |].
  { clear s Hs. intros i s _ Hs.
    apply wp_bind, wp_call; [intros v|wp_raised]. wp_simpl.
    apply wp_ret. wp_simpl.
    by rewrite meter_cons, Hs, meter_step_untimed. }
  clear s Hs. intros s Hs. wp_simpl.
  apply wp_bind, (wp_iterate_m _ _ (measuring R)).
  { split; [done|]. by exists Idle. }
  { clear s Hs. intros i times s _ Hs.
    apply wp_bind, wp_clock. intros t0. wp_simpl.
    apply wp_bind, wp_call; [intros v|wp_raised]. wp_simpl.
    apply wp_bind, wp_clock. intros t1. wp_simpl.
    apply wp_ret. wp_simpl. by apply measuring_next. }
  clear s Hs. intros times s Hs. wp_simpl.
  apply wp_lift. intros ms Hmed. by exists times.
Qed.

Lemma meter_query_line label n_iter ms times R s :
  median times = Ok ms → measuring R (Z.to_nat n_iter) times s →
  wp (print_query_line env label ms)
     (fun _ s' => measured env label n_iter ms R s') s.
Proof.
  intros Hmed Hs. apply wp_print. exists times.
  split_and!; [apply Hs|done|]. cbn [log].
  eapply measuring_report; [done|done|]. by left.
Qed.

Lemma meter_bench_polars_run df label c n_iter R s :
  is_thunk (c df) = true →
  meter (log s) = mkMeter Idle [] R →
  wp (bench_polars_run env df label (fun d => call env (c d)) n_iter)
     (fun o s' => ∀ ms, o = Ok ms → measured env label n_iter ms R s') s.
Proof.
  intros Hc Hs. unfold bench_polars_run.
  apply wp_bind. eapply wp_mono; [by apply meter_polars_measure|].
  intros [ms|e] s1 H1; [|wp_raised]. wp_simpl.
  destruct (H1 ms eq_refl) as (times & Hmed & Hm).
  apply wp_bind. eapply wp_mono; [by eapply meter_query_line|].
  intros [[]|e] s2 H2; [|wp_raised]. wp_simpl.
  apply wp_ret. by intros ? [= <-].
Qed.

(** *** Teide *)

Lemma quiet_idle R s : meter (log s) = mkMeter Idle [] R → quiet R s.
Proof. by exists Idle. Qed.

Lemma meter_other c ret p rs R s :
  meter (log s) = mkMeter p rs R → resting p → is_thunk c = false →
  meter (log (mkState (EvCall c ret :: log s) (results s))) = mkMeter Idle rs R.
Proof. intros Hs Hp Hc. cbn [log]. by rewrite meter_cons, Hs, meter_step_other. Qed.

Lemma wp_call_other c p rs R Q s :
  meter (log s) = mkMeter p rs R → resting p → is_thunk c = false →
  (∀ o s', meter (log s') = mkMeter Idle rs R → Q o s') →
  wp (call env c) Q s.
Proof.
  intros Hs Hp Hc HQ. apply wp_call; [intros v|]; apply HQ;
    by eapply meter_other.
Qed.

Lemma meter_release_if_owned r p rs R Q s :
  meter (log s) = mkMeter p rs R → resting p →
  (∀ o s' p', p' = p ∨ p' = Idle → meter (log s') = mkMeter p' rs R → Q o s') →
  wp (release_if_owned env r) Q s.
Proof.
  intros Hs Hp HQ. unfold release_if_owned. destruct (owned r).
  - apply wp_call_; apply (HQ _ _ Idle); try (by right); by eapply meter_other.
  - apply wp_ret, (HQ _ _ p); [by left|done].
Qed.

Lemma meter_teide_warmup g root R s :
  meter (log s) = mkMeter Idle [] R →
  wp (teide_warmup env g root)
     (fun o s' => o = Ok tt → measuring R O [] s') s.
Proof.
  intros Hs. unfold teide_warmup.
  apply (wp_for_range _ _
    (fun i s => meter (log s) = mkMeter Idle (replicate i Untimed) R));
    [done| |].
  { clear s Hs. intros i s _ Hs.
    apply wp_bind, wp_call; [intros r|done]. wp_simpl.
    eapply meter_release_if_owned.
    - cbn [log]. by rewrite meter_cons, Hs, meter_step_untimed.
    - done.
    - intros [[]|e] s' p' Hp' Hs'; [|done]. wp_simpl.
      by destruct Hp' as [->| ->]. }
  intros s' Hs' _. split; [done|]. by exists Idle.
Qed.

Lemma meter_teide_measure g root n_iter R s :
  measuring R O [] s →
  wp (teide_measure env g root n_iter)
     (fun o s' => ∀ times, o = Ok times →
                           measuring R (Z.to_nat n_iter) times s') s.
Proof.
  intros Hs. unfold teide_measure.
  apply (wp_iterate_m _ _ (measuring R)); [done| |by intros ??? ? [= <-]].
  clear s Hs. intros i times s _ Hs.
  apply wp_bind, wp_clock. intros t0. wp_simpl.
  apply wp_bind, wp_call; [intros r|wp_raised]. wp_simpl.
  apply wp_bind, wp_clock. intros t1. wp_simpl.
  pose proof (measuring_next R i times s t0 t1 (Execute g root) (Some r) Hs
                eq_refl) as (Hlen & p & Hp & Hm).
  apply wp_bind. eapply meter_release_if_owned; [exact Hm|done|].
  intros [[]|e] s' p' Hp' Hs'; [|wp_raised]. wp_simpl.
  apply wp_ret. split; [done|]. exists p'. split; [|done].
  by destruct Hp' as [->| ->].
Qed.

(** *** The three suites *)

Lemma wp_call_quiet c R Q s :
  quiet R s → is_thunk c = false →
  (∀ o s', meter (log s') = mkMeter Idle [] R → Q o s') →
  wp (call env c) Q s.
Proof. intros (p & Hp & Hs) Hc HQ. by eapply wp_call_other. Qed.

Lemma wp_call__quiet c R Q s :
  quiet R s → is_thunk c = false →
  (∀ o s', meter (log s') = mkMeter Idle [] R → Q o s') →
  wp (call_ env c) Q s.
Proof.
  intros (p & Hp & Hs) Hc HQ. apply wp_call_; apply HQ; by eapply meter_other.
Qed.

Lemma wp_print_quiet line R Q s :
  quiet R s →
  (∀ s', meter (log s') = mkMeter Idle [] R → Q (Ok tt) s') →
  wp (print line) Q s.
Proof.
  intros (p & Hp & Hs) HQ. apply wp_print, HQ. cbn [log].
  by rewrite meter_cons, Hs, meter_step_print_nil.
Qed.

Lemma wp_clock_quiet R Q s :
  quiet R s →
  (∀ t s', quiet R s' → Q (Ok t) s') →
  wp (time_perf_counter env) Q s.
Proof.
  intros (p & Hp & Hs) HQ. apply wp_clock. intros t. apply HQ.
  exists (Armed t). split; [done|]. cbn [log].
  by rewrite meter_cons, Hs, meter_step_clock.
Qed.

Lemma wp_map_m_quiet {A B} (f : A → M B) xs R Q s :
  quiet R s →
  (∀ x s, quiet R s → wp (f x) (fun _ s' => quiet R s') s) →
  (∀ o s', quiet R s' → Q o s') →
  wp (map_m f xs) Q s.
Proof. apply wp_map_m. Qed.

Ltac wp_failed :=
  wp_simpl; solve [ intros ? [=] | eauto using quiet_idle ].

Ltac quiet_step :=
  lazymatch goal with
  | |- wp (bind (teide_warmup _ _ _) _) _ _ => fail
  | |- wp (bind _ _) _ _ => apply wp_bind
  | |- wp (call _ _) _ _ =>
      eapply wp_call_quiet;
      [eauto using quiet_idle | reflexivity
      | intros [?|?] ? ?; [|wp_failed]; wp_simpl]
  | |- wp (call_ _ _) _ _ =>
      eapply wp_call__quiet;
      [eauto using quiet_idle | reflexivity
      | intros [[]|?] ? ?; [|wp_failed]; wp_simpl]
  | |- wp (print _) _ _ =>
      eapply wp_print_quiet;
      [eauto using quiet_idle | intros ? ?; wp_simpl]
  | |- wp (time_perf_counter _) _ _ =>
      eapply wp_clock_quiet;
      [eauto using quiet_idle | intros ? ? ?; wp_simpl]
  | |- wp (set_result _ _) _ _ => apply wp_set_result; wp_simpl
  | |- wp (lift ?o) _ _ =>
      apply wp_lift; destruct o as [?|?]; [|wp_failed]; wp_simpl
  | |- wp (map_m _ _) _ _ =>
      eapply wp_map_m_quiet;
      [eauto using quiet_idle
      | let x := fresh "x" in let s := fresh "s" in let H := fresh "H" in
        intros x s H; repeat quiet_step; eauto using quiet_idle
      | intros [?|?] ? ?; [|wp_failed]; wp_simpl]
  end.

Ltac measured_step lem :=
  eapply wp_mono;
  [ eapply lem; try reflexivity; eauto using quiet_idle
  | let H := fresh "H" in
    intros [?|?] ? H; [|wp_raised]; wp_simpl;
    destruct (H _ eq_refl) as (? & ? & ? & ?); clear H ].

Lemma count_untimed_protocol w samples :
  count_untimed (protocol_runs w samples) = w.
Proof.
  unfold count_untimed, protocol_runs. rewrite List.filter_app, length_app.
  assert (List.filter (fun r => negb (is_timed r)) (Timed <$> samples) = [])
    as -> by (induction samples; done).
  assert (List.filter (fun r => negb (is_timed r)) (replicate w Untimed)
          = replicate w Untimed) as ->.
  { induction w as [|w IH]; [done|].
    cbn [replicate List.filter is_timed negb]. by f_equal. }
  rewrite length_replicate. simpl. lia.
Qed.

Lemma count_timed_protocol w samples :
  count_timed (protocol_runs w samples) = length samples.
Proof.
  unfold count_timed, protocol_runs. rewrite List.filter_app, length_app.
  assert (List.filter is_timed (replicate w Untimed) = []) as ->
    by (induction w; done).
  assert (List.filter is_timed (Timed <$> samples) = Timed <$> samples) as ->.
  { induction samples as [|x l IH]; [done|].
    cbn [fmap list_fmap List.filter is_timed]. by f_equal. }
  by rewrite length_fmap.
Qed.

Ltac suite_done :=
  apply wp_ret; intros ? [= <-];
  eexists [_; _; _; _; _; _; _; _]; split;
  [ cbn [log rev app]; eassumption
  | repeat (constructor;
      [ eexists _, _; split_and!;
        [ by simplify_map_eq
        |
        | eassumption
        | reflexivity
        | reflexivity
        | exact (count_untimed_protocol _ _)
        | ];
        rewrite ?count_timed_protocol;
        match goal with H : length ?x = _ |- length ?x = _ => exact H end
      | ]);
    constructor ].

(** The lines shared by [run_groupby], [run_sort] and the join, from the
    warm-up to the printed line. *)
Lemma meter_teide_query {A} (f : Z → A) g root label n_iter R s :
  meter (log s) = mkMeter Idle [] R →
  wp (teide_warmup env g root ;;
      times <- teide_measure env g root n_iter ;;
      ms <- lift (median times) ;;
      print_query_line env label ms ;;
      ret (f ms))
     (fun o s' => ∀ a, o = Ok a →
                       ∃ ms, a = f ms ∧ measured env label n_iter ms R s') s.
Proof.
  intros Hs.
  apply wp_bind. eapply wp_mono; [by apply meter_teide_warmup|].
  intros [[]|e] s1 H1; [|wp_raised]. wp_simpl.
  apply wp_bind. eapply wp_mono; [by apply meter_teide_measure, H1|].
  intros [times|e] s2 H2; [|wp_raised]. wp_simpl.
  apply wp_bind, wp_lift.
  destruct (median times) as [ms|e] eqn:Hmed; [|wp_raised]. wp_simpl.
  apply wp_bind. eapply wp_mono; [eapply meter_query_line; eauto|].
  intros [[]|e] s3 H3; [|wp_raised]. wp_simpl.
  apply wp_ret. intros ? [= <-]. by exists ms.
Qed.

(** A property of the runs that return, kept by [graph_free], holds
    after [try: body finally: lib.graph_free(g)] when it holds after
    [body]. *)
Lemma wp_graph_section {A} g (body : M A) (P : A → State → Prop) s :
  (∀ a s ret, P a s →
              P a (mkState (EvCall (GraphFree g) ret :: log s) (results s))) →
  wp body (fun o s' => ∀ a, o = Ok a → P a s') s →
  wp (try_finally body (call_ env (GraphFree g)))
     (fun o s' => ∀ a, o = Ok a → P a s') s.
Proof.
  intros Hfree Hbody. apply wp_try_finally. eapply wp_mono; [exact Hbody|].
  intros o s' Ho. apply wp_call_; [|by intros ? [=]].
  intros a ->. by apply Hfree, Ho.
Qed.

Lemma measured_graph_free label n_iter ms R s g ret :
  measured env label n_iter ms R s →
  measured env label n_iter ms R
    (mkState (EvCall (GraphFree g) ret :: log s) (results s)).
Proof.
  intros (times & Hlen & Hmed & Hs). exists times. split_and!; [done..|].
  by eapply meter_other.
Qed.

Lemma measured_graph_free_ex {A} (f : Z → A) label n_iter R a s g ret :
  (∃ ms, a = f ms ∧ measured env label n_iter ms R s) →
  ∃ ms, a = f ms ∧ measured env label n_iter ms R
    (mkState (EvCall (GraphFree g) ret :: log s) (results s)).
Proof.
  intros (ms & -> & Hm). exists ms. split; [done|].
  by apply measured_graph_free.
Qed.

Lemma meter_run_groupby tbl label key_names agg_ops agg_col_names n_iter R s :
  quiet R s →
  wp (run_groupby env tbl label key_names agg_ops agg_col_names n_iter)
     (fun o s' => ∀ ms, o = Ok ms → measured env label n_iter ms R s') s.
Proof.
  intros Hs. unfold run_groupby. do 2 quiet_step.
  eapply wp_mono;
    [apply (wp_graph_section _ _ (fun a s' =>
       ∃ ms, a = ms ∧ measured env label n_iter ms R s'))|].
  - intros. by apply (measured_graph_free_ex (fun ms => ms)).
  - repeat quiet_step. by apply (meter_teide_query (fun ms => ms)).
  - intros o sf Hf ms ->. by destruct (Hf ms eq_refl) as (? & <- & ?).
Qed.

Lemma meter_run_sort tbl label col_names descs n_iter R s :
  quiet R s →
  wp (run_sort env tbl label col_names descs n_iter)
     (fun o s' => ∀ ms, o = Ok ms → measured env label n_iter ms R s') s.
Proof.
  intros Hs. unfold run_sort. do 2 quiet_step.
  eapply wp_mono;
    [apply (wp_graph_section _ _ (fun a s' =>
       ∃ ms, a = ms ∧ measured env label n_iter ms R s'))|].
  - intros. by apply (measured_graph_free_ex (fun ms => ms)).
  - repeat quiet_step. by apply (meter_teide_query (fun ms => ms)).
  - intros o sf Hf ms ->. by destruct (Hf ms eq_refl) as (? & <- & ?).
Qed.

Lemma meter_bench_teide_join x y res R s :
  quiet R s →
  wp (bench_teide_join env x y res)
     (fun o s' => ∀ res', o = Ok res' →
        ∃ ms, res' = <["j1" := ms]> res
              ∧ measured env "join j1 — inner, 3-key" N_ITER_JOIN ms R s') s.
Proof.
  intros Hs. unfold bench_teide_join. do 2 quiet_step.
  apply wp_graph_section.
  - intros. by apply (measured_graph_free_ex (fun ms => <["j1" := ms]> res)).
  - repeat quiet_step.
    by apply (meter_teide_query (fun ms => <["j1" := ms]> res)).
Qed.

Lemma meter_bench_teide R s :
  quiet R s →
  wp (bench_teide env)
     (fun o s' => ∀ res, o = Ok res → suite_measured env res R s') s.
Proof.
  intros Hs. unfold bench_teide.
  repeat quiet_step.
  do 5 (measured_step meter_run_groupby; repeat quiet_step).
  do 2 (measured_step meter_run_sort; repeat quiet_step).
  eapply wp_mono; [by eapply meter_bench_teide_join, quiet_idle|].
  intros [res|e] sj Hj; [|wp_raised]. wp_simpl.
  destruct (Hj res eq_refl) as (j1 & -> & ? & ? & ? & ?).
  repeat quiet_step.
  suite_done.
Qed.

Lemma meter_bench_duckdb R s :
  quiet R s →
  wp (bench_duckdb env)
     (fun o s' => ∀ res, o = Ok res → suite_measured env res R s') s.
Proof.
  intros Hs. unfold bench_duckdb.
  repeat quiet_step.
  do 8 (measured_step meter_bench_duckdb_run; repeat quiet_step).
  suite_done.
Qed.

Lemma meter_bench_polars R s :
  quiet R s →
  wp (bench_polars env)
     (fun o s' => ∀ res, o = Ok res → suite_measured env res R s') s.
Proof.
  intros Hs. unfold bench_polars.
  repeat quiet_step.
  do 7 (measured_step meter_bench_polars_run; repeat quiet_step).
  eapply wp_mono; [by apply meter_polars_measure|].
  intros [j1|e] sj Hj; [|wp_raised]. wp_simpl.
  destruct (Hj j1 eq_refl) as (times & Hmed & Hm).
  apply wp_bind. eapply wp_mono; [by eapply meter_query_line|].
  intros [[]|e] sj' (? & ? & ? & ?); [|wp_raised]. wp_simpl.
  repeat quiet_step.
  suite_done.
Qed.

End Timing.

Lemma wp_run {A} (m : M A) Q s o s' : wp m Q s → m s = (o, s') → Q o s'.
Proof. unfold wp. intros H E. by rewrite E in H. Qed.

Lemma median_singleton x : median [x] = Ok x.
Proof. done. Qed.

(** ** C2 *)

(** C2: the measurement of a query, in the DuckDB adapter ([run]) and in
    the native adapter ([run_groupby]) alike, runs the thunk
    [N_WARMUP] = 3 times without reading the clock, then [n_iter] times
    between two readings of the clock; the value it returns and prints is
    the median of these [n_iter] samples alone.  With [n_iter] = 1 it is
    the sample of the fourth run. *)
Theorem warmup_runs_are_not_measured (env : Env) (label sql : string)
    (tbl : Z) (key_names : list string) (agg_ops : list Z)
    (agg_col_names : list string) (n_iter : Z)
    (R : list (string * list Run)) (s : State) :
  meter (log s) = mkMeter Idle [] R →
  (∀ ms s', bench_duckdb_run env label sql n_iter s = (Ok ms, s') →
     ∃ samples,
       meter (log s') =
         mkMeter Idle [] ((query_line env label ms,
                           [Untimed; Untimed; Untimed] ++ (Timed <$> samples))
                          :: R)
       ∧ length samples = Z.to_nat n_iter
       ∧ median samples = Ok ms
       ∧ (n_iter = 1 → samples = [ms]))
  ∧ (∀ ms s',
       run_groupby env tbl label key_names agg_ops agg_col_names n_iter s
       = (Ok ms, s') →
     ∃ samples,
       meter (log s') =
         mkMeter Idle [] ((query_line env label ms,
                           [Untimed; Untimed; Untimed] ++ (Timed <$> samples))
                          :: R)
       ∧ length samples = Z.to_nat n_iter
       ∧ median samples = Ok ms
       ∧ (n_iter = 1 → samples = [ms])).
Proof.
  intros Hs.
  assert (∀ ms s', measured env label n_iter ms R s' →
    ∃ samples,
       meter (log s') =
         mkMeter Idle [] ((query_line env label ms,
                           [Untimed; Untimed; Untimed] ++ (Timed <$> samples))
                          :: R)
       ∧ length samples = Z.to_nat n_iter
       ∧ median samples = Ok ms
       ∧ (n_iter = 1 → samples = [ms])) as Hm.
  { intros ms s' (samples & Hlen & Hmed & Hs'). exists samples.
    split_and!; [done..|]. intros ->.
    destruct samples as [|x [|??]]; try done.
    rewrite median_singleton in Hmed. by injection Hmed as ->. }
  split; intros ms s' Hrun; apply Hm.
  - by eapply (wp_run _ _ _ _ _ (meter_bench_duckdb_run env _ _ _ _ _ Hs)).
  - eapply (wp_run _ _ _ _ _ (meter_run_groupby env _ _ _ _ _ _ _ _
                                (quiet_idle _ _ Hs))); done.
Qed.

(** ** C6 *)

(** C6: in each of the three engines, a suite that returns has measured
    every query of [queries], in order, with 3 warm-up runs followed by 7
    timed runs for the group-by and sort queries and by 5 timed runs for
    the join. *)
Theorem iterations_of_every_engine (env : Env)
    (R : list (string * list Run)) (s : State) :
  quiet R s →
  (∀ res s', bench_duckdb env s = (Ok res, s') → suite_measured env res R s')
  ∧ (∀ res s', bench_polars env s = (Ok res, s') → suite_measured env res R s')
  ∧ (∀ res s', bench_teide env s = (Ok res, s') → suite_measured env res R s').
Proof.
  intros Hs. split_and!; intros res s' Hrun.
  - by eapply (wp_run _ _ _ _ _ (meter_bench_duckdb env _ _ Hs)).
  - by eapply (wp_run _ _ _ _ _ (meter_bench_polars env _ _ Hs)).
  - by eapply (wp_run _ _ _ _ _ (meter_bench_teide env _ _ Hs)).
Qed.

(** ** Stepping an observer through a program

    For an observer [obs] with [obs (e :: l) = step e (obs l)], each
    primitive effect moves a known observation one step. *)

Section Observe.

Context {S : Type} (obs : list Event → S) (step : Event → S → S).
Hypothesis obs_cons : ∀ e l, obs (e :: l) = step e (obs l).
Variable env : Env.

Lemma wp_call_obs c st Q s :
  obs (log s) = st →
  (∀ v s', obs (log s') = step (EvCall c (Some v)) st → Q (Ok v) s') →
  (∀ s', obs (log s') = step (EvCall c None) st → Q (Raise EngineError) s') →
  wp (call env c) Q s.
Proof.
  intros Hs Hok Herr. apply wp_call; [intros v; apply Hok|apply Herr];
    cbn [log]; by rewrite obs_cons, Hs.
Qed.

Lemma wp_call__obs c st Q s :
  obs (log s) = st →
  (∀ ret s', obs (log s') = step (EvCall c ret) st → Q (Ok tt) s') →
  (∀ s', obs (log s') = step (EvCall c None) st → Q (Raise EngineError) s') →
  wp (call_ env c) Q s.
Proof.
  intros Hs Hok Herr.
  apply wp_call_; [apply (Hok (respond env (log s) c))|apply Herr];
    cbn [log]; by rewrite obs_cons, Hs.
Qed.

Lemma wp_clock_obs st Q s :
  obs (log s) = st →
  (∀ t s', obs (log s') = step (EvClock t) st → Q (Ok t) s') →
  wp (time_perf_counter env) Q s.
Proof.
  intros Hs HQ. apply wp_clock. intros t. apply HQ. cbn [log].
  by rewrite obs_cons, Hs.
Qed.

Lemma wp_print_obs line st Q s :
  obs (log s) = st →
  (∀ s', obs (log s') = step (EvPrint line) st → Q (Ok tt) s') →
  wp (print line) Q s.
Proof.
  intros Hs HQ. apply wp_print, HQ. cbn [log]. by rewrite obs_cons, Hs.
Qed.

End Observe.

Lemma owned_threshold r : owned r = (32 <=? r).
Proof.
  unfold owned. destruct (Z.eqb_spec r 0) as [->|]; [done|].
  by destruct (32 <=? r).
Qed.

Ltac obs_simpl H :=
  simpl in H; rewrite ?Z.eqb_refl in H; simpl in H; wp_simpl.

(** One step of the program in the goal; [fin] closes the goal of a step
    that raised. *)
Ltac obs_step obs_cons fin :=
  lazymatch goal with
  | |- wp (bind (teide_warmup _ _ _) _) _ _ => fail
  | |- wp (bind _ _) _ _ => apply wp_bind
  | |- wp (call _ _) _ _ =>
      eapply (wp_call_obs _ _ obs_cons); [eassumption| |];
      [ let H := fresh "Hs" in intros ? ? H; obs_simpl H
      | let H := fresh "Hs" in intros ? H; obs_simpl H; solve [fin] ]
  | |- wp (call_ _ _) _ _ =>
      eapply (wp_call__obs _ _ obs_cons); [eassumption| |];
      [ let H := fresh "Hs" in intros ? ? H; obs_simpl H
      | let H := fresh "Hs" in intros ? H; obs_simpl H; solve [fin] ]
  | |- wp (time_perf_counter _) _ _ =>
      eapply (wp_clock_obs _ _ obs_cons); [eassumption|];
      let H := fresh "Hs" in intros ? ? H; obs_simpl H
  | |- wp (print _) _ _ =>
      eapply (wp_print_obs _ _ obs_cons); [eassumption|];
      let H := fresh "Hs" in intros ? H; obs_simpl H
  | |- wp (print_query_line _ _ _) _ _ =>
      eapply (wp_print_obs _ _ obs_cons); [eassumption|];
      let H := fresh "Hs" in intros ? H; obs_simpl H
  | |- wp (set_result _ _) _ _ => apply wp_set_result; wp_simpl
  | |- wp (ret _) _ _ => apply wp_ret; wp_simpl
  | |- wp (lift ?o) _ _ =>
      apply wp_lift; destruct o as [?|?]; wp_simpl; [|solve [fin]]
  | H : ?obs (log ?s) = ?st |- wp (map_m _ _) _ ?s =>
      eapply (wp_map_m _ _ (fun s' => obs (log s') = st));
      [ exact H
      | intros ? ? ?; repeat obs_step obs_cons ltac:(eassumption); eassumption
      | intros [?|?] ? ?; wp_simpl; [|solve [fin]] ]
  end.

(** ** The observer of result handles *)

Section Handles.

Variable env : Env.

Lemma handles_cons e l : handles (e :: l) = handles_step e (handles l).
Proof. done. Qed.

Lemma handles_release_if_owned r live Q s :
  handles (log s) = Some (if 32 <=? r then Some r else None, live) →
  (∀ o s', handles (log s') = Some (None, live) → Q o s') →
  wp (release_if_owned env r) Q s.
Proof.
  intros Hs HQ. unfold release_if_owned. rewrite owned_threshold.
  destruct (32 <=? r).
  - apply wp_call_; apply HQ; cbn [log]; rewrite handles_cons, Hs; simpl;
      by rewrite Z.eqb_refl.
  - by apply wp_ret, HQ.
Qed.

Lemma handles_teide_warmup g root live s :
  handles (log s) = Some (None, live) →
  wp (teide_warmup env g root)
     (fun _ s' => handles (log s') = Some (None, live)) s.
Proof.
  intros Hs. unfold teide_warmup.
  apply (wp_for_range _ _ (fun _ s => handles (log s) = Some (None, live)));
    [done| |done].
  clear s Hs. intros _ s _ Hs.
  repeat obs_step handles_cons done.
  eapply handles_release_if_owned; [done|]. by intros [|].
Qed.

Lemma handles_teide_measure g root n_iter live s :
  handles (log s) = Some (None, live) →
  wp (teide_measure env g root n_iter)
     (fun _ s' => handles (log s') = Some (None, live)) s.
Proof.
  intros Hs. unfold teide_measure.
  apply (wp_iterate_m _ _ (fun _ _ s => handles (log s) = Some (None, live)));
    [done| |done].
  clear s Hs. intros i times s _ Hs.
  repeat obs_step handles_cons done.
  eapply handles_release_if_owned; [done|]. intros [|] ? ?; [|done].
  wp_simpl. by repeat obs_step handles_cons done.
Qed.

Lemma handles_teide_query {A} (f : Z → A) g root label n_iter live s :
  handles (log s) = Some (None, live) →
  wp (teide_warmup env g root ;;
      times <- teide_measure env g root n_iter ;;
      ms <- lift (median times) ;;
      print_query_line env label ms ;;
      ret (f ms))
     (fun _ s' => handles (log s') = Some (None, live)) s.
Proof.
  intros Hs.
  apply wp_bind. eapply wp_mono; [by apply handles_teide_warmup|].
  intros [[]|e] s1 H1; [|done]. wp_simpl.
  apply wp_bind. eapply wp_mono; [by apply handles_teide_measure|].
  intros [times|e] s2 H2; [|done]. wp_simpl. cbv beta in H2.
  by repeat obs_step handles_cons done.
Qed.

Lemma handles_graph_section {A} g (body : M A) live s :
  wp body (fun _ s' => handles (log s') = Some (None, S live)) s →
  wp (try_finally body (call_ env (GraphFree g)))
     (fun _ s' => handles (log s') = Some (None, live)) s.
Proof.
  intros Hbody. apply wp_try_finally. eapply wp_mono; [exact Hbody|].
  intros o s' Hs'. cbv beta in Hs'. by repeat obs_step handles_cons done.
Qed.

Lemma handles_run_groupby tbl label key_names agg_ops agg_col_names n_iter
    live s :
  handles (log s) = Some (None, live) →
  wp (run_groupby env tbl label key_names agg_ops agg_col_names n_iter)
     (fun _ s' => handles (log s') = Some (None, live)) s.
Proof.
  intros Hs. unfold run_groupby. repeat obs_step handles_cons done.
  apply handles_graph_section.
  repeat obs_step handles_cons done.
  by apply (handles_teide_query (fun ms => ms)).
Qed.

Lemma handles_run_sort tbl label col_names descs n_iter live s :
  handles (log s) = Some (None, live) →
  wp (run_sort env tbl label col_names descs n_iter)
     (fun _ s' => handles (log s') = Some (None, live)) s.
Proof.
  intros Hs. unfold run_sort. repeat obs_step handles_cons done.
  apply handles_graph_section.
  repeat obs_step handles_cons done.
  by apply (handles_teide_query (fun ms => ms)).
Qed.

Lemma handles_bench_teide_join x y res live s :
  handles (log s) = Some (None, live) →
  wp (bench_teide_join env x y res)
     (fun _ s' => handles (log s') = Some (None, live)) s.
Proof.
  intros Hs. unfold bench_teide_join. repeat obs_step handles_cons done.
  apply handles_graph_section.
  repeat obs_step handles_cons done.
  by apply (handles_teide_query (fun ms => <["j1" := ms]> res)).
Qed.

Ltac handles_call lem :=
  eapply wp_mono; [eapply lem; eassumption|];
  let H := fresh "Hs" in intros [?|?] ? H; cbv beta in H; wp_simpl; [|done].

Lemma handles_bench_teide s :
  handles (log s) = Some (None, O) →
  wp (bench_teide env) (fun _ s' => handles (log s') = Some (None, O)) s.
Proof.
  intros Hs. unfold bench_teide.
  repeat obs_step handles_cons done.
  do 5 (handles_call handles_run_groupby; repeat obs_step handles_cons done).
  do 2 (handles_call handles_run_sort; repeat obs_step handles_cons done).
  handles_call handles_bench_teide_join.
  by repeat obs_step handles_cons done.
Qed.

End Handles.

(** ** C3 *)

(** C3: in the native adapter every [execute] that returns a handle at or
    above 32 is followed by the release of that handle, once, before the
    next [execute] and before the graph is freed, in the warm-up runs as
    in the measured ones; nothing else is released while a graph is live,
    so a handle below 32 never is.  This holds of [run_groupby] and
    [run_sort] with any arguments and of the whole of [bench_teide],
    whatever the engine answers and whether the run returns or raises. *)
Theorem owned_results_are_released (env : Env) (tbl : Z) (label : string)
    (key_names : list string) (agg_ops : list Z) (agg_col_names : list string)
    (descs : list Z) (n_iter : Z) (live : nat) (s : State) :
  handles (log s) = Some (None, live) →
  handles (log (run_groupby env tbl label key_names agg_ops agg_col_names
                  n_iter s).2) = Some (None, live)
  ∧ handles (log (run_sort env tbl label key_names descs n_iter s).2)
    = Some (None, live)
  ∧ (live = O →
     handles (log (bench_teide env s).2) = Some (None, O)).
Proof.
  intros Hs. split_and!.
  - by apply (handles_run_groupby env).
  - by apply (handles_run_sort env).
  - intros ->. by apply (handles_bench_teide env).
Qed.

(** ** The observer of planning *)

Section Planner.

Variable env : Env.

Lemma planner_cons e l : planner (e :: l) = planner_step e (planner l).
Proof. done. Qed.

Lemma planner_release_if_owned r st Q s :
  planner (log s) = st →
  (∀ o s', planner (log s') = st → Q o s') →
  wp (release_if_owned env r) Q s.
Proof.
  intros Hs HQ. unfold release_if_owned. destruct (owned r).
  - apply wp_call_; apply HQ; cbn [log]; rewrite planner_cons, Hs;
      by destruct st.
  - by apply wp_ret, HQ.
Qed.

Lemma planner_teide_warmup g root n done s :
  planner (log s) = (Ready g root n, done) →
  wp (teide_warmup env g root)
     (fun o s' => executed g root (n + Z.to_nat N_WARMUP) done (returned o) s') s.
Proof.
  intros Hs. unfold teide_warmup.
  apply (wp_for_range _ _
    (fun i s => planner (log s) = (Ready g root (n + i), done))).
  { by rewrite Nat.add_0_r. }
  { clear s Hs. intros i s _ Hs.
    repeat obs_step planner_cons ltac:(by eexists).
    eapply planner_release_if_owned; [done|].
    intros [|] sr Hr; wp_simpl; [by rewrite Nat.add_succ_r|by eexists]. }
  intros s' Hs'. by eexists.
Qed.

Lemma planner_teide_measure g root n n_iter done s :
  planner (log s) = (Ready g root n, done) →
  wp (teide_measure env g root n_iter)
     (fun o s' => executed g root (n + Z.to_nat n_iter) done (returned o) s') s.
Proof.
  intros Hs. unfold teide_measure.
  apply (wp_iterate_m _ _
    (fun i _ s => planner (log s) = (Ready g root (n + i), done))).
  { by rewrite Nat.add_0_r. }
  { clear s Hs. intros i times s _ Hs.
    repeat obs_step planner_cons ltac:(by eexists).
    eapply planner_release_if_owned; [done|].
    intros [|] sr Hr; wp_simpl; [|by eexists].
    repeat obs_step planner_cons ltac:(by eexists).
    by rewrite Nat.add_succ_r. }
  intros times s' Hs'. by eexists.
Qed.

Lemma planner_teide_query {A} (f : Z → A) g root label n_iter done s :
  planner (log s) = (Ready g root O, done) →
  wp (teide_warmup env g root ;;
      times <- teide_measure env g root n_iter ;;
      ms <- lift (median times) ;;
      print_query_line env label ms ;;
      ret (f ms))
     (fun o s' => executed g root (Z.to_nat N_WARMUP + Z.to_nat n_iter) done
                    (returned o) s') s.
Proof.
  intros Hs.
  apply wp_bind. eapply wp_mono; [by apply planner_teide_warmup|].
  intros [[]|e] s1 (k1 & H1 & Hk1); [|by eexists]. wp_simpl.
  rewrite (Hk1 eq_refl) in H1. clear Hk1.
  apply wp_bind. eapply wp_mono; [by eapply planner_teide_measure|].
  intros [times|e] s2 (k2 & H2 & Hk2); [|by eexists]. wp_simpl.
  rewrite (Hk2 eq_refl) in H2. clear Hk2.
  repeat obs_step planner_cons ltac:(by eexists). by eexists.
Qed.

Lemma planner_graph_section {A} g (body : M A) n done s :
  wp body (fun o s' => ∃ p, planner (log s') = (p, done) ∧ open_graph g p
             ∧ (returned o = true → ∃ root, p = Ready g root n)) s →
  wp (try_finally body (call_ env (GraphFree g)))
     (fun o s' => planned n done (returned o) s') s.
Proof.
  intros Hbody. apply wp_try_finally. eapply wp_mono; [exact Hbody|].
  intros o s' (p & Hs' & Hg & Hok).
  destruct o as [a|e].
  - destruct (Hok eq_refl) as (root & ->).
    repeat obs_step planner_cons ltac:(by eexists). by eexists.
  - destruct p as [|g'|g' root k|g'|]; simpl in Hg; try done; subst g';
      repeat obs_step planner_cons ltac:(by eexists); by eexists.
Qed.

Ltac in_graph := eexists; split_and!; [eassumption|done|done].

Lemma planner_teide_query_in_graph {A} (f : Z → A) g root label n_iter done s :
  planner (log s) = (Ready g root O, done) →
  wp (teide_warmup env g root ;;
      times <- teide_measure env g root n_iter ;;
      ms <- lift (median times) ;;
      print_query_line env label ms ;;
      ret (f ms))
     (fun o s' => ∃ p, planner (log s') = (p, done) ∧ open_graph g p
        ∧ (returned o = true →
           ∃ root, p = Ready g root (Z.to_nat N_WARMUP + Z.to_nat n_iter))) s.
Proof.
  intros Hs. eapply wp_mono; [by apply planner_teide_query|].
  intros o s' (k & Hs' & Hk). eexists. split_and!; [done..|].
  intros Hok. rewrite (Hk Hok). by eexists.
Qed.

Lemma planner_run_groupby tbl label key_names agg_ops agg_col_names n_iter
    done s :
  planner (log s) = (NoGraph, done) →
  wp (run_groupby env tbl label key_names agg_ops agg_col_names n_iter)
     (fun o s' => planned (Z.to_nat N_WARMUP + Z.to_nat n_iter) done
                    (returned o) s') s.
Proof.
  intros Hs. unfold run_groupby.
  repeat obs_step planner_cons ltac:(by eexists).
  apply planner_graph_section.
  repeat obs_step planner_cons in_graph.
  by apply (planner_teide_query_in_graph (fun ms => ms)).
Qed.

Lemma planner_run_sort tbl label col_names descs n_iter done s :
  planner (log s) = (NoGraph, done) →
  wp (run_sort env tbl label col_names descs n_iter)
     (fun o s' => planned (Z.to_nat N_WARMUP + Z.to_nat n_iter) done
                    (returned o) s') s.
Proof.
  intros Hs. unfold run_sort.
  repeat obs_step planner_cons ltac:(by eexists).
  apply planner_graph_section.
  repeat obs_step planner_cons in_graph.
  by apply (planner_teide_query_in_graph (fun ms => ms)).
Qed.

Lemma planner_bench_teide_join x y res done s :
  planner (log s) = (NoGraph, done) →
  wp (bench_teide_join env x y res)
     (fun o s' => planned (Z.to_nat N_WARMUP + Z.to_nat N_ITER_JOIN) done
                    (returned o) s') s.
Proof.
  intros Hs. unfold bench_teide_join.
  repeat obs_step planner_cons ltac:(by eexists).
  apply planner_graph_section.
  repeat obs_step planner_cons in_graph.
  by apply (planner_teide_query_in_graph (fun ms => <["j1" := ms]> res)).
Qed.

Ltac planner_call lem :=
  eapply wp_mono; [eapply lem; eassumption|];
  let H := fresh "Hs" in let Hok := fresh "Hok" in
  intros [?|?] ? (? & H & Hok); wp_simpl;
  [ rewrite (Hok eq_refl) in H; clear Hok | by eexists ].

Lemma planner_bench_teide done s :
  planner (log s) = (NoGraph, done) →
  wp (bench_teide env)
     (fun o s' => ∃ ns, planner (log s') = (NoGraph, ns)
        ∧ (returned o = true →
           ns = [8; 10; 10; 10; 10; 10; 10; 10]%nat ++ done)) s.
Proof.
  intros Hs. unfold bench_teide.
  repeat obs_step planner_cons ltac:(by eexists).
  do 5 (planner_call planner_run_groupby;
        repeat obs_step planner_cons ltac:(by eexists)).
  do 2 (planner_call planner_run_sort;
        repeat obs_step planner_cons ltac:(by eexists)).
  planner_call planner_bench_teide_join.
  repeat obs_step planner_cons ltac:(by eexists).
  by eexists.
Qed.
End Planner.

(** ** The observer of borrowed tables *)

Section Borrows.

Variable env : Env.

Lemma borrows_cons e l : borrows (e :: l) = borrows_step e (borrows l).
Proof. done. Qed.

Lemma foldr_borrow g ts l :
  foldr (borrow g) [(g, ts)] l = [(g, l ++ ts)].
Proof.
  induction l as [|t l IH]; [done|]. cbn [foldr]. rewrite IH. simpl.
  by rewrite Z.eqb_refl.
Qed.

Lemma borrows_release_if_owned r gs cols L Rl Q s :
  borrows (log s)
  = Some (mkBorrows (if 32 <=? r then Some r else None) gs cols L Rl) →
  (∀ o s', borrows (log s') = Some (mkBorrows None gs cols L Rl) → Q o s') →
  wp (release_if_owned env r) Q s.
Proof.
  intros Hs HQ. unfold release_if_owned. rewrite owned_threshold.
  destruct (32 <=? r).
  - apply wp_call_; apply HQ; cbn [log]; rewrite borrows_cons, Hs; simpl;
      by rewrite Z.eqb_refl.
  - by apply wp_ret, HQ.
Qed.

Lemma borrows_teide_warmup g root gs cols L Rl s :
  borrows (log s) = Some (mkBorrows None gs cols L Rl) →
  wp (teide_warmup env g root)
     (fun _ s' => borrows (log s') = Some (mkBorrows None gs cols L Rl)) s.
Proof.
  intros Hs. unfold teide_warmup.
  apply (wp_for_range _ _
    (fun _ s => borrows (log s) = Some (mkBorrows None gs cols L Rl)));
    [done| |done].
  clear s Hs. intros _ s _ Hs.
  repeat obs_step borrows_cons done.
  eapply borrows_release_if_owned; [done|]. by intros [|].
Qed.

Lemma borrows_teide_measure g root n_iter gs cols L Rl s :
  borrows (log s) = Some (mkBorrows None gs cols L Rl) →
  wp (teide_measure env g root n_iter)
     (fun _ s' => borrows (log s') = Some (mkBorrows None gs cols L Rl)) s.
Proof.
  intros Hs. unfold teide_measure.
  apply (wp_iterate_m _ _
    (fun _ _ s => borrows (log s) = Some (mkBorrows None gs cols L Rl)));
    [done| |done].
  clear s Hs. intros i times s _ Hs.
  repeat obs_step borrows_cons done.
  eapply borrows_release_if_owned; [done|]. intros [|] sr Hr; [|done].
  wp_simpl. by repeat obs_step borrows_cons done.
Qed.

Lemma borrows_teide_query {A} (f : Z → A) g root label n_iter ts cols L Rl s :
  borrows (log s) = Some (mkBorrows None [(g, ts)] cols L Rl) →
  wp (teide_warmup env g root ;;
      times <- teide_measure env g root n_iter ;;
      ms <- lift (median times) ;;
      print_query_line env label ms ;;
      ret (f ms))
     (fun _ s' => within g L Rl s') s.
Proof.
  intros Hs.
  apply wp_bind. eapply wp_mono; [by apply borrows_teide_warmup|].
  intros [[]|e] s1 H1; [|by eexists _, _]. wp_simpl. cbv beta in H1.
  apply wp_bind. eapply wp_mono; [by apply borrows_teide_measure|].
  intros [times|e] s2 H2; [|by eexists _, _]. wp_simpl. cbv beta in H2.
  repeat obs_step borrows_cons ltac:(by eexists _, _). by eexists _, _.
Qed.

Lemma borrows_graph_section {A} g (body : M A) L Rl s :
  wp body (fun _ s' => within g L Rl s') s →
  wp (try_finally body (call_ env (GraphFree g)))
     (fun _ s' => between L Rl s') s.
Proof.
  intros Hbody. apply wp_try_finally. eapply wp_mono; [exact Hbody|].
  intros o s' (ts & cols & Hs').
  repeat obs_step borrows_cons ltac:(by eexists). by eexists.
Qed.

Lemma borrows_run_groupby tbl label key_names agg_ops agg_col_names n_iter
    L Rl s :
  between L Rl s →
  wp (run_groupby env tbl label key_names agg_ops agg_col_names n_iter)
     (fun _ s' => between L Rl s') s.
Proof.
  intros (cols & Hs). unfold run_groupby.
  repeat obs_step borrows_cons ltac:(by eexists).
  apply borrows_graph_section.
  repeat obs_step borrows_cons ltac:(by eexists _, _).
  by eapply (borrows_teide_query (fun ms => ms)).
Qed.

Lemma borrows_run_sort tbl label col_names descs n_iter L Rl s :
  between L Rl s →
  wp (run_sort env tbl label col_names descs n_iter)
     (fun _ s' => between L Rl s') s.
Proof.
  intros (cols & Hs). unfold run_sort.
  repeat obs_step borrows_cons ltac:(by eexists).
  apply borrows_graph_section.
  repeat obs_step borrows_cons ltac:(by eexists _, _).
  by eapply (borrows_teide_query (fun ms => ms)).
Qed.

Lemma borrows_right_key g y k L Rl s :
  within g L Rl s →
  wp (name_id <- call env (SymIntern k) ;;
      col_vec <- call env (TdTableGetCol y name_id) ;;
      call env (ConstVec g col_vec))
     (fun _ s' => within g L Rl s') s.
Proof.
  intros (ts & cols & Hs).
  do 4 obs_step borrows_cons ltac:(by eexists _, _).
  eapply (wp_call_obs _ _ borrows_cons); [eassumption| |];
    [intros node sv Hv|intros sv Hv];
    cbn [borrows_step result graphs columns loaded released] in Hv;
    rewrite foldr_borrow in Hv; by eexists _, _.
Qed.

Lemma borrows_bench_teide_join x y res L Rl s :
  between L Rl s →
  wp (bench_teide_join env x y res) (fun _ s' => between L Rl s') s.
Proof.
  intros (cols & Hs). unfold bench_teide_join.
  repeat obs_step borrows_cons ltac:(by eexists).
  apply borrows_graph_section.
  repeat obs_step borrows_cons ltac:(by eexists _, _).
  eapply (wp_map_m _ _ (within _ L Rl)).
  - by eexists _, _.
  - intros. by apply borrows_right_key.
  - intros [right_keys|e] sr (ts & cols' & Hr); [|by eexists _, _]. wp_simpl.
    repeat obs_step borrows_cons ltac:(by eexists _, _).
    by eapply (borrows_teide_query (fun ms => <["j1" := ms]> res)).
Qed.

Lemma wp_conj {A} (m : M A) (Q1 Q2 : Outcome A → State → Prop) s :
  wp m Q1 s → wp m Q2 s → wp m (fun o s' => Q1 o s' ∧ Q2 o s') s.
Proof. by split. Qed.

Lemma wp_true {A} (m : M A) s : wp m (fun _ _ => True) s.
Proof. done. Qed.

Lemma log_bench_teide_join x y res s :
  wp (bench_teide_join env x y res)
     (fun o s' => returned o = true →
        ∃ g ret l, log s' = EvCall (GraphFree g) ret :: l) s.
Proof.
  unfold bench_teide_join. apply wp_bind, wp_call; [intros g|done]. wp_simpl.
  apply wp_try_finally. eapply wp_mono; [apply wp_true|].
  intros o s' _. apply wp_call_; [|done]. intros _. by eexists _, _, _.
Qed.

Ltac no_graph := split; [by eexists _, _, _|done].

Ltac borrows_call lem :=
  eapply wp_mono; [eapply lem; eexists; eassumption|];
  let H := fresh "Hs" in
  intros [?|?] ? (? & H); wp_simpl; [|no_graph].

Lemma borrows_bench_teide cols L Rl s :
  borrows (log s) = Some (mkBorrows None [] cols L Rl) →
  wp (bench_teide env)
     (fun o s' => (∃ L' Rl', between L' Rl' s')
                  ∧ (returned o = true → torn_down env L Rl s')) s.
Proof.
  intros Hs. unfold bench_teide.
  repeat obs_step borrows_cons no_graph.
  do 5 (borrows_call borrows_run_groupby;
        repeat obs_step borrows_cons no_graph).
  do 2 (borrows_call borrows_run_sort;
        repeat obs_step borrows_cons no_graph).
  eapply wp_mono;
    [apply wp_conj;
       [eapply borrows_bench_teide_join; eexists; eassumption
       |apply log_bench_teide_join]|].
  intros [res|e] sj [(colsj & Hj) Hlog]; [|no_graph]. wp_simpl.
  destruct (Hlog eq_refl) as (g & r6 & l & Hl). clear Hlog.
  repeat (apply wp_bind, wp_call_; wp_simpl;
    [|split; [|done]; eexists _, _, _; cbn [log];
      rewrite !borrows_cons, Hj; simpl; reflexivity]).
  apply wp_bind, wp_set_result. wp_simpl. apply wp_ret. split.
  - eexists _, _, _. cbn [log]. rewrite !borrows_cons, Hj.
    simpl. reflexivity.
  - intros _. unfold torn_down. cbn [log].
    eexists _, _, _, _, _, _, _, _, _, _, _, _. split.
    + rewrite !borrows_cons, Hj. simpl. reflexivity.
    + by rewrite Hl.
Qed.
End Borrows.

(** ** C4 *)

(** C4: in the native adapter the nodes of a query are added to its graph
    before [optimize], which runs once, before the first execution; every
    [execute] of the query, warm-up or measured, runs on that graph and on
    the root [optimize] returned; nothing is added to the graph and
    [optimize] does not run again until the graph is freed (the plan
    never is [Broken]).  A query that returns has run [N_WARMUP + n_iter]
    executions on its one optimized root, and a suite that returns has run
    7 queries of 10 executions and the join of 8. *)
Theorem optimized_once_then_executed (env : Env) (tbl : Z) (label : string)
    (key_names : list string) (agg_ops : list Z) (agg_col_names : list string)
    (n_iter : Z) (done : list nat) (s : State) :
  planner (log s) = (NoGraph, done) →
  (∃ ns,
     planner (log (run_groupby env tbl label key_names agg_ops agg_col_names
                     n_iter s).2) = (NoGraph, ns)
     ∧ (returned (run_groupby env tbl label key_names agg_ops agg_col_names
                    n_iter s).1 = true →
        ns = (3 + Z.to_nat n_iter)%nat :: done))
  ∧ (∃ ns,
       planner (log (bench_teide env s).2) = (NoGraph, ns)
       ∧ (returned (bench_teide env s).1 = true →
          ns = [8; 10; 10; 10; 10; 10; 10; 10]%nat ++ done)).
Proof.
  intros Hs. split.
  - by apply (planner_run_groupby env).
  - by apply (planner_bench_teide env).
Qed.

(** ** C5 *)

(** C5: in the native adapter a table is never released while a live
    graph borrows it, through [graph_new], [const_table] or [const_vec]:
    whatever the engine answers, the observer of borrowed tables reports
    no violation and no graph is left live.  In a suite that returns, the
    graph of the join is freed, then the tables [y], [x] and the group-by
    table are released, once each and in this order, then the symbol table
    and the arenas are destroyed, and this is the end of the suite. *)
Theorem tables_outlive_their_graphs (env : Env) (cols : list (Z * Z))
    (L : list (string * Z)) (Rl : list Z) (s : State) :
  borrows (log s) = Some (mkBorrows None [] cols L Rl) →
  (∃ cols' L' Rl',
     borrows (log (bench_teide env s).2)
     = Some (mkBorrows None [] cols' L' Rl'))
  ∧ (returned (bench_teide env s).1 = true →
     ∃ tbl x y g cols' r1 r2 r3 r4 r5 r6 l,
       borrows (log (bench_teide env s).2) =
         Some (mkBorrows None [] cols'
                 ((CSV_JOIN_Y env, y) :: (CSV_JOIN_X env, x)
                  :: (CSV_GROUPBY env, tbl) :: L)
                 (tbl :: x :: y :: Rl))
       ∧ log (bench_teide env s).2 =
           EvCall ArenaDestroyAll r1 :: EvCall SymDestroy r2
           :: EvCall (Release tbl) r3 :: EvCall (Release x) r4
           :: EvCall (Release y) r5 :: EvCall (GraphFree g) r6 :: l).
Proof.
  intros Hs.
  destruct (borrows_bench_teide env cols L Rl s Hs) as [(L' & Rl' & c & H) Hok].
  split; [by eexists _, _, _|]. exact Hok.
Qed.

(** ** The summary table *)





Lemma get_median_ok rs engine key :
  medians_or_absent rs engine → ∃ t, get_median rs engine key = Ok t.
Proof. unfold get_median. intros [->|(res & ->)]; by eexists. Qed.


Lemma wp_for_each {A} (xs : list A) (f : A → M unit) (I : State → Prop) Q s :
  I s →
  (∀ x s, x ∈ xs → I s → wp (f x) (after (fun _ s' => I s') Q) s) →
  (∀ s, I s → Q (Ok tt) s) →
  wp (for_each xs f) Q s.
Proof.
  intros H0 Hf Hend. revert s H0.
  induction xs as [|x xs IH]; intros s H0; simpl; [by apply wp_ret, Hend|].
  apply wp_bind. eapply wp_mono; [apply Hf; [by left|done]|].
  intros [[]|e] s1 H1; [|done]. simpl in *.
  apply IH; [|done]. intros y s' Hy. apply Hf. by right.
Qed.

Lemma summary_row_cells env rs label key :
  medians_or_absent rs "teide" → medians_or_absent rs "duckdb" →
  medians_or_absent rs "polars" →
  ∃ t d p,
    get_median rs "teide" key = Ok t ∧ get_median rs "duckdb" key = Ok d
    ∧ get_median rs "polars" key = Ok p
    ∧ summary_row env rs (label, key)
      = Ok ("  " +:+ ljust 28 label +:+ " " +:+ rjust 10 (cell env t) +:+ " "
            +:+ rjust 10 (cell env d) +:+ " " +:+ rjust 10 (cell env p)).
Proof.
  intros Ht Hd Hp.
  destruct (get_median_ok rs "teide" key Ht) as [t Et].
  destruct (get_median_ok rs "duckdb" key Hd) as [d Ed].
  destruct (get_median_ok rs "polars" key Hp) as [p Ep].
  exists t, d, p. split_and!; [done..|].
  unfold summary_row. by rewrite Et, Ed, Ep.
Qed.

Lemma print_summary_returns env s :
  medians_or_absent (results s) "teide" →
  medians_or_absent (results s) "duckdb" →
  medians_or_absent (results s) "polars" →
  (print_summary env s).1 = Ok tt.
Proof.
  intros Ht Hd Hp.
  assert (wp (print_summary env) (fun o _ => o = Ok tt) s) as H; [|exact H].
  unfold print_summary.
  do 5 (apply wp_bind, wp_print; wp_simpl).
  apply (wp_for_each _ _ (fun s' => results s' = results s)); [done| |done].
  intros [label key] s' _ Hrs.
  apply wp_bind, wp_get_results. wp_simpl. rewrite Hrs.
  destruct (summary_row_cells env (results s) label key Ht Hd Hp)
    as (t & d & p & _ & _ & _ & ->).
  apply wp_bind, wp_lift. wp_simpl. by apply wp_print.
Qed.

(** ** C8 *)


(** ** C10 *)


(** ** C7 *)

(** C7: if one of the three dataset files does not exist, the run prints
    the path of the first missing one and exits with status 1: that line
    is the only event of the run, so that no engine is called, [results]
    is left as it was and no result file is written. *)
Theorem missing_dataset_stops_the_run (env : Env) (s : State) (path : string) :
  path ∈ [CSV_GROUPBY env; CSV_JOIN_X env; CSV_JOIN_Y env] →
  path_exists env path = false →
  ∃ p, p ∈ [CSV_GROUPBY env; CSV_JOIN_X env; CSV_JOIN_Y env]
    ∧ path_exists env p = false
    ∧ main env s
      = (Raise (SystemExit 1),
         mkState (EvPrint ("Dataset not found: " +:+ p) :: log s) (results s))
    ∧ 1 ≠ 0.
Proof.
  intros Hin Hmiss.
  destruct (path_exists env (CSV_GROUPBY env)) eqn:E1;
    [destruct (path_exists env (CSV_JOIN_X env)) eqn:E2;
      [destruct (path_exists env (CSV_JOIN_Y env)) eqn:E3|]|].
  - exfalso. apply list_elem_of_In in Hin. simpl in Hin.
    destruct Hin as [<-|[<-|[<-|[]]]]; congruence.
  - exists (CSV_JOIN_Y env). split_and!; [apply list_elem_of_In; simpl; auto|done| |done].
    unfold main, bind, check_datasets. simpl. unfold bind. simpl.
    by rewrite E1, E2, E3.
  - exists (CSV_JOIN_X env). split_and!; [apply list_elem_of_In; simpl; auto|done| |done].
    unfold main, bind, check_datasets. simpl. unfold bind. simpl.
    by rewrite E1, E2.
  - exists (CSV_GROUPBY env). split_and!; [apply list_elem_of_In; simpl; auto|done| |done].
    unfold main, bind, check_datasets. simpl. unfold bind. simpl.
    by rewrite E1.
Qed.

(** ** The dataset generator *)

Section Determinism.

Variable R : PyRandom.
Variables p1 p2 : string.

Lemma alike_ret {A} (a : A) : alike R p1 p2 (ret a) (ret a).
Proof. by intros st1 st2 H. Qed.

Lemma alike_raise {A} e : alike R p1 p2 (raise (A := A) e) (raise e).
Proof. by intros st1 st2 H. Qed.

Lemma alike_bind {A B} (m1 m2 : G R A) (k1 k2 : A → G R B) :
  alike R p1 p2 m1 m2 → (∀ a, alike R p1 p2 (k1 a) (k2 a)) → alike R p1 p2 (bind m1 k1) (bind m2 k2).
Proof.
  intros Hm Hk st1 st2 H. unfold bind.
  destruct (Hm st1 st2 H) as [Ho Hs].
  destruct (m1 st1) as [[a|e] st1'], (m2 st2) as [[a'|e'] st2'];
    simpl in *; try done.
  - injection Ho as ->. by apply Hk.
  - by injection Ho as ->.
Qed.

Lemma alike_randint a b : alike R p1 p2 (random_randint R a b) (random_randint R a b).
Proof.
  intros st1 st2 (Hr & Hf & Hs). unfold random_randint. rewrite Hr.
  by destruct (randint R a b (random_state R st2)).
Qed.

Lemma alike_random : alike R p1 p2 (random_random R) (random_random R).
Proof.
  intros st1 st2 (Hr & Hf & Hs). unfold random_random. rewrite Hr.
  by destruct (random R (random_state R st2)).
Qed.

Lemma alike_uniform a b : alike R p1 p2 (random_uniform R a b) (random_uniform R a b).
Proof.
  intros st1 st2 (Hr & Hf & Hs). unfold random_uniform. rewrite Hr.
  by destruct (uniform R a b (random_state R st2)).
Qed.

Lemma alike_choice {A} (seq : list A) :
  alike R p1 p2 (random_choice R seq) (random_choice R seq).
Proof.
  intros st1 st2 (Hr & Hf & Hs). unfold random_choice.
  destruct seq as [|x seq]; [done|]. rewrite Hr.
  destruct (choice_index R _ (random_state R st2)) as [i r].
  by destruct ((x :: seq) !! i).
Qed.

Lemma alike_write text : alike R p1 p2 (write R p1 text) (write R p2 text).
Proof.
  intros st1 st2 (Hr & Hf & Hs). unfold write. simpl.
  split; [done|]. split; [done|]. simpl.
  rewrite !lookup_insert_eq, Hf. done.
Qed.

Lemma alike_repeat_m n (m1 m2 : G R unit) :
  alike R p1 p2 m1 m2 → alike R p1 p2 (repeat_m n m1) (repeat_m n m2).
Proof.
  intros Hm. induction n as [|n IH]; simpl; [apply alike_ret|].
  apply alike_bind; [done|]. by intros.
Qed.

Lemma alike_draw_row na_pct l1 l2 l3 l4 l5 l6 :
  alike R p1 p2 (draw_row R na_pct l1 l2 l3 l4 l5 l6) (draw_row R na_pct l1 l2 l3 l4 l5 l6).
Proof.
  unfold draw_row.
  repeat first
    [ apply alike_ret | apply alike_randint | apply alike_random
    | apply alike_uniform | apply alike_choice
    | apply alike_bind; [|intros ?]
    | match goal with |- alike R p1 p2 (if ?b then _ else _) _ => destruct b end ].
Qed.

Lemma alike_write_batches fuel row n_rows rows_written st1 st2 :
  alike R p1 p2 row row → agree R p1 p2 st1 st2 →
  match write_batches R fuel p1 row n_rows rows_written st1,
        write_batches R fuel p2 row n_rows rows_written st2 with
  | Some (o1, st1'), Some (o2, st2') => o1 = o2 ∧ agree R p1 p2 st1' st2'
  | None, None => True
  | _, _ => False
  end.
Proof.
  intros Hrow. revert rows_written st1 st2.
  induction fuel as [|fuel IH]; intros rows_written st1 st2 H; simpl;
    destruct (rows_written <? n_rows); try done.
  assert (alike R p1 p2 (for_range (Z.min (rows_written + batch_size) n_rows - rows_written)
                   (r <- row ;; writerow R p1 r))
                (for_range (Z.min (rows_written + batch_size) n_rows - rows_written)
                   (r <- row ;; writerow R p2 r))) as Hfor.
  { apply alike_repeat_m, alike_bind; [done|]. intros r. apply alike_write. }
  destruct (Hfor st1 st2 H) as [Ho Hs].
  destruct (for_range _ _ st1) as [[[]|e] st1'],
           (for_range _ _ st2) as [[[]|e'] st2']; simpl in *; try done.
  by apply IH.
Qed.

Lemma write_batches_total fuel p row n_rows rows_written st :
  n_rows - rows_written ≤ Z.of_nat fuel * batch_size →
  is_Some (write_batches R fuel p row n_rows rows_written st).
Proof.
  revert rows_written st. unfold batch_size.
  induction fuel as [|fuel IH]; intros rows_written st Hfuel; simpl;
    destruct (Z.ltb_spec rows_written n_rows); try done; [lia|].
  destruct (for_range _ _ st) as [[[]|e] st']; [|done].
  apply IH. unfold batch_size. lia.
Qed.

End Determinism.

(** ** C9 *)

(** C9: the generator of the group-by dataset is deterministic.  Two
    invocations with the same row count, group cardinality, NA percentage
    and seed, started in any two states of the module [random] and of the
    file system, end alike, and the CSV file each of them wrote, whatever
    its path, holds the same bytes.  (With a cardinality of 0 both raise
    [ZeroDivisionError] before a file is opened.) *)
Theorem generation_is_deterministic (R : PyRandom) (fuel : nat)
    (path1 path2 : string) (n_rows k na_pct seed : Z) (st1 st2 : GenState R) :
  n_rows ≤ Z.of_nat fuel * 1000000 →
  ∃ o st1' st2',
    generate_h2oai_groupby R fuel path1 n_rows k na_pct seed st1 = Some (o, st1')
    ∧ generate_h2oai_groupby R fuel path2 n_rows k na_pct seed st2
      = Some (o, st2')
    ∧ random_state R st1' = random_state R st2'
    ∧ (k ≠ 0 → ∃ csv, files R st1' !! path1 = Some csv
                      ∧ files R st2' !! path2 = Some csv).
Proof.
  intros Hfuel. unfold generate_h2oai_groupby, bind, random_seed, floordiv.
  destruct (Z.eqb_spec k 0) as [->|Hk]; simpl.
  { eexists _, _, _. split_and!; [done|done|done|done]. }
  set (row := draw_row R na_pct _ _ _ _ _ _).
  match goal with
  | |- context [write_batches R fuel path1 row n_rows 0 ?x] =>
      set (s1 := x)
  end.
  match goal with
  | |- context [write_batches R fuel path2 row n_rows 0 ?x] =>
      set (s2 := x)
  end.
  assert (agree R path1 path2 s1 s2) as Hagree.
  { subst s1 s2. split_and!; simpl; [done| |].
    - by rewrite !lookup_insert_eq.
    - by rewrite lookup_insert_eq. }
  pose proof (alike_write_batches R path1 path2 fuel row n_rows 0 s1 s2
                (alike_draw_row R path1 path2 _ _ _ _ _ _ _) Hagree) as Hrun.
  destruct (write_batches_total R fuel path1 row n_rows 0 s1) as [[o1 st1'] E1];
    [unfold batch_size; lia|].
  rewrite E1 in Hrun |- *.
  destruct (write_batches R fuel path2 row n_rows 0 s2) as [[o2 st2']|];
    [|done].
  destruct Hrun as (-> & Hr & Hf & [csv Hcsv]).
  eexists _, _, _. split_and!; [done..|].
  intros _. exists csv. split; [done|]. by rewrite <- Hf.
Qed.

(** * Further properties *)

(** ** The median *)

Lemma filter_length_Permutation (f : Z → bool) l l' :
  l ≡ₚ l' → length (List.filter f l) = length (List.filter f l').
Proof.
  induction 1 as [|x l l' _ IH|x y l|l l' l'' _ IH1 _ IH2]; simpl.
  - done.
  - destruct (f x); simpl; by rewrite IH.
  - by destruct (f x), (f y).
  - by rewrite IH1.
Qed.

Lemma median_nonempty lst : lst ≠ [] → ∃ m, median lst = Ok m.
Proof.
  intros Hne. rewrite median_lookup. unfold py_index.
  destruct (lookup_lt_is_Some_2 (sorted lst) (length lst / 2)%nat) as [m ->].
  - rewrite sorted_length. apply Nat.div_lt; [|lia].
    destruct lst; [done|simpl; lia].
  - by exists m.
Qed.

Lemma median_raises lst e : median lst = Raise e → lst = [] ∧ e = IndexError.
Proof.
  intros H. destruct lst as [|x lst].
  - by injection H as <-.
  - destruct (median_nonempty (x :: lst)) as [m Hm]; [done|]. congruence.
Qed.

Lemma sorted_rank s k m :
  StronglySorted Z.le s → s !! k = Some m →
  (count_below m s ≤ k)%nat ∧ (k < count_at_most m s)%nat.
Proof.
  intros Hs. revert k. induction Hs as [|x s Hs IH Hall]; intros k Hk; [done|].
  unfold count_below, count_at_most in *. rewrite Forall_forall in Hall.
  destruct k as [|k]; simpl in Hk |- *.
  - injection Hk as ->.
    rewrite Z.ltb_irrefl. destruct (Z.leb_spec m m); [|lia]. simpl.
    split; [|lia].
    assert (List.filter (fun x => x <? m) s = []) as ->; [|done].
    clear -Hall. induction s as [|y s IH]; simpl; [done|].
    destruct (Z.ltb_spec y m) as [Hlt|_].
    + specialize (Hall y ltac:(left)). lia.
    + apply IH. intros z Hz. apply Hall. by right.
  - destruct (IH k Hk) as [H1 H2].
    assert (x ≤ m) as Hxm by (apply Hall; by eapply list_elem_of_lookup_2).
    destruct (Z.leb_spec x m); [|lia]. simpl.
    destruct (x <? m); simpl; lia.
Qed.

(** X1: the median does not depend on the order of the samples. *)
Theorem median_of_permutation (lst lst' : list Z) :
  lst ≡ₚ lst' → median lst = median lst'.
Proof.
  intros Hp. unfold median.
  rewrite (sorted_unique lst' (sorted lst)); [done|apply sorted_Sorted|].
  by rewrite sorted_Permutation.
Qed.

(** X2: [median] returns [m] exactly when at most half of the samples,
    [len // 2] of them, are strictly below [m] and more than that are at
    most [m]; in particular an empty list has no median. *)
Theorem median_splits_the_samples (lst : list Z) (m : Z) :
  median lst = Ok m ↔
  (count_below m lst ≤ length lst / 2)%nat
  ∧ (length lst / 2 < count_at_most m lst)%nat.
Proof.
  assert (∀ v, count_below v lst = count_below v (sorted lst)) as Hb.
  { intros v. apply filter_length_Permutation. by rewrite sorted_Permutation. }
  assert (∀ v, count_at_most v lst = count_at_most v (sorted lst)) as Ha.
  { intros v. apply filter_length_Permutation. by rewrite sorted_Permutation. }
  assert (StronglySorted Z.le (sorted lst)) as Hs.
  { apply Sorted_StronglySorted; [intros ???; lia|apply sorted_Sorted]. }
  rewrite median_lookup, Hb, Ha. unfold py_index. split.
  - destruct (sorted lst !! (length lst / 2)%nat) as [v|] eqn:Hv; [|done].
    intros [= ->]. by apply sorted_rank.
  - intros [H1 H2].
    destruct (sorted lst !! (length lst / 2)%nat) as [v|] eqn:Hv.
    + destruct (sorted_rank _ _ _ Hs Hv) as [H3 H4]. f_equal.
      destruct (Z.lt_trichotomy v m) as [Hlt|[->|Hgt]]; [|done|]; exfalso.
      * assert (count_at_most v (sorted lst) ≤ count_below m (sorted lst))%nat; [|lia].
        unfold count_at_most, count_below. clear -Hlt.
        induction (sorted lst) as [|y s IH]; simpl; [done|].
        destruct (Z.leb_spec y v), (Z.ltb_spec y m); simpl; lia.
      * assert (count_at_most m (sorted lst) ≤ count_below v (sorted lst))%nat; [|lia].
        unfold count_at_most, count_below. clear -Hgt.
        induction (sorted lst) as [|y s IH]; simpl; [done|].
        destruct (Z.leb_spec y m), (Z.ltb_spec y v); simpl; lia.
    + exfalso. apply lookup_ge_None in Hv. rewrite sorted_length in Hv.
      rewrite <- Ha in H2. destruct lst as [|x lst]; [vm_compute in H2; lia|].
      assert (length (x :: lst) / 2 < length (x :: lst))%nat; [|lia].
      apply Nat.div_lt; simpl; lia.
Qed.

(** ** Programs confined to the log

    The harness but for the last lines of a suite: nothing is stored in
    [results] and nothing is dumped. *)

Section Confined.

Variable env : Env.
Variable ok : Call → bool.
Variable E : Exn → Prop.

Lemma extends_refl s : extends ok s s.
Proof. by exists []. Qed.

Lemma extends_trans s1 s2 s3 :
  extends ok s1 s2 → extends ok s2 s3 → extends ok s1 s3.
Proof.
  intros (e1 & H1 & F1) (e2 & H2 & F2). exists (e2 ++ e1). split.
  - by rewrite H2, H1, app_assoc.
  - by apply Forall_app.
Qed.

Lemma extends_cons s s' e rs :
  extends ok s s' → kept ok e = true → extends ok s (mkState (e :: log s') rs).
Proof.
  intros (evs & H & F) He. exists (e :: evs). split.
  - simpl. by rewrite H.
  - by constructor.
Qed.

Lemma extends_results s s' rs :
  extends ok s s' → extends ok s (mkState (log s') rs).
Proof. intros (evs & H & F). by exists evs. Qed.

Lemma confined_outcome {A} (P : A → Prop) (m : M A) s :
  confined ok E P m → match (m s).1 with Ok a => P a | Raise e => E e end.
Proof. intros H. apply H. Qed.

Lemma confined_ret {A} (P : A → Prop) a : P a → confined ok E P (ret a).
Proof. intros Ha s. split_and!; [apply extends_refl|done|done]. Qed.

Lemma confined_raise {A} (P : A → Prop) e : E e → confined ok E P (raise e).
Proof. intros He s. split_and!; [apply extends_refl|done|done]. Qed.

Lemma confined_lift {A} (P : A → Prop) (o : Outcome A) :
  match o with Ok a => P a | Raise e => E e end → confined ok E P (lift o).
Proof. intros Ho s. split_and!; [apply extends_refl|done|done]. Qed.

Lemma confined_bind {A B} (P : A → Prop) (Q : B → Prop) (m : M A) (k : A → M B) :
  confined ok E P m → (∀ a, P a → confined ok E Q (k a)) →
  confined ok E Q (bind m k).
Proof.
  intros Hm Hk s. unfold bind. destruct (Hm s) as (H1 & H2 & H3).
  destruct (m s) as [[a|e] s1]; simpl in *; [|done].
  destruct (Hk a H3 s1) as (H4 & H5 & H6). split_and!; [|congruence|done].
  by eapply extends_trans.
Qed.

Lemma confined_call c :
  ok c = true → E EngineError → confined ok E (fun _ => True) (call env c).
Proof.
  intros Hc HE s. unfold call. destruct (respond env (log s) c); simpl;
    (split_and!; [by apply extends_cons; [apply extends_refl|]|done|done]).
Qed.

Lemma confined_call_ c :
  ok c = true → E EngineError → confined ok E (fun _ => True) (call_ env c).
Proof.
  intros Hc HE. eapply confined_bind; [by apply confined_call|].
  intros. by apply confined_ret.
Qed.

Lemma confined_clock : confined ok E (fun _ => True) (time_perf_counter env).
Proof.
  intros s. unfold time_perf_counter. simpl.
  split_and!; [by apply extends_cons; [apply extends_refl|]|done|done].
Qed.

Lemma confined_print line : confined ok E (fun _ => True) (print line).
Proof.
  intros s. unfold print, emit. simpl.
  split_and!; [by apply extends_cons; [apply extends_refl|]|done|done].
Qed.

Lemma confined_get_results : confined ok E (fun _ => True) get_results.
Proof. intros s. split_and!; [apply extends_refl|done|done]. Qed.

Lemma confined_try_finally {A} (P : A → Prop) (body : M A) handler :
  confined ok E P body → confined ok E (fun _ => True) handler →
  confined ok E P (try_finally body handler).
Proof.
  intros Hb Hh s. unfold try_finally. destruct (Hb s) as (H1 & H2 & H3).
  destruct (body s) as [[a|e] s1]; simpl in *;
    destruct (Hh s1) as (H4 & H5 & H6);
    destruct (handler s1) as [[[]|e'] s2]; simpl in *;
    (split_and!; [by eapply extends_trans|congruence|done]).
Qed.

Lemma confined_repeat_m n body :
  confined ok E (fun _ => True) body →
  confined ok E (fun _ => True) (repeat_m n body).
Proof.
  intros Hb. induction n as [|n IH]; simpl; [by apply confined_ret|].
  eapply confined_bind; [exact Hb|]. by intros.
Qed.

Lemma confined_for_range n body :
  confined ok E (fun _ => True) body →
  confined ok E (fun _ => True) (for_range n body).
Proof. apply confined_repeat_m. Qed.

Lemma confined_iterate_m {A} (I : nat → A → Prop) n (body : A → M A) acc :
  I O acc →
  (∀ i a, (i < n)%nat → I i a → confined ok E (I (S i)) (body a)) →
  confined ok E (I n) (iterate_m n body acc).
Proof.
  revert I acc. induction n as [|n IH]; intros I acc H0 Hb; simpl.
  - by apply confined_ret.
  - eapply confined_bind; [apply (Hb O); [lia|done]|].
    intros a Ha. apply (IH (fun i => I (S i))); [done|].
    intros i a' Hi. apply Hb. lia.
Qed.

Lemma confined_map_m {A B} (f : A → M B) xs :
  (∀ x, confined ok E (fun _ => True) (f x)) →
  confined ok E (fun ys => length ys = length xs) (map_m f xs).
Proof.
  intros Hf. induction xs as [|x xs IH]; simpl; [by apply confined_ret|].
  eapply confined_bind; [apply Hf|]. intros y _.
  eapply confined_bind; [apply IH|]. intros ys Hys.
  apply confined_ret. simpl. by rewrite Hys.
Qed.

Lemma confined_for_each {A} (xs : list A) (f : A → M unit) :
  (∀ x, x ∈ xs → confined ok E (fun _ => True) (f x)) →
  confined ok E (fun _ => True) (for_each xs f).
Proof.
  induction xs as [|x xs IH]; intros Hf; simpl; [by apply confined_ret|].
  eapply confined_bind; [apply Hf; by left|]. intros _ _.
  apply IH. intros y Hy. apply Hf. by right.
Qed.

(** The samples of a measured loop have a median unless there is none. *)
Lemma confined_median (n_iter : Z) times :
  (n_iter ≤ 0 → E IndexError) → length times = Z.to_nat n_iter →
  confined ok E (fun _ => 0 < n_iter) (lift (median times)).
Proof.
  intros HI Hlen. apply confined_lift.
  destruct (median times) as [ms|e] eqn:Hmed.
  - destruct times; [done|]. simpl in Hlen. lia.
  - apply median_raises in Hmed as [-> ->]. apply HI. simpl in Hlen. lia.
Qed.

(** The step of a proof by weakest preconditions through a confined
    program. *)
Lemma wp_confined {A B} (P : A → Prop) (m : M A) (k : A → M B) Q s0 s :
  confined ok E P m → extends ok s0 s → results s = results s0 →
  (∀ a s', P a → extends ok s0 s' → results s' = results s0 → wp (k a) Q s') →
  (∀ e s', E e → extends ok s0 s' → results s' = results s0 → Q (Raise e) s') →
  wp (bind m k) Q s.
Proof.
  intros Hm Hext Hres Hk Hraise. unfold wp, bind.
  destruct (Hm s) as (H1 & H2 & H3).
  destruct (m s) as [[a|e] s1]; simpl in *.
  - apply Hk; [done|by eapply extends_trans|congruence].
  - apply Hraise; [done|by eapply extends_trans|congruence].
Qed.

End Confined.

Lemma confined_mono {A} ok (E E' : Exn → Prop) (P P' : A → Prop) (m : M A) :
  confined ok E P m → (∀ e, E e → E' e) → (∀ a, P a → P' a) →
  confined ok E' P' m.
Proof.
  intros Hm HE HP s. destruct (Hm s) as (H1 & H2 & H3). split_and!; [done..|].
  destruct (m s).1; auto.
Qed.

Lemma extends_any ok s s' : extends ok s s' → extends any_call s s'.
Proof.
  intros (evs & H & F). exists evs. split; [done|].
  eapply Forall_impl; [exact F|]. by intros [c ret|t|line|path doc].
Qed.

(** Side conditions: the call is let through, the exception is expected. *)
Ltac let_through :=
  first [ reflexivity
        | match goal with
          | H : ∀ c, is_destroy c = false → ?ok c = true |- ?ok _ = true =>
              apply H; reflexivity
          end ].

Ltac engine_fault := cbv beta; first [assumption | reflexivity | by left | done].

Ltac confined_step :=
  lazymatch goal with
  | |- confined _ _ _ (bind (map_m _ _) _) =>
      eapply confined_bind; [apply confined_map_m; intros ?|intros ? ?]
  | |- confined _ _ _ (bind (lift (median _)) _) =>
      eapply confined_bind; [eapply confined_median; [eassumption|eassumption]
                            |intros ? ?]
  | |- confined _ _ _ (bind (iterate_m _ _ _) _) => fail
  | |- confined _ _ _ (bind (teide_warmup _ _ _) _) => fail
  | |- confined _ _ _ (bind (teide_measure _ _ _ _) _) => fail
  | |- confined _ _ _ (bind (for_range _ _) _) =>
      eapply confined_bind with (P := fun _ => True);
      [apply confined_for_range|intros ? _]
  | |- confined _ _ _ (bind _ _) =>
      eapply confined_bind with (P := fun _ => True); [|intros ? _]
  | |- confined _ _ _ (call _ _) =>
      apply confined_call; [let_through|engine_fault]
  | |- confined _ _ _ (call_ _ _) =>
      apply confined_call_; [let_through|engine_fault]
  | |- confined _ _ _ (duckdb_thunk _ _) =>
      apply confined_call_; [let_through|engine_fault]
  | |- confined _ _ _ (time_perf_counter _) => apply confined_clock
  | |- confined _ _ _ (print _) => apply confined_print
  | |- confined _ _ _ (print_query_line _ _ _) => apply confined_print
  | |- confined _ _ _ get_results => apply confined_get_results
  | |- confined _ _ _ (ret _) => apply confined_ret
  end.

(** A call and what follows it. *)
Ltac confined_call := confined_step; [confined_step|].

Section Runs.

Variable env : Env.
Variable ok : Call → bool.
Variable E : Exn → Prop.
Hypothesis queries_pass : ∀ c, is_destroy c = false → ok c = true.
Hypothesis engine_faults : E EngineError.

Lemma confined_release_if_owned r :
  confined ok E (fun _ => True) (release_if_owned env r).
Proof.
  unfold release_if_owned.
  destruct (owned r); [confined_step|by apply confined_ret].
Qed.

Lemma confined_measured_loop {B} (thunk : M B) n :
  confined ok E (fun _ => True) thunk →
  confined ok E (fun times : list Z => length times = n)
    (iterate_m n (fun times =>
       t0 <- time_perf_counter env ;;
       thunk ;;
       t1 <- time_perf_counter env ;;
       ret (times ++ [elapsed_ms t0 t1])) []).
Proof.
  intros Ht.
  apply (confined_iterate_m _ _ (fun i (times : list Z) => length times = i));
    [done|].
  intros i times _ Hlen. repeat confined_step; [exact Ht|].
  rewrite length_app. simpl. lia.
Qed.

Lemma confined_bench_duckdb_run label sql n_iter :
  (n_iter ≤ 0 → E IndexError) →
  confined ok E (fun _ => 0 < n_iter) (bench_duckdb_run env label sql n_iter).
Proof.
  intros HI. unfold bench_duckdb_run.
  confined_step; [confined_step|].
  eapply confined_bind; [apply (confined_measured_loop (duckdb_thunk env sql));
                         confined_step|].
  intros times Hlen. repeat confined_step. done.
Qed.

Lemma confined_polars_measure (query_fn : M Z) n_iter :
  confined ok E (fun _ => True) query_fn →
  (n_iter ≤ 0 → E IndexError) →
  confined ok E (fun _ => 0 < n_iter) (polars_measure env query_fn n_iter).
Proof.
  intros Hq HI. unfold polars_measure.
  confined_step; [repeat confined_step; first [exact Hq|done]|].
  eapply confined_bind; [by apply (confined_measured_loop query_fn)|].
  intros times Hlen. by eapply confined_median.
Qed.

Lemma confined_bench_polars_run df label (query_fn : Z → M Z) n_iter :
  (∀ d, confined ok E (fun _ => True) (query_fn d)) →
  (n_iter ≤ 0 → E IndexError) →
  confined ok E (fun _ => 0 < n_iter)
    (bench_polars_run env df label query_fn n_iter).
Proof.
  intros Hq HI. unfold bench_polars_run.
  eapply confined_bind; [by apply confined_polars_measure|].
  intros ms Hn. by repeat confined_step.
Qed.

Lemma confined_teide_warmup g root :
  confined ok E (fun _ => True) (teide_warmup env g root).
Proof.
  unfold teide_warmup. apply confined_for_range.
  confined_call. apply confined_release_if_owned.
Qed.

Lemma confined_teide_measure g root n_iter :
  confined ok E (fun times => length times = Z.to_nat n_iter)
    (teide_measure env g root n_iter).
Proof.
  unfold teide_measure.
  apply (confined_iterate_m _ _ (fun i (times : list Z) => length times = i));
    [done|].
  intros i times _ Hlen.
  confined_call. confined_call. confined_call.
  confined_step; [apply confined_release_if_owned|].
  confined_step. rewrite length_app. simpl. lia.
Qed.

Lemma confined_teide_query {A} (f : Z → A) g root label n_iter :
  (n_iter ≤ 0 → E IndexError) →
  confined ok E (fun _ => 0 < n_iter)
    (teide_warmup env g root ;;
     times <- teide_measure env g root n_iter ;;
     ms <- lift (median times) ;;
     print_query_line env label ms ;;
     ret (f ms)).
Proof.
  intros HI.
  eapply confined_bind; [apply confined_teide_warmup|]. intros _ _.
  eapply confined_bind; [apply confined_teide_measure|]. intros times Hlen.
  by repeat confined_step.
Qed.

Lemma c_array_exact cell items :
  ∃ arr, c_array cell (length items) items = Ok arr.
Proof. unfold c_array. rewrite Nat.ltb_irrefl. by eexists. Qed.

Lemma confined_run_groupby tbl label key_names agg_ops agg_col_names n_iter :
  (n_iter ≤ 0 ∨ (length agg_ops < length agg_col_names)%nat → E IndexError) →
  confined ok E
    (fun _ => 0 < n_iter ∧ (length agg_col_names ≤ length agg_ops)%nat)
    (run_groupby env tbl label key_names agg_ops agg_col_names n_iter).
Proof.
  intros HI. unfold run_groupby. confined_call.
  apply confined_try_finally; [|confined_step].
  confined_step; [confined_step|]. rename H into Hkeys.
  confined_step; [confined_step|]. rename H into Hins.
  destruct (c_array_exact c_void_p a0) as [keys_arr ->].
  destruct (c_array_exact c_uint16 agg_ops) as [ops_arr ->].
  eapply confined_bind with (P := fun _ => True);
    [by apply confined_lift|intros ? _].
  eapply confined_bind with (P := fun _ => True);
    [by apply confined_lift|intros ? _].
  unfold c_array at 1. rewrite Hins.
  destruct (Nat.ltb_spec (length agg_ops) (length agg_col_names)) as [Hlt|Hge].
  { eapply confined_bind with (P := fun _ => False);
      [apply confined_lift; apply HI; by right|].
    intros ? []. }
  eapply confined_bind with (P := fun _ => True);
    [by apply confined_lift|intros ? _].
  do 2 confined_call.
  eapply confined_mono;
    [apply (confined_teide_query (fun ms => ms)); intros; apply HI; by left
    |done|]. by intros.
Qed.

Lemma confined_run_sort tbl label col_names descs n_iter :
  (n_iter ≤ 0 → E IndexError) →
  confined ok E (fun _ => 0 < n_iter)
    (run_sort env tbl label col_names descs n_iter).
Proof.
  intros HI. unfold run_sort. confined_call.
  apply confined_try_finally; [|confined_step].
  confined_call.
  confined_step; [confined_step|].
  do 2 confined_call.
  by apply (confined_teide_query (fun ms => ms)).
Qed.

Lemma confined_bench_teide_join x y res :
  confined ok E (fun res' => ∃ ms, res' = <["j1" := ms]> res)
    (bench_teide_join env x y res).
Proof.
  unfold bench_teide_join. confined_call.
  apply confined_try_finally; [|confined_step].
  do 2 confined_call.
  confined_step; [confined_step|].
  confined_step; [repeat confined_step|].
  do 2 confined_call.
  eapply confined_bind; [apply confined_teide_warmup|]. intros _ _.
  eapply confined_bind; [apply confined_teide_measure|]. intros times Hlen.
  eapply confined_bind;
    [eapply (confined_median _ _ N_ITER_JOIN);
       [unfold N_ITER_JOIN; lia|eassumption]|].
  intros ms _. confined_step; [confined_step|].
  apply confined_ret. cbv beta. by exists ms.
Qed.

End Runs.

Lemma complete_inserts (q1 q2 q3 q5 q7 s1 s6 j1 : Z) :
  complete (<["j1" := j1]> (<["s6" := s6]> (<["s1" := s1]> (<["q7" := q7]>
    (<["q5" := q5]> (<["q3" := q3]> (<["q2" := q2]> (<["q1" := q1]> ∅)))))))).
Proof.
  unfold complete, queries.
  repeat (constructor; [simpl;
    repeat (apply lookup_insert_is_Some'; first [by left|right])|]).
  constructor.
Qed.

Ltac extends_chain :=
  solve [repeat first [assumption | apply extends_refl
                      | eapply extends_trans; [eassumption|]]].

Ltac run_side :=
  solve [ assumption | reflexivity
        | unfold N_ITER, N_ITER_JOIN; simpl; lia
        | intros ?; confined_step
        | confined_step ].

(** One statement of a suite, run between [s0] and the current state;
    [fin] closes the goal of a statement that raised. *)
Ltac suite_step filter start fin :=
  lazymatch goal with
  | |- wp (bind (set_result _ _) _) _ _ => fail
  | |- wp (bind (bench_teide_join _ _ _ _) _) _ _ =>
      eapply wp_confined with (ok := filter) (E := fun e => e = EngineError)
                              (s0 := start);
      [ apply confined_bench_teide_join; run_side
      | eassumption | eassumption
      | let H := fresh in
        intros ? ? H ? ?; cbv beta in H; destruct H as [? ->]
      | let H := fresh in intros ? ? H ? ?; cbv beta in H; subst; fin ]
  | |- wp (bind _ _) _ _ =>
      eapply wp_confined with (ok := filter) (E := fun e => e = EngineError)
                              (s0 := start);
      [ first
          [ apply confined_bench_duckdb_run; run_side
          | apply confined_bench_polars_run; run_side
          | apply confined_polars_measure; run_side
          | apply confined_run_groupby; run_side
          | apply confined_run_sort; run_side
          | confined_step ]
      | eassumption | eassumption
      | intros ? ? _ ? ?
      | let H := fresh in intros ? ? H ? ?; cbv beta in H; subst; fin ]
  end.

Ltac suite_failed := split; [assumption|split; [reflexivity|assumption]].

Section Suites.

Variable env : Env.
Variable ok : Call → bool.
Hypothesis queries_pass : ∀ c, is_destroy c = false → ok c = true.

(** An exception anywhere before [con.close()]: the connection was not
    closed. *)
Lemma close_bench_duckdb s :
  wp (bench_duckdb env) (fun o s' =>
    ∀ e, o = Raise e →
      extends ok s s' ∨ ∃ l, log s' = EvCall ConClose None :: l) s.
Proof.
  pose proof (extends_refl ok s) as Hext.
  pose proof (eq_refl (results s)) as Hres.
  unfold bench_duckdb.
  repeat lazymatch goal with
         | |- wp (bind (call_ _ ConClose) _) _ _ => fail
         | |- _ => suite_step ok s ltac:(intros ? _; by left)
         end.
  apply wp_bind, wp_call_; wp_simpl; [|intros ? _; right; by eexists].
  do 3 (apply wp_bind, wp_set_result; wp_simpl). by apply wp_ret.
Qed.

(** An exception anywhere before the teardown of the native suite: no
    call of the teardown was made. *)
Lemma teardown_bench_teide s :
  wp (bench_teide env) (fun o s' =>
    ∀ e, o = Raise e →
      extends ok s s'
      ∨ ∃ c l, log s' = EvCall c None :: l ∧ is_teardown c = true) s.
Proof.
  pose proof (extends_refl ok s) as Hext.
  pose proof (eq_refl (results s)) as Hres.
  unfold bench_teide.
  repeat lazymatch goal with
         | |- wp (bind (call_ _ (Release _)) _) _ _ => fail
         | |- _ => suite_step ok s ltac:(intros ? _; by left)
         end.
  repeat (apply wp_bind, wp_call_; wp_simpl;
          [|intros ? _; right; by eexists _, _]).
  apply wp_bind, wp_set_result. wp_simpl. by apply wp_ret.
Qed.

End Suites.

Section Main.

Variable env : Env.

Lemma any_call_passes : ∀ c, is_destroy c = false → any_call c = true.
Proof. done. Qed.

Lemma results_bench_duckdb s :
  wp (bench_duckdb env) (fun o s' =>
    extends any_call s s' ∧
    match o with
    | Ok res =>
        complete res ∧ ∃ n,
          results s' =
            <["duckdb_threads" := ENumber n]>
              (<["duckdb_version" := EText (duckdb_version env)]>
                 (<["duckdb" := EMedians res]> (results s)))
    | Raise e => e = EngineError ∧ results s' = results s
    end) s.
Proof.
  pose proof (extends_refl any_call s) as Hext.
  pose proof (eq_refl (results s)) as Hres.
  pose proof any_call_passes as Hpass.
  unfold bench_duckdb.
  repeat suite_step any_call s suite_failed.
  do 3 (apply wp_bind, wp_set_result; wp_simpl). apply wp_ret.
  split; [by apply extends_results|].
  split; [apply complete_inserts|]. eexists. cbn [results].
  by f_equal; f_equal; f_equal.
Qed.

Lemma results_bench_polars s :
  wp (bench_polars env) (fun o s' =>
    extends any_call s s' ∧
    match o with
    | Ok res =>
        complete res
        ∧ results s' =
            <["polars_version" := EText (polars_version env)]>
              (<["polars" := EMedians res]> (results s))
    | Raise e => e = EngineError ∧ results s' = results s
    end) s.
Proof.
  pose proof (extends_refl any_call s) as Hext.
  pose proof (eq_refl (results s)) as Hres.
  pose proof any_call_passes as Hpass.
  unfold bench_polars.
  repeat suite_step any_call s suite_failed.
  do 2 (apply wp_bind, wp_set_result; wp_simpl). apply wp_ret.
  split; [by apply extends_results|].
  split; [apply complete_inserts|]. cbn [results]. by f_equal; f_equal.
Qed.

Lemma results_bench_teide s :
  wp (bench_teide env) (fun o s' =>
    extends any_call s s' ∧
    match o with
    | Ok res =>
        complete res
        ∧ results s' = <["teide" := EMedians res]> (results s)
    | Raise e => e = EngineError ∧ results s' = results s
    end) s.
Proof.
  pose proof (extends_refl any_call s) as Hext.
  pose proof (eq_refl (results s)) as Hres.
  pose proof any_call_passes as Hpass.
  unfold bench_teide.
  repeat suite_step any_call s suite_failed.
  apply wp_bind, wp_set_result; wp_simpl. apply wp_ret.
  split; [by apply extends_results|].
  split; [apply complete_inserts|]. cbn [results]. by f_equal.
Qed.

Lemma confined_check_datasets :
  confined any_call (fun e => e = SystemExit 1) (fun _ => True)
    (check_datasets env).
Proof.
  unfold check_datasets. apply confined_for_each. intros path _.
  destruct (path_exists env path); simpl; [by apply confined_ret|].
  eapply confined_bind with (P := fun _ => True); [apply confined_print|].
  intros _ _. by apply confined_raise.
Qed.

Lemma confined_print_summary :
  confined any_call (fun _ => True) (fun _ => True) (print_summary env).
Proof.
  unfold print_summary.
  do 5 (eapply confined_bind with (P := fun _ => True);
        [apply confined_print|intros _ _]).
  apply confined_for_each. intros q _.
  eapply confined_bind with (P := fun _ => True);
    [apply confined_get_results|intros rs _].
  eapply confined_bind with (P := fun _ => True);
    [|intros row _; apply confined_print].
  apply confined_lift. by destruct (summary_row env rs q).
Qed.

(** The whole run. *)
Lemma main_spec s :
  wp (main env) (fun o s' =>
    match o with
    | Ok _ =>
        ∃ rt rd rp l,
          results s' !! "teide" = Some (EMedians rt)
          ∧ results s' !! "duckdb" = Some (EMedians rd)
          ∧ results s' !! "polars" = Some (EMedians rp)
          ∧ complete rt ∧ complete rd ∧ complete rp
          ∧ log s' =
              EvPrint (nl +:+ "Results saved to "
                       +:+ path_join (SCRIPT_DIR env) "results.json")
              :: EvDump (path_join (SCRIPT_DIR env) "results.json") (results s')
              :: l
          ∧ extends any_call s (mkState l (results s'))
    | Raise e => (e = EngineError ∨ e = SystemExit 1) ∧ extends any_call s s'
    end) s.
Proof.
  unfold main.
  eapply wp_confined with (ok := any_call) (E := fun e => e = SystemExit 1)
                          (s0 := s);
    [apply confined_check_datasets|apply extends_refl|done| |];
    [|intros e s1 -> H1 R1; split; [by right|done]].
  intros _ s1 _ H1 R1.
  apply wp_bind. eapply wp_mono;
    [apply results_bench_duckdb|].
  intros [rd|e] s2 [H2 R2]; wp_simpl;
    [|destruct R2 as [-> R2]; split; [by left|extends_chain]].
  destruct R2 as (Cd & n & R2).
  apply wp_bind. eapply wp_mono;
    [apply results_bench_polars|].
  intros [rp|e] s3 [H3 R3]; wp_simpl;
    [|destruct R3 as [-> R3]; split; [by left|extends_chain]].
  destruct R3 as (Cp & R3).
  apply wp_bind. eapply wp_mono; [apply results_bench_teide|].
  intros [rt|e] s4 [H4 R4]; wp_simpl;
    [|destruct R4 as [-> R4]; split; [by left|extends_chain]].
  destruct R4 as (Ct & R4).
  assert (results s4 !! "teide" = Some (EMedians rt)
          ∧ results s4 !! "duckdb" = Some (EMedians rd)
          ∧ results s4 !! "polars" = Some (EMedians rp)) as (Et & Ed & Ep).
  { rewrite R4, R3, R2. split_and!.
    - by rewrite lookup_insert_eq.
    - rewrite !lookup_insert_ne by done. by rewrite lookup_insert_eq.
    - rewrite !lookup_insert_ne by done. by rewrite lookup_insert_eq. }
  assert (extends any_call s s4) as H04 by extends_chain.
  pose proof (print_summary_returns env s4) as Hok.
  destruct (confined_print_summary s4) as (H5 & R5 & _).
  unfold wp, bind.
  destruct (print_summary env s4) as [[[]|e] s5]; simpl in *.
  2: { exfalso. assert (Raise e = Ok ()) as [=]. apply Hok; right; by eexists. }
  unfold save_results, bind, get_results, emit, print, emit. simpl.
  exists rt, rd, rp, (log s5). rewrite R5.
  split_and!; try done.
  apply extends_results. by eapply extends_trans.
Qed.

End Main.

(** ** Failures of the harness *)

Ltac leaked := intros ? _; left; by eexists _, _.

Ltac leaked_call lem :=
  eapply wp_mono; [eapply lem; eexists; eassumption|];
  let H := fresh "Hs" in
  intros [?|?] ? (? & H); wp_simpl; [|leaked].

Lemma released_bench_teide env cols L Rl s :
  borrows (log s) = Some (mkBorrows None [] cols L Rl) →
  wp (bench_teide env) (fun o s' =>
    ∀ e, o = Raise e →
      (∃ cols' L', borrows (log s') = Some (mkBorrows None [] cols' L' Rl))
      ∨ ∃ c l, log s' = EvCall c None :: l ∧ is_teardown c = true) s.
Proof.
  intros Hs. unfold bench_teide.
  repeat obs_step borrows_cons leaked.
  do 5 (leaked_call borrows_run_groupby; repeat obs_step borrows_cons leaked).
  do 2 (leaked_call borrows_run_sort; repeat obs_step borrows_cons leaked).
  leaked_call borrows_bench_teide_join.
  repeat (apply wp_bind, wp_call_; wp_simpl;
          [|intros ? _; right; by eexists _, _]).
  apply wp_bind, wp_set_result. wp_simpl. by apply wp_ret.
Qed.

(** X3: with [n_iter] at most 0 a measurement never returns, in any of the
    three engines: the warm-up runs, no sample is taken and the median
    of no sample raises [IndexError], unless an engine raised before. *)
Theorem a_query_needs_an_iteration (env : Env) (label sql : string)
    (df tbl : Z) (c : Z → Call) (key_names : list string) (agg_ops : list Z)
    (agg_col_names : list string) (descs : list Z) (n_iter : Z) (s : State) :
  n_iter ≤ 0 →
  raises_one_of (bench_duckdb_run env label sql n_iter s).1
    [IndexError; EngineError]
  ∧ raises_one_of
      (bench_polars_run env df label (fun d => call env (c d)) n_iter s).1
      [IndexError; EngineError]
  ∧ raises_one_of
      (run_groupby env tbl label key_names agg_ops agg_col_names n_iter s).1
      [IndexError; EngineError]
  ∧ raises_one_of (run_sort env tbl label key_names descs n_iter s).1
      [IndexError; EngineError].
Proof.
  intros Hn.
  set (E := fun e => e = EngineError ∨ e = IndexError).
  assert (∀ (o : Outcome Z),
            match o with Ok _ => 0 < n_iter | Raise e => E e end →
            raises_one_of o [IndexError; EngineError]) as Hfin.
  { intros [ms|e]; [lia|]. intros [->| ->]; eexists; (split; [done|]);
      apply list_elem_of_In; simpl; auto. }
  split_and!; apply Hfin.
  - apply (confined_outcome any_call E), confined_bench_duckdb_run;
      [done|by left|by right].
  - apply (confined_outcome any_call E), confined_bench_polars_run; [|by right].
    intros d. apply confined_call; [done|by left].
  - eapply (confined_outcome any_call E), confined_mono;
      [apply (confined_run_groupby env any_call E); [done|by left|by right]
      |done|].
    by intros ? [? _].
  - apply (confined_outcome any_call E), confined_run_sort;
      [done|by left|by right].
Qed.

(** X4: with more aggregated columns than operators [run_groupby] never
    returns: the array of inputs has one cell per operator, and filling
    it raises [IndexError], unless the engine raised before. *)
Theorem run_groupby_needs_an_operator_per_column (env : Env) (tbl : Z)
    (label : string) (key_names : list string) (agg_ops : list Z)
    (agg_col_names : list string) (n_iter : Z) (s : State) :
  (length agg_ops < length agg_col_names)%nat →
  raises_one_of
    (run_groupby env tbl label key_names agg_ops agg_col_names n_iter s).1
    [IndexError; EngineError].
Proof.
  intros Hlen.
  pose proof (confined_outcome any_call
    (fun e => e = EngineError ∨ e = IndexError) _ _ s
    (confined_run_groupby env any_call _ (fun _ _ => eq_refl)
       (or_introl eq_refl) tbl label key_names
       agg_ops agg_col_names n_iter (fun _ => or_intror eq_refl))) as H.
  destruct (run_groupby _ _ _ _ _ _ _ s).1 as [ms|e]; [lia|].
  destruct H as [->| ->]; eexists; (split; [done|]);
    apply list_elem_of_In; simpl; auto.
Qed.

(** X5: a suite stores its results only when it returns.  A suite that
    returns has put in [results], under the name of its engine, the
    dictionary it returns, which has a median for every query (DuckDB
    and Polars add their version, DuckDB its thread count); a suite that
    raises leaves [results] as it was, and what it raises is the
    exception of an engine.  Either way it dumps no result file. *)
Theorem a_suite_stores_its_medians_on_return (env : Env) (s : State) :
  (extends any_call s (bench_duckdb env s).2
   ∧ match (bench_duckdb env s).1 with
     | Ok res =>
         complete res ∧ ∃ n,
           results (bench_duckdb env s).2 =
             <["duckdb_threads" := ENumber n]>
               (<["duckdb_version" := EText (duckdb_version env)]>
                  (<["duckdb" := EMedians res]> (results s)))
     | Raise e => e = EngineError ∧ results (bench_duckdb env s).2 = results s
     end)
  ∧ (extends any_call s (bench_polars env s).2
     ∧ match (bench_polars env s).1 with
       | Ok res =>
           complete res
           ∧ results (bench_polars env s).2 =
               <["polars_version" := EText (polars_version env)]>
                 (<["polars" := EMedians res]> (results s))
       | Raise e => e = EngineError ∧ results (bench_polars env s).2 = results s
       end)
  ∧ (extends any_call s (bench_teide env s).2
     ∧ match (bench_teide env s).1 with
       | Ok res =>
           complete res
           ∧ results (bench_teide env s).2
             = <["teide" := EMedians res]> (results s)
       | Raise e => e = EngineError ∧ results (bench_teide env s).2 = results s
       end).
Proof.
  split; [exact (results_bench_duckdb env s)|].
  split; [exact (results_bench_polars env s)
         |exact (results_bench_teide env s)].
Qed.


(** X7: a run that returns ends by dumping [results] to [results.json]
    and announcing it; this is its only dump, and the dumped dictionary
    has a median for every query of every engine, so that no cell of the
    summary is N/A for want of an entry. *)
Theorem main_saves_every_median (env : Env) (s : State) :
  (main env s).1 = Ok tt →
  ∃ l, log (main env s).2 =
         EvPrint (nl +:+ "Results saved to "
                  +:+ path_join (SCRIPT_DIR env) "results.json")
         :: EvDump (path_join (SCRIPT_DIR env) "results.json")
                   (results (main env s).2)
         :: l
       ∧ extends any_call s (mkState l (results (main env s).2))
       ∧ ∀ engine q, engine ∈ ["teide"; "duckdb"; "polars"] → q ∈ queries →
           ∃ ms, get_median (results (main env s).2) engine q.2 = Ok (Some ms).
Proof.
  intros Hrun. pose proof (main_spec env s) as H. unfold wp in H.
  rewrite Hrun in H.
  destruct H as (rt & rd & rp & l & Et & Ed & Ep & Ct & Cd & Cp & Hlog & Hext).
  exists l. split_and!; [done|done|].
  intros engine q Hengine Hq. unfold get_median, complete in *.
  rewrite Forall_forall in Ct, Cd, Cp.
  apply list_elem_of_In in Hengine. simpl in Hengine.
  destruct Hengine as [<-|[<-|[<-|[]]]].
  - rewrite Et. destruct (Ct q Hq) as [ms ->]. by exists ms.
  - rewrite Ed. destruct (Cd q Hq) as [ms ->]. by exists ms.
  - rewrite Ep. destruct (Cp q Hq) as [ms ->]. by exists ms.
Qed.

(** X8: the teardown of the native suite is not protected.  When
    [bench_teide] raises, either the exception comes from a call of the
    teardown itself, or no table was released and neither [sym_destroy]
    nor [arena_destroy_all] was called: the tables loaded so far stay
    loaded. *)
Theorem a_failed_query_skips_the_teardown (env : Env) (cols : list (Z * Z))
    (L : list (string * Z)) (Rl : list Z) (s : State) (e : Exn) :
  borrows (log s) = Some (mkBorrows None [] cols L Rl) →
  (bench_teide env s).1 = Raise e →
  ((∃ cols' L',
      borrows (log (bench_teide env s).2)
      = Some (mkBorrows None [] cols' L' Rl))
   ∧ extends no_destroy s (bench_teide env s).2)
  ∨ ∃ c l, log (bench_teide env s).2 = EvCall c None :: l
           ∧ is_teardown c = true.
Proof.
  intros Hs Hrun.
  pose proof (released_bench_teide env cols L Rl s Hs e Hrun) as [H1|H1];
    [|by right].
  assert (∀ c, is_destroy c = false → no_destroy c = true) as Hpass.
  { intros c Hc. unfold no_destroy. by rewrite Hc. }
  pose proof (teardown_bench_teide env no_destroy Hpass s e Hrun) as [H2|H2];
    [|by right].
  by left.
Qed.

(** X9: when [bench_duckdb] raises, either [con.close()] itself raised or
    the connection was never closed. *)
Theorem a_failed_query_leaves_the_connection_open (env : Env) (s : State)
    (e : Exn) :
  (bench_duckdb env s).1 = Raise e →
  extends no_destroy s (bench_duckdb env s).2
  ∨ ∃ l, log (bench_duckdb env s).2 = EvCall ConClose None :: l.
Proof.
  intros Hrun.
  assert (∀ c, is_destroy c = false → no_destroy c = true) as Hpass.
  { intros c Hc. unfold no_destroy. by rewrite Hc. }
  exact (close_bench_duckdb env no_destroy Hpass s e Hrun).
Qed.

(** ** The rows of the group-by dataset *)

Lemma string_app_cons a s t : String a s +:+ t = String a (s +:+ t).
Proof. done. Qed.

Lemma string_app_assoc a b c : (a +:+ b) +:+ c = a +:+ (b +:+ c).
Proof.
  induction a as [|x a IH]; [done|]. by rewrite !string_app_cons, IH.
Qed.

Lemma string_app_nil_r a : a +:+ "" = a.
Proof. induction a as [|x a IH]; [done|]. by rewrite string_app_cons, IH. Qed.

Section Rows.

Variable R : PyRandom.
Variable E : Exn → Prop.

Lemma csv_text_app rows1 rows2 :
  csv_text R (rows1 ++ rows2) = csv_text R rows1 +:+ csv_text R rows2.
Proof.
  induction rows1 as [|r rows1 IH]; [done|].
  simpl. by rewrite IH, string_app_assoc.
Qed.

Lemma draws_ret {A} (P : A → Prop) a :
  P a → draws E P (ret (St := GenState R) a).
Proof. by intros Ha st. Qed.

Lemma draws_bind {A B} (P : A → Prop) (Q : B → Prop) (m : G R A)
    (k : A → G R B) :
  draws E P m → (∀ a, P a → draws E Q (k a)) → draws E Q (bind m k).
Proof.
  intros Hm Hk st. unfold bind. destruct (Hm st) as [H1 H2].
  destruct (m st) as [[a|e] st1]; simpl in *; [|done].
  destruct (Hk a H2 st1) as [H3 H4]. split; [congruence|done].
Qed.

Lemma draws_mono {A} (P Q : A → Prop) (m : G R A) :
  draws E P m → (∀ a, P a → Q a) → draws E Q m.
Proof.
  intros Hm HPQ st. destruct (Hm st) as [H1 H2]. split; [done|].
  destruct (m st).1; auto.
Qed.

Lemma draws_randint a b : draws E (fun _ => True) (random_randint R a b).
Proof.
  intros st. unfold random_randint.
  by destruct (randint R a b (random_state R st)).
Qed.

Lemma draws_random : draws E (fun _ => True) (random_random R).
Proof.
  intros st. unfold random_random. by destruct (random R (random_state R st)).
Qed.

Lemma draws_uniform a b : draws E (fun _ => True) (random_uniform R a b).
Proof.
  intros st. unfold random_uniform.
  by destruct (uniform R a b (random_state R st)).
Qed.

(** [random.choice] raises nothing but [IndexError], and does not raise
    on a sequence that is not empty when it draws an index in range. *)
Lemma draws_choice {A} (seq : list A) :
  (seq = [] ∨ ¬ choice_in_range R → E IndexError) →
  draws E (fun x => x ∈ seq) (random_choice R seq).
Proof.
  intros HE st. unfold random_choice.
  destruct seq as [|x seq]; [split; [done|]; apply HE; by left|].
  destruct (choice_index R _ (random_state R st)) as [i r] eqn:Hi.
  destruct ((x :: seq) !! i) as [y|] eqn:Hy; simpl.
  - split; [done|]. by eapply list_elem_of_lookup_2.
  - split; [done|]. apply HE. right. intros Hc.
    apply lookup_ge_None in Hy.
    pose proof (Hc (length (x :: seq)) (random_state R st)) as Hlt.
    rewrite Hi in Hlt. simpl in *. lia.
Qed.

Lemma elem_of_labels w hi s :
  s ∈ map (fun i => "id" +:+ format_0d w i) (py_range 1 (hi + 1)) →
  ∃ i, 1 ≤ i ≤ hi ∧ s = "id" +:+ format_0d w i.
Proof.
  intros Hs. apply list_elem_of_fmap in Hs as (i & -> & Hi).
  exists i. split; [|done].
  unfold py_range in Hi. apply elem_of_seqZ in Hi. lia.
Qed.

Lemma elem_of_py_range i hi : i ∈ py_range 1 (hi + 1) → 1 ≤ i ≤ hi.
Proof. unfold py_range. intros Hi. apply elem_of_seqZ in Hi. lia. Qed.

Lemma py_range_nil hi : py_range 1 (hi + 1) = [] → hi ≤ 0.
Proof.
  unfold py_range. intros H. apply (f_equal length) in H.
  rewrite length_seqZ in H. simpl in H. lia.
Qed.

Lemma labels_nil w hi :
  map (fun i => "id" +:+ format_0d w i) (py_range 1 (hi + 1)) = [] → hi ≤ 0.
Proof. intros H. apply map_eq_nil in H. by apply py_range_nil. Qed.

Lemma draws_draw_row n_rows k na_pct :
  (k ≤ 0 ∨ ¬ choice_in_range R → E IndexError) →
  draws E (group_row R n_rows k na_pct)
    (draw_row R na_pct
       (map (fun i => "id" +:+ format_0d 3 i) (py_range 1 (k + 1)))
       (map (fun i => "id" +:+ format_0d 3 i) (py_range 1 (k + 1)))
       (map (fun i => "id" +:+ format_0d 9 i)
            (py_range 1 (Z.max (n_rows / k) k + 1)))
       (py_range 1 (k + 1)) (py_range 1 (k + 1))
       (py_range 1 (Z.max (n_rows / k) k + 1))).
Proof.
  intros HE.
  assert (∀ w, draws E
    (fun s => s ∈ map (fun i => "id" +:+ format_0d w i) (py_range 1 (k + 1)))
    (random_choice R
       (map (fun i => "id" +:+ format_0d w i) (py_range 1 (k + 1)))))
    as Hlow.
  { intros w. apply draws_choice. intros [H|H]; apply HE; [left|by right].
    by apply labels_nil in H. }
  assert (draws E (fun i => i ∈ py_range 1 (k + 1))
            (random_choice R (py_range 1 (k + 1)))) as Hlow'.
  { apply draws_choice. intros [H|H]; apply HE; [left|by right].
    by apply py_range_nil in H. }
  assert (draws E
    (fun s => s ∈ map (fun i => "id" +:+ format_0d 9 i)
                      (py_range 1 (Z.max (n_rows / k) k + 1)))
    (random_choice R
       (map (fun i => "id" +:+ format_0d 9 i)
            (py_range 1 (Z.max (n_rows / k) k + 1))))) as Hhigh.
  { apply draws_choice. intros [H|H]; apply HE; [left|by right].
    apply labels_nil in H. lia. }
  assert (draws E (fun i => i ∈ py_range 1 (Z.max (n_rows / k) k + 1))
            (random_choice R (py_range 1 (Z.max (n_rows / k) k + 1))))
    as Hhigh'.
  { apply draws_choice. intros [H|H]; apply HE; [left|by right].
    apply py_range_nil in H. lia. }
  unfold draw_row.
  eapply (draws_bind (fun na : bool => na = true → (0 <? na_pct) = true)).
  { destruct (0 <? na_pct) eqn:Hna.
    - eapply draws_bind; [apply draws_randint|]. intros n _. by apply draws_ret.
    - by apply draws_ret. }
  intros [|] Hna.
  - eapply draws_bind; [apply draws_random|]. intros r1 _.
    eapply (draws_bind (label_of 3 k (0 <? na_pct))).
    { destruct (lt_half R r1).
      - apply draws_ret. left. auto.
      - eapply draws_mono; [apply Hlow|].
        intros s Hs. right. by apply elem_of_labels. }
    intros id1 H1.
    eapply draws_bind; [apply draws_random|]. intros r2 _.
    eapply (draws_bind (label_of 3 k (0 <? na_pct))).
    { destruct (lt_half R r2).
      - apply draws_ret. left. auto.
      - eapply draws_mono; [apply Hlow|].
        intros s Hs. right. by apply elem_of_labels. }
    intros id2 H2.
    eapply draws_bind; [apply Hhigh|]. intros id3 H3.
    eapply draws_bind; [apply Hlow'|]. intros id4 H4.
    eapply draws_bind; [apply Hlow'|]. intros id5 H5.
    eapply draws_bind; [apply Hhigh'|]. intros id6 H6.
    eapply draws_bind; [apply draws_randint|]. intros v1 _.
    eapply draws_bind; [apply draws_randint|]. intros v2 _.
    eapply draws_bind; [apply draws_uniform|]. intros v3 _.
    apply elem_of_labels in H3.
    apply elem_of_py_range in H4, H5, H6.
    apply draws_ret. eexists _, _, _, _, _, _, _, _, _.
    split_and!; [done|done|done|by right|lia..].
  - eapply draws_bind; [apply Hlow|]. intros id1 H1.
    eapply draws_bind; [apply Hlow|]. intros id2 H2.
    eapply draws_bind; [apply Hhigh|]. intros id3 H3.
    eapply draws_bind; [apply Hlow'|]. intros id4 H4.
    eapply draws_bind; [apply Hlow'|]. intros id5 H5.
    eapply draws_bind; [apply Hhigh'|]. intros id6 H6.
    eapply draws_bind; [apply draws_randint|]. intros v1 _.
    eapply draws_bind; [apply draws_randint|]. intros v2 _.
    eapply draws_bind; [apply draws_uniform|]. intros v3 _.
    apply elem_of_labels in H1, H2, H3.
    apply elem_of_py_range in H4, H5, H6.
    apply draws_ret. eexists _, _, _, _, _, _, _, _, _.
    split_and!; [done|by right|by right|by right|lia..].
Qed.

Lemma holds_writerow path text P fs rows row st :
  holds path text P fs rows st → P row →
  holds path text P fs (rows ++ [row]) (writerow R path row st).2.
Proof.
  intros [Hf HP] Hrow. split; [|by apply Forall_app; split; [|constructor]].
  unfold writerow, write. simpl. rewrite Hf, lookup_insert_eq. simpl.
  rewrite insert_insert_eq, csv_text_app, string_app_assoc. simpl.
  by rewrite string_app_nil_r.
Qed.

Lemma holds_write_row path text P fs row rows st :
  draws E P row → holds path text P fs rows st →
  match (r <- row ;; writerow R path r) st with
  | (Ok _, st') => ∃ r, holds path text P fs (rows ++ [r]) st'
  | (Raise e, st') => holds path text P fs rows st' ∧ E e
  end.
Proof.
  intros Hrow Hst. unfold bind. destruct (Hrow st) as [Hf Hr].
  destruct (row st) as [[r|e] st1]; simpl in *.
  - exists r. apply (holds_writerow path text P fs rows r st1); [|done].
    destruct Hst as [H1 H2]. split; [congruence|done].
  - destruct Hst as [H1 H2]. split; [|done]. split; [congruence|done].
Qed.

Lemma holds_write_rows path text P fs row n rows st :
  draws E P row → holds path text P fs rows st →
  ∃ rows',
    holds path text P fs (rows ++ rows')
      (repeat_m n (r <- row ;; writerow R path r) st).2
    ∧ match (repeat_m n (r <- row ;; writerow R path r) st).1 with
      | Ok _ => length rows' = n
      | Raise e => (length rows' < n)%nat ∧ E e
      end.
Proof.
  intros Hrow. revert rows st. induction n as [|n IH]; intros rows st Hst.
  { exists []. by rewrite app_nil_r. }
  pose proof (holds_write_row path text P fs row rows st Hrow Hst) as Hstep.
  set (body := r <- row ;; writerow R path r) in *.
  assert (repeat_m (S n) body st =
          match body st with
          | (Ok _, st1) => repeat_m n body st1
          | (Raise e, st1) => (Raise e, st1)
          end) as -> by done.
  destruct (body st) as [[[]|e] st1].
  - destruct Hstep as [r Hr].
    destruct (IH _ _ Hr) as (rows' & H1 & H2).
    exists (r :: rows'). rewrite <- app_assoc in H1. split; [done|].
    destruct (repeat_m n body st1).1; simpl; [lia|].
    split; [lia|apply H2].
  - exists []. rewrite app_nil_r. destruct Hstep as [H1 H2].
    split; [done|]. simpl. split; [lia|done].
Qed.

Lemma holds_write_batches path text P fs row fuel n_rows rows_written rows st
    o st' :
  draws E P row → holds path text P fs rows st →
  write_batches R fuel path row n_rows rows_written st = Some (o, st') →
  ∃ rows',
    holds path text P fs (rows ++ rows') st'
    ∧ match o with
      | Ok _ => length rows' = Z.to_nat (n_rows - rows_written)
      | Raise e => (length rows' < Z.to_nat (n_rows - rows_written))%nat ∧ E e
      end.
Proof.
  intros Hrow. revert rows_written rows st.
  induction fuel as [|fuel IH]; intros rows_written rows st Hst; simpl;
    destruct (Z.ltb_spec rows_written n_rows) as [Hlt|Hge]; try done.
  - intros [= <- <-]. exists []. rewrite app_nil_r. split; [done|]. simpl. lia.
  - unfold for_range.
    destruct (holds_write_rows path text P fs row
                (Z.to_nat (Z.min (rows_written + batch_size) n_rows - rows_written))
                rows st Hrow Hst) as (rows1 & H1 & H2).
    destruct (repeat_m _ _ st) as [[[]|e] st1]; simpl in *.
    + intros Hrest. destruct (IH _ _ _ H1 Hrest) as (rows2 & H4 & H5).
      exists (rows1 ++ rows2). rewrite app_assoc. rewrite length_app.
      unfold batch_size in *. split; [done|].
      destruct o; [lia|]. split; [lia|apply H5].
    + intros [= <- <-]. exists rows1. unfold batch_size in *.
      split; [done|]. split; [lia|apply H2].
  - intros [= <- <-]. exists []. rewrite app_nil_r. split; [done|]. simpl. lia.
Qed.

End Rows.

(** The generation ends when there is fuel for every batch. *)
Lemma generate_h2oai_groupby_total (R : PyRandom) (fuel : nat)
    (output_path : string) (n_rows k na_pct seed : Z) (st : GenState R) :
  n_rows ≤ Z.of_nat fuel * 1000000 →
  is_Some (generate_h2oai_groupby R fuel output_path n_rows k na_pct seed st).
Proof.
  intros Hfuel. unfold generate_h2oai_groupby, bind, random_seed, floordiv.
  destruct (Z.eqb_spec k 0) as [->|_]; simpl; [done|].
  apply write_batches_total. unfold batch_size. lia.
Qed.

(** X10: however the generation of the group-by dataset ends, with a
    cardinality other than 0, the output file holds the header followed
    by whole rows, each with its three labels (NA only in [id1] and
    [id2], and only when [na_pct] is positive), its three integer keys in
    range and its three values, and no other file is touched.  A
    generation that returns wrote [n_rows] rows; one that raises wrote
    fewer and raises [IndexError]. *)
Theorem generated_rows_are_well_formed (R : PyRandom) (fuel : nat)
    (output_path : string) (n_rows k na_pct seed : Z) (st st' : GenState R)
    (o : Outcome unit) :
  k ≠ 0 →
  generate_h2oai_groupby R fuel output_path n_rows k na_pct seed st
  = Some (o, st') →
  ∃ rows,
    files R st' =
      <[output_path := csv_line R (groupby_header R) +:+ csv_text R rows]>
        (files R st)
    ∧ Forall (group_row R n_rows k na_pct) rows
    ∧ match o with
      | Ok _ => length rows = Z.to_nat n_rows
      | Raise e => (length rows < Z.to_nat n_rows)%nat ∧ e = IndexError
      end.
Proof.
  intros Hk. unfold generate_h2oai_groupby, bind, random_seed, floordiv.
  destruct (Z.eqb_spec k 0) as [->|_]; [done|]. simpl.
  intros Hrun.
  eapply (holds_write_batches R (fun e => e = IndexError) output_path
            (csv_line R (groupby_header R)) (group_row R n_rows k na_pct)
            (files R st) _ fuel n_rows 0 []) in Hrun.
  - destruct Hrun as (rows & [H1 H2] & H3). exists rows.
    rewrite Z.sub_0_r in *. by split_and!.
  - by apply draws_draw_row.
  - split; [|done]. simpl. rewrite lookup_insert_eq, insert_insert_eq. simpl.
    by rewrite string_app_nil_r.
Qed.

(** X11: with at least one group, and a [random.choice] that draws an
    index of its sequence, the generation of the group-by dataset
    returns. *)
Theorem generation_returns (R : PyRandom) (fuel : nat)
    (output_path : string) (n_rows k na_pct seed : Z) (st : GenState R) :
  1 ≤ k → choice_in_range R → n_rows ≤ Z.of_nat fuel * 1000000 →
  ∃ st', generate_h2oai_groupby R fuel output_path n_rows k na_pct seed st
         = Some (Ok tt, st').
Proof.
  intros Hk Hc Hfuel.
  destruct (generate_h2oai_groupby R fuel output_path n_rows k na_pct seed st)
    as [[o st']|] eqn:Hrun.
  - exists st'. f_equal. f_equal.
    revert Hrun. unfold generate_h2oai_groupby, bind, random_seed, floordiv.
    destruct (Z.eqb_spec k 0) as [->|_]; [lia|]. simpl. intros Hrun.
    eapply (holds_write_batches R (fun _ => False) output_path
              (csv_line R (groupby_header R)) (group_row R n_rows k na_pct)
              (files R st) _ fuel n_rows 0 []) in Hrun.
    + destruct Hrun as (rows & _ & H3). destruct o as [[]|e]; [done|].
      by destruct H3.
    + apply draws_draw_row. intros [?|?]; [lia|done].
    + split; [|done]. simpl. rewrite lookup_insert_eq, insert_insert_eq. simpl.
      by rewrite string_app_nil_r.
  - destruct (generate_h2oai_groupby_total R fuel output_path n_rows k na_pct
                seed st Hfuel) as [x Hx]. congruence.
Qed.

(** X12: with rows to write, a cardinality that is not positive makes the
    generation fail: 0 raises [ZeroDivisionError] before the file is
    created, a negative one raises [IndexError] on the first row, leaving
    a file with the header alone. *)
Theorem generation_needs_a_group (R : PyRandom) (fuel : nat)
    (output_path : string) (n_rows k na_pct seed : Z) (st : GenState R) :
  k ≤ 0 → 0 < n_rows → fuel ≠ O →
  ∃ e st',
    generate_h2oai_groupby R fuel output_path n_rows k na_pct seed st
    = Some (Raise e, st')
    ∧ (k = 0 → e = ZeroDivisionError ∧ files R st' = files R st)
    ∧ (k < 0 → e = IndexError
               ∧ files R st' =
                   <[output_path := csv_line R (groupby_header R)]> (files R st)).
Proof.
  intros Hk Hn Hfuel.
  destruct (Z.eq_dec k 0) as [->|Hk0].
  { eexists _, _. unfold generate_h2oai_groupby, bind, random_seed, floordiv.
    simpl. split; [done|]. split; [done|lia]. }
  destruct fuel as [|fuel]; [done|].
  unfold generate_h2oai_groupby, bind, random_seed, floordiv.
  destruct (Z.eqb_spec k 0) as [->|_]; [lia|]. simpl.
  destruct (Z.ltb_spec 0 n_rows) as [_|?]; [|lia].
  set (row := draw_row _ _ _ _ _ _ _ _).
  match goal with
  | |- context [for_range ?n ?body ?s] =>
      set (s1 := s); set (nb := n);
      pose proof (holds_write_rows R (fun e => e = IndexError) output_path
        (csv_line R (groupby_header R)) (fun _ => False) (files R st)
        row (Z.to_nat nb) [] s1) as Hw
  end.
  destruct Hw as (rows & [H1 H2] & H3).
  { subst row. eapply draws_mono;
      [apply (draws_draw_row R (fun e => e = IndexError) n_rows k na_pct);
       done|].
    intros r (id1 & id2 & id3 & id4 & ? & ? & ? & ? & ? & _ & _ & _ & _
              & ? & _). lia. }
  { split; [|done]. subst s1. simpl.
    rewrite lookup_insert_eq, insert_insert_eq. simpl.
    by rewrite string_app_nil_r. }
  destruct rows as [|r rows]; [|by apply Forall_cons in H2 as [[] _]].
  unfold for_range. fold row.
  destruct (repeat_m (Z.to_nat nb) _ s1) as [[[]|e] s2]; simpl in *.
  { subst nb. unfold batch_size in *. lia. }
  destruct H3 as [_ ->].
  eexists _, _. split; [done|]. split; [lia|]. intros _. split; [done|].
  rewrite H1. simpl. by rewrite string_app_nil_r.
Qed.

(** ** The names of the datasets *)

Lemma n_to_scientific_bucket (d : Z) (n : Z) :
  1 ≤ d ≤ 8 → 10 ^ d ≤ n < 10 ^ (d + 1) → n_to_scientific n = "1e" +:+ pretty d.
Proof.
  intros Hd Hn. unfold n_to_scientific.
  assert (d = 1 ∨ d = 2 ∨ d = 3 ∨ d = 4 ∨ d = 5 ∨ d = 6 ∨ d = 7 ∨ d = 8)
    as Hcases by lia.
  repeat match goal with
         | |- context [?a >=? ?b] => destruct (Z.geb_spec a b)
         end;
    repeat (destruct Hcases as [->|Hcases]; [try reflexivity; simpl in *; lia|]);
    subst; try reflexivity; simpl in *; lia.
Qed.

(** X13: [n_to_scientific] rounds down to a power of ten and stops at
    [1e9]: from [10 ^ d] up to the next power of ten the name is
    [1e] followed by [d], and [1e9] from [10 ^ 9] on. *)
Theorem n_to_scientific_rounds_down (d n : Z) :
  1 ≤ d → 10 ^ d ≤ n → (d < 9 → n < 10 ^ (d + 1)) →
  n_to_scientific n = "1e" +:+ pretty (Z.min d 9).
Proof.
  intros Hd Hlo Hhi. destruct (Z.lt_ge_cases d 9) as [Hlt|Hge].
  - rewrite Z.min_l by lia. apply n_to_scientific_bucket; [lia|]. auto.
  - rewrite Z.min_r by lia.
    assert (10 ^ 9 ≤ 10 ^ d) by (apply Z.pow_le_mono_r; lia).
    unfold n_to_scientific. destruct (Z.geb_spec n 1000000000); [done|lia].
Qed.

(** X14: the group-by file the harness reads is the one [main] of the
    generator names for any row count from 10 000 000 to 99 999 999 and
    any cardinality from 100 to 999, without NA and with seed 0: the
    names do not tell these datasets apart. *)
Theorem the_harness_reads_a_bucket_of_datasets (env : Env) (n_rows k : Z) :
  10000000 ≤ n_rows < 100000000 → 100 ≤ k < 1000 →
  CSV_GROUPBY env
  = path_join (path_join (DATASETS env) (dataset_name n_rows k 0 0))
      (csv_filename n_rows k 0 0).
Proof.
  intros Hn Hk. unfold csv_filename, dataset_name.
  rewrite (n_to_scientific_bucket 7 n_rows), (n_to_scientific_bucket 2 k);
    [done|lia..].
Qed.

(** The decimal text of an integer: digits after an optional sign. *)
Lemma pretty_N_go_digits x s :
  all_digits s = true → all_digits (pretty_N_go x s) = true.
Proof.
  revert s. induction (N.lt_wf_0 x) as [x _ IH]; intros s Hs.
  destruct (decide (x = 0)%N) as [->|Hx]; [by rewrite pretty_N_go_0|].
  rewrite pretty_N_go_step by lia. apply IH.
  - apply N.div_lt; lia.
  - simpl. rewrite Hs, andb_true_r.
    unfold pretty_N_char. by repeat case_match.
Qed.

Lemma pretty_Z_digits (n : Z) :
  ∃ s, all_digits s = true ∧ (pretty n = s ∨ pretty n = "-" +:+ s).
Proof.
  assert (∀ p, all_digits (pretty (N.pos p)) = true) as Hpos.
  { intros p. unfold pretty, pretty_N. destruct (decide (N.pos p = 0)%N); [done|].
    by apply pretty_N_go_digits. }
  destruct n as [|p|p].
  - exists "0". split; [done|by left].
  - exists (pretty (N.pos p)). split; [apply Hpos|by left].
  - exists (pretty (N.pos p)). split; [apply Hpos|by right].
Qed.

(** No decimal text of an integer, followed by an underscore, starts
    with [1e]. *)
Lemma pretty_not_scientific (n : Z) rest rest' :
  pretty n +:+ "_" +:+ rest ≠ "1e" +:+ rest'.
Proof.
  destruct (pretty_Z_digits n) as (s & Hs & [-> | ->]).
  - destruct s as [|a [|b s]]; cbv [String.append]; intros [=]; subst.
    by vm_compute in Hs.
  - by intros [=].
Qed.

Lemma path_join_inj a b c : path_join a b = path_join a c → b = c.
Proof.
  unfold path_join. destruct (bool_decide (a = "")); [done|].
  destruct (String.eqb _ "/"); intros H.
  - by apply (inj (String.app a)) in H.
  - apply (inj (String.app a)) in H.
    by apply (inj (String.app "/")) in H.
Qed.

(** X15: whatever the row count, and even in the directory of the
    harness, the two tables [generate_h2oai_join] writes are not the ones
    the harness reads: their names hold the row count in decimal, never
    [1e7]. *)
Theorem join_tables_are_not_the_harness_tables (env : Env) (n_rows : Z) :
  CSV_JOIN_X env
  ≠ path_join (path_join (DATASETS env) "h2oai_join_1e7") (x_name n_rows)
  ∧ CSV_JOIN_Y env
    ≠ path_join (path_join (DATASETS env) "h2oai_join_1e7") (y_name n_rows).
Proof.
  unfold CSV_JOIN_X, CSV_JOIN_Y, x_name, y_name.
  split; intros H; apply path_join_inj in H;
    apply (inj (String.app "J1_")) in H; symmetry in H;
    by apply pretty_not_scientific in H.
Qed.

(** ** The join tables of [generate_h2oai_join] *)

Section JoinRows.

Variable R : PyRandom.

Lemma uniform_draws_length n r : length (uniform_draws R n r).1 = n.
Proof.
  revert r. induction n as [|n IH]; intros r; simpl; [done|].
  destruct (uniform R 0 100 r) as [v r1]. specialize (IH r1).
  destruct (uniform_draws R n r1) as [vs r2]. simpl in *. by rewrite IH.
Qed.

Lemma write_join_rows path text fs idxs rows st :
  files R st = <[path := text +:+ csv_text R rows]> fs →
  for_each idxs (fun i =>
     v <- random_uniform R 0 100 ;;
     writerow R path (join_row R i v)) st
  = (Ok tt,
     mkGenState R (uniform_draws R (length idxs) (random_state R st)).2
       (<[path := text +:+ csv_text R
            (rows ++ zip_with (join_row R) idxs
                       (uniform_draws R (length idxs) (random_state R st)).1)]>
          fs)).
Proof.
  revert rows st. induction idxs as [|i idxs IH]; intros rows st Hst.
  { simpl. unfold ret. rewrite app_nil_r, <- Hst. by destruct st. }
  set (f := fun i => v <- random_uniform R 0 100 ;;
                        writerow R path (join_row R i v)) in *.
  assert (for_each (i :: idxs) f st =
          match f i st with
          | (Ok _, st1) => for_each idxs f st1
          | (Raise e, st1) => (Raise e, st1)
          end) as -> by done.
  cbn [length uniform_draws].
  subst f. cbv beta. unfold bind at 1, random_uniform at 1.
  destruct (uniform R 0 100 (random_state R st)) as [v r] eqn:Hv.
  cbn [writerow write].
  match goal with
  | |- for_each idxs ?g ?s = _ => rewrite (IH (rows ++ [join_row R i v]) s)
  end.
  - cbn [random_state].
    destruct (uniform_draws R (length idxs) r) as [vs r2]. simpl.
    by rewrite <- app_assoc.
  - cbn [files random_state]. rewrite Hst, lookup_insert_eq. simpl.
    rewrite insert_insert_eq, csv_text_app, string_app_assoc. simpl.
    by rewrite string_app_nil_r.
Qed.

End JoinRows.

Lemma bind_ok {St A B} (m : SE St A) (k : A → SE St B) st a st1 :
  m st = (Ok a, st1) → bind m k st = k a st1.
Proof. unfold bind. by intros ->. Qed.

(** X16: [generate_h2oai_join] always returns, and what it writes depends
    only on the row count and the seed: two tables of [n_rows] rows with
    the same keys row by row, the six keys of the row of index [i] being
    [i mod 100 + 1]; only the values are drawn, those of the second table
    after those of the first. *)
Theorem join_tables_share_their_keys (R : PyRandom)
    (path_div : string → string → string) (output_dir : string)
    (n_rows seed : Z) (st : GenState R) :
  let n := Z.to_nat n_rows in
  let x := uniform_draws R n (seed_state R seed) in
  let y := uniform_draws R n x.2 in
  generate_h2oai_join R path_div output_dir n_rows seed st
  = (Ok tt,
     mkGenState R y.2
       (<[path_div output_dir (y_name n_rows) :=
            csv_line R (join_header R "v2")
            +:+ csv_text R (zip_with (join_row R) (py_range 0 n_rows) y.1)]>
          (<[path_div output_dir (x_name n_rows) :=
               csv_line R (join_header R "v1")
               +:+ csv_text R (zip_with (join_row R) (py_range 0 n_rows) x.1)]>
             (files R st))))
  ∧ length x.1 = n ∧ length y.1 = n ∧ length (py_range 0 n_rows) = n.
Proof.
  intros n x y.
  assert (length (py_range 0 n_rows) = n) as Hlen.
  { unfold py_range. rewrite length_seqZ. subst n. f_equal. lia. }
  split; [|subst x y; by rewrite !uniform_draws_length].
  unfold generate_h2oai_join.
  set (xp := path_div output_dir (x_name n_rows)).
  set (yp := path_div output_dir (y_name n_rows)).
  do 3 (erewrite bind_ok; [|reflexivity]).
  erewrite bind_ok;
    [|apply (write_join_rows R xp (csv_line R (join_header R "v1"))
               (files R st) (py_range 0 n_rows) [])].
  2: { unfold writerow, write, open_w, random_seed. simpl.
       rewrite lookup_insert_eq, insert_insert_eq. simpl.
       by rewrite string_app_nil_r. }
  do 2 (erewrite bind_ok; [|reflexivity]).
  rewrite (write_join_rows R yp (csv_line R (join_header R "v2"))
             (<[xp := csv_line R (join_header R "v1")
                      +:+ csv_text R (zip_with (join_row R)
                                        (py_range 0 n_rows) x.1)]>
                (files R st))
             (py_range 0 n_rows) []).
  - simpl. rewrite Hlen. done.
  - unfold writerow, write, open_w, random_seed. simpl.
    rewrite lookup_insert_eq, insert_insert_eq. simpl.
    rewrite string_app_nil_r, Hlen. done.
Qed.

(** ** The join tables of [generate_h2oai_join_data] *)

Section JoinDataProofs.

Variable R : PyRandom.

Lemma only_draws_jret {A} (a : A) : only_draws (jret (R := R) a).
Proof. intros st. unfold jret. simpl. by destruct st. Qed.

Lemma only_draws_jbind {A B} (m : J R A) (k : A → J R B) :
  only_draws m → (∀ a, only_draws (k a)) → only_draws (jbind m k).
Proof.
  intros Hm Hk st. unfold jbind. rewrite (Hm st).
  destruct (m (mkGenState R (random_state R st) ∅)) as [[a|e] st1]; simpl.
  - rewrite (Hk a (mkGenState R (random_state R st1) (files R st))).
    rewrite (Hk a st1). simpl. done.
  - done.
Qed.

Lemma only_draws_randint a b : only_draws (randint_checked R a b).
Proof.
  intros st. unfold randint_checked, from_g, random_randint.
  destruct (b <? a); simpl; [by destruct st|].
  by destruct (randint R a b (random_state R st)).
Qed.

Lemma only_draws_floordiv a b : only_draws (from_g (floordiv R a b)).
Proof.
  intros st. unfold from_g, floordiv. destruct (b =? 0); simpl; by destruct st.
Qed.

Lemma only_draws_uniform a b : only_draws (from_g (random_uniform R a b)).
Proof.
  intros st. unfold from_g, random_uniform. simpl.
  by destruct (uniform R a b (random_state R st)).
Qed.

Lemma only_draws_draw_join_row n k : only_draws (draw_join_row R n k).
Proof.
  unfold draw_join_row.
  repeat first
    [ apply only_draws_jret | apply only_draws_randint
    | apply only_draws_floordiv | apply only_draws_uniform
    | apply only_draws_jbind; [|intros ?] ].
Qed.

(** The loop of a table writes the rows that are drawn. *)
Lemma write_drawn_rows path text fs count n k rows st :
  files R st = <[path := text +:+ csv_text R rows]> fs →
  jrepeat count (row <-- draw_join_row R n k ;;
                 from_g (writerow R path row)) st
  = ((drawn_rows R count n k (random_state R st)).1.2,
     mkGenState R (drawn_rows R count n k (random_state R st)).2
       (<[path := text +:+ csv_text R
            (rows ++ (drawn_rows R count n k (random_state R st)).1.1)]> fs)).
Proof.
  revert rows st. induction count as [|count IH]; intros rows st Hst.
  { simpl. unfold jret. rewrite app_nil_r, <- Hst. by destruct st. }
  cbn [jrepeat drawn_rows]. unfold jbind at 1. unfold jbind at 1.
  rewrite (only_draws_draw_join_row n k st).
  destruct (draw_join_row R n k (mkGenState R (random_state R st) ∅))
    as [[row|e] st1]; cbn [fst snd].
  - unfold from_g at 1. cbn [writerow write].
    match goal with
    | |- jrepeat count ?g ?s = _ => rewrite (IH (rows ++ [row]) s)
    end.
    + cbn [random_state].
      destruct (drawn_rows R count n k (random_state R st1)) as [[rs o] r2].
      simpl. by rewrite <- app_assoc.
    + cbn [files random_state]. rewrite Hst, lookup_insert_eq. simpl.
      rewrite insert_insert_eq, csv_text_app, string_app_assoc. simpl.
      by rewrite string_app_nil_r.
  - simpl. by rewrite app_nil_r, Hst.
Qed.

Lemma randint_checked_empty a b st :
  b < a → randint_checked R a b st = (inr ValueError, st).
Proof.
  intros H. unfold randint_checked. by destruct (Z.ltb_spec b a); [|lia].
Qed.

Lemma randint_checked_draws a b st :
  a ≤ b →
  ∃ v r, randint_checked R a b st = (inl v, mkGenState R r (files R st)).
Proof.
  intros H. unfold randint_checked, from_g, random_randint.
  destruct (Z.ltb_spec b a); [lia|].
  destruct (randint R a b (random_state R st)) as [v r]. by eexists _, _.
Qed.

(** Without a group, or with fewer rows than groups, the first row
    raises. *)
Lemma draw_join_row_empty n k st :
  0 < n → k < 1 ∨ n < k →
  ∃ st', draw_join_row R n k st = (inr ValueError, st')
         ∧ files R st' = files R st.
Proof.
  intros Hn Hk. unfold draw_join_row.
  destruct (Z.lt_ge_cases k 1) as [Hlt|Hge].
  { exists st. unfold jbind. by rewrite randint_checked_empty by lia. }
  destruct Hk as [?|Hk]; [lia|].
  unfold jbind at 1.
  destruct (randint_checked_draws 1 k st) as (v1 & r1 & ->); [lia|].
  unfold jbind at 1.
  destruct (randint_checked_draws 1 k (mkGenState R r1 (files R st)))
    as (v2 & r2 & ->); [lia|].
  unfold jbind at 1. unfold from_g at 1, floordiv at 1.
  destruct (Z.eqb_spec k 0); [lia|]. cbn [ret fst snd].
  unfold jbind at 1. rewrite randint_checked_empty.
  - by eexists.
  - rewrite Z.div_small by lia. lia.
Qed.

Lemma draw_join_row_returns n k st :
  1 ≤ k ≤ n →
  ∃ row st', draw_join_row R n k st = (inl row, st') ∧ length row = 7%nat.
Proof.
  intros Hk. unfold draw_join_row.
  assert (1 ≤ n / k) as Hq.
  { apply Z.div_le_lower_bound; lia. }
  repeat first
    [ match goal with
      | |- context [jbind (randint_checked R 1 ?b) _ ?s] =>
          unfold jbind at 1;
          let v := fresh "v" in let r := fresh "r" in
          destruct (randint_checked_draws 1 b s) as (v & r & ->); [lia|]
      end
    | match goal with
      | |- context [jbind (from_g (floordiv R n k)) _ _] =>
          unfold jbind at 1; unfold from_g at 1, floordiv at 1;
          destruct (Z.eqb_spec k 0); [lia|]; cbn [ret fst snd]
      end ].
  unfold jbind, from_g, random_uniform. simpl.
  destruct (uniform R 0 100 _) as [x rx]. by eexists _, _.
Qed.

Lemma drawn_rows_empty count n k r :
  0 < n → k < 1 ∨ n < k →
  ∃ r', drawn_rows R (S count) n k r = ([], inr ValueError, r').
Proof.
  intros Hn Hk. cbn [drawn_rows].
  destruct (draw_join_row_empty n k (mkGenState R r ∅) Hn Hk) as (st' & -> & _).
  by eexists.
Qed.

Lemma drawn_rows_returns count n k r :
  1 ≤ k ≤ n →
  ∃ rows r', drawn_rows R count n k r = (rows, inl tt, r')
             ∧ length rows = count
             ∧ Forall (fun row => length row = 7%nat) rows.
Proof.
  intros Hk. revert r. induction count as [|count IH]; intros r.
  { by eexists _, _. }
  cbn [drawn_rows].
  destruct (draw_join_row_returns n k (mkGenState R r ∅) Hk)
    as (row & st1 & -> & Hrow).
  destruct (IH (random_state R st1)) as (rows & r' & -> & Hlen & Hall).
  eexists _, _. split; [done|]. split; [simpl; by rewrite Hlen|].
  by constructor.
Qed.

End JoinDataProofs.

Lemma jbind_ok {R : PyRandom} {A B} (m : J R A) (k : A → J R B) st a st1 :
  m st = (inl a, st1) → jbind m k st = k a st1.
Proof. unfold jbind. by intros ->. Qed.

(** The run of the generator, written out. *)
Lemma generate_h2oai_join_data_run (R : PyRandom)
    (path_div : string → string → string) (output_dir : string)
    (n k seed : Z) (st : GenState R) :
  let x := drawn_rows R (Z.to_nat n) n k (seed_state R seed) in
  let y := drawn_rows R (Z.to_nat n) n k (seed_state R (seed + 1)) in
  let x_table :=
    <[path_div output_dir "J1_1e7_NA_0_0.csv" :=
        csv_line R (join_header R "v1") +:+ csv_text R x.1.1]> (files R st) in
  generate_h2oai_join_data R path_div output_dir n k seed st
  = match x.1.2 with
    | inr e => (inr e, mkGenState R x.2 x_table)
    | inl _ =>
        (y.1.2,
         mkGenState R y.2
           (<[path_div output_dir "J1_1e7_1e7_0_0.csv" :=
                csv_line R (join_header R "v2") +:+ csv_text R y.1.1]>
              x_table))
    end.
Proof.
  intros x y x_table. unfold generate_h2oai_join_data.
  do 3 (erewrite jbind_ok; [|reflexivity]).
  unfold jbind at 1.
  rewrite (write_drawn_rows R (path_div output_dir "J1_1e7_NA_0_0.csv")
             (csv_line R (join_header R "v1")) (files R st) _ n k []).
  2: { unfold writerow, write, open_w, random_seed. simpl.
       rewrite lookup_insert_eq, insert_insert_eq. simpl.
       by rewrite string_app_nil_r. }
  cbn [random_state app]. fold x.
  destruct x.1.2 as [[]|e]; [|done].
  do 3 (erewrite jbind_ok; [|reflexivity]).
  rewrite (write_drawn_rows R (path_div output_dir "J1_1e7_1e7_0_0.csv")
             (csv_line R (join_header R "v2")) x_table _ n k []).
  - done.
  - unfold writerow, write, open_w, random_seed. simpl.
    rewrite lookup_insert_eq, insert_insert_eq. simpl.
    by rewrite string_app_nil_r.
Qed.

(** X17: with rows to write, [generate_h2oai_join_data] raises
    [ValueError] on the first row when the cardinality is below 1 or
    above the row count: the first table is left with its header alone
    and the second one is not written. *)
Theorem join_data_needs_a_row_per_group (R : PyRandom)
    (path_div : string → string → string) (output_dir : string)
    (n k seed : Z) (st : GenState R) :
  0 < n → k < 1 ∨ n < k →
  ∃ st',
    generate_h2oai_join_data R path_div output_dir n k seed st
    = (inr ValueError, st')
    ∧ files R st' =
        <[path_div output_dir "J1_1e7_NA_0_0.csv" :=
            csv_line R (join_header R "v1")]> (files R st).
Proof.
  intros Hn Hk.
  pose proof (generate_h2oai_join_data_run R path_div output_dir n k seed st)
    as Hrun. cbv zeta in Hrun.
  destruct (Z.to_nat n) as [|count] eqn:Hc; [lia|].
  destruct (drawn_rows_empty R count n k (seed_state R seed) Hn Hk) as [r' Hx].
  rewrite Hx in Hrun. simpl in Hrun. rewrite Hrun.
  eexists. split; [done|]. simpl. by rewrite string_app_nil_r.
Qed.

(** X18: with a cardinality from 1 to the row count,
    [generate_h2oai_join_data] returns, and each of the two tables holds
    its header and [n] rows of seven fields. *)
Theorem join_data_returns (R : PyRandom)
    (path_div : string → string → string) (output_dir : string)
    (n k seed : Z) (st : GenState R) :
  1 ≤ k ≤ n →
  ∃ rows_x rows_y st',
    generate_h2oai_join_data R path_div output_dir n k seed st = (inl tt, st')
    ∧ files R st' =
        <[path_div output_dir "J1_1e7_1e7_0_0.csv" :=
            csv_line R (join_header R "v2") +:+ csv_text R rows_y]>
          (<[path_div output_dir "J1_1e7_NA_0_0.csv" :=
               csv_line R (join_header R "v1") +:+ csv_text R rows_x]>
             (files R st))
    ∧ length rows_x = Z.to_nat n ∧ length rows_y = Z.to_nat n
    ∧ Forall (fun row => length row = 7%nat) (rows_x ++ rows_y).
Proof.
  intros Hk.
  pose proof (generate_h2oai_join_data_run R path_div output_dir n k seed st)
    as Hrun. cbv zeta in Hrun.
  destruct (drawn_rows_returns R (Z.to_nat n) n k (seed_state R seed) Hk)
    as (rows_x & rx & Hx & Hlx & Hax).
  destruct (drawn_rows_returns R (Z.to_nat n) n k (seed_state R (seed + 1)) Hk)
    as (rows_y & ry & Hy & Hly & Hay).
  rewrite Hx, Hy in Hrun. simpl in Hrun. rewrite Hrun.
  exists rows_x, rows_y. eexists. split_and!; [done|done|done|done|].
  by apply Forall_app.
Qed.

(** X19: [generate_h2oai_join_data] does not depend on the state of
    [random] it starts from, and it reseeds with [seed + 1] before the
    second table: when a run returns, the rows of its second table are
    the rows of the first table of a run with the next seed, whatever
    the directories and the files before. *)
Theorem join_data_is_drawn_from_two_seeds (R : PyRandom)
    (path_div : string → string → string) (output_dir output_dir' : string)
    (n k seed : Z) (st st' : GenState R) :
  (∀ r, generate_h2oai_join_data R path_div output_dir n k seed
          (mkGenState R r (files R st))
        = generate_h2oai_join_data R path_div output_dir n k seed st)
  ∧ ((generate_h2oai_join_data R path_div output_dir n k seed st).1 = inl tt →
     ∃ rows_x rows_y text_z,
       files R (generate_h2oai_join_data R path_div output_dir n k seed st).2
       = <[path_div output_dir "J1_1e7_1e7_0_0.csv" :=
             csv_line R (join_header R "v2") +:+ csv_text R rows_y]>
           (<[path_div output_dir "J1_1e7_NA_0_0.csv" :=
                csv_line R (join_header R "v1") +:+ csv_text R rows_x]>
              (files R st))
       ∧ files R (generate_h2oai_join_data R path_div output_dir' n k
                    (seed + 1) st').2
         = <[path_div output_dir' "J1_1e7_1e7_0_0.csv" :=
               csv_line R (join_header R "v2") +:+ text_z]>
             (<[path_div output_dir' "J1_1e7_NA_0_0.csv" :=
                  csv_line R (join_header R "v1") +:+ csv_text R rows_y]>
                (files R st'))).
Proof.
  split.
  { intros r. by rewrite !generate_h2oai_join_data_run. }
  rewrite !generate_h2oai_join_data_run. cbv zeta.
  destruct (drawn_rows R (Z.to_nat n) n k (seed_state R seed))
    as [[rows_x [[]|e]] rx]; cbn [fst snd]; [|done].
  destruct (drawn_rows R (Z.to_nat n) n k (seed_state R (seed + 1)))
    as [[rows_y [[]|e]] ry]; cbn [fst snd]; [|done].
  intros _. exists rows_x, rows_y. eexists. split; [done|].
  cbn [files]. reflexivity.
Qed.

(** * Examples *)

(** One group-by query on one key, measured once, in the sample
    environment: the calls it makes, in order. *)
Example run_groupby_calls :
  calls_of (log (run_groupby sample_env 7 "q1" ["id1"] [1] ["v1"] 1
                   init_state).2)
  = [GraphNew 7; Scan 100 "id1"; Scan 100 "v1";
     TdGroup 100 [101] 1 [1] [102] 1; Optimize 100 103;
     Execute 100 104; Release 105; Execute 100 104; Release 107;
     Execute 100 104; Release 109;
     Execute 100 104; Release 112;
     GraphFree 100].
Proof. by vm_compute. Qed.

(** When [execute] returns a sentinel, nothing is released. *)
Example sentinel_is_not_released :
  calls_of (log (run_sort sentinel_env 7 "s1" ["id1"] [0] 1 init_state).2)
  = [GraphNew 7; ConstTable 100 7; Scan 100 "id1"; SortOp 100 101 [102] [0];
     Optimize 100 103;
     Execute 100 104; Execute 100 104; Execute 100 104; Execute 100 104;
     GraphFree 100].
Proof. by vm_compute. Qed.

(** When [optimize] raises, the graph is freed and the exception goes
    on: nothing is executed. *)
Example failed_optimize_frees_the_graph :
  (run_sort failing_env 7 "s1" ["id1"] [0] 1 init_state).1 = Raise EngineError
  ∧ calls_of (log (run_sort failing_env 7 "s1" ["id1"] [0] 1 init_state).2)
    = [GraphNew 7; ConstTable 100 7; Scan 100 "id1"; SortOp 100 101 [102] [0];
       Optimize 100 103; GraphFree 100].
Proof. by vm_compute. Qed.

(** Too many aggregation columns for the operators: the ctypes array
    raises before the group node is built, and the graph is freed. *)
Example too_many_columns :
  (run_groupby sample_env 7 "q" ["id1"] [1] ["v1"; "v2"] 1 init_state).1
  = Raise IndexError
  ∧ calls_of (log (run_groupby sample_env 7 "q" ["id1"] [1] ["v1"; "v2"] 1
                     init_state).2)
    = [GraphNew 7; Scan 100 "id1"; Scan 100 "v1"; Scan 100 "v2"; GraphFree 100].
Proof. by vm_compute. Qed.

(** The whole run in the sample environment: 24 measured queries. *)
Example main_measures_24_queries :
  (main sample_env init_state).1 = Ok tt
  ∧ length (reported (meter (log (main sample_env init_state).2))) = 24%nat.
Proof. by vm_compute. Qed.

(** * The theorems at concrete inputs *)

Lemma median_upper_middle_witness :
  (∃ m, median [3; 1; 2] = Ok m ∧ [1; 2; 3] !! 1%nat = Some m ∧ m ∈ [3; 1; 2])
  ∧ median [3; 1; 2] = Ok 2.
Proof.
  assert ([1; 2; 3] ≡ₚ [3; 1; 2]) as Hp.
  { change [3; 1; 2] with ([3] ++ [1; 2]). by rewrite Permutation_app_comm. }
  assert (Sorted Z.le [1; 2; 3]) as Hs by (repeat constructor; lia).
  destruct (median_upper_middle [3; 1; 2] [1; 2; 3] 1 ltac:(done) Hs Hp)
    as (H1 & _ & _ & H2 & _).
  split; [exact H1|exact H2].
Defined.

Lemma warmup_runs_are_not_measured_witness :
  (bench_duckdb_run sample_env "q1" "SELECT 1" 1 init_state).1 = Ok 4000
  ∧ ∃ samples,
      meter (log (bench_duckdb_run sample_env "q1" "SELECT 1" 1 init_state).2)
      = mkMeter Idle []
          [(query_line sample_env "q1" 4000,
            [Untimed; Untimed; Untimed] ++ (Timed <$> samples))]
      ∧ samples = [4000].
Proof.
  split; [by vm_compute|].
  destruct (warmup_runs_are_not_measured sample_env "q1" "SELECT 1" 0 [] [] []
              1 [] init_state eq_refl) as [Hduck _].
  destruct (Hduck 4000
              (bench_duckdb_run sample_env "q1" "SELECT 1" 1 init_state).2)
    as (samples & Hm & _ & _ & Hone); [by vm_compute|].
  exists samples. split; [exact Hm|]. by apply Hone.
Defined.

Lemma owned_results_are_released_witness :
  handles (log (run_groupby sample_env 7 "q1" ["id1"] [1] ["v1"] 1
                  init_state).2) = Some (None, O)
  ∧ handles (log (bench_teide sample_env init_state).2) = Some (None, O).
Proof.
  destruct (owned_results_are_released sample_env 7 "q1" ["id1"] [1] ["v1"]
              [0] 1 O init_state eq_refl) as (H1 & _ & H3).
  split; [exact H1|exact (H3 eq_refl)].
Defined.

Lemma optimized_once_then_executed_witness :
  ∃ ns, planner (log (bench_teide sample_env init_state).2) = (NoGraph, ns)
        ∧ ns = [8; 10; 10; 10; 10; 10; 10; 10]%nat.
Proof.
  destruct (optimized_once_then_executed sample_env 7 "q1" ["id1"] [1] ["v1"]
              1 [] init_state eq_refl) as (_ & ns & Hns & Hok).
  exists ns. split; [exact Hns|]. apply Hok. by vm_compute.
Defined.

Lemma tables_outlive_their_graphs_witness :
  ∃ tbl x y g cols' r1 r2 r3 r4 r5 r6 l,
    borrows (log (bench_teide sample_env init_state).2) =
      Some (mkBorrows None [] cols'
              [(CSV_JOIN_Y sample_env, y); (CSV_JOIN_X sample_env, x);
               (CSV_GROUPBY sample_env, tbl)]
              [tbl; x; y])
    ∧ log (bench_teide sample_env init_state).2 =
        EvCall ArenaDestroyAll r1 :: EvCall SymDestroy r2
        :: EvCall (Release tbl) r3 :: EvCall (Release x) r4
        :: EvCall (Release y) r5 :: EvCall (GraphFree g) r6 :: l.
Proof.
  apply (proj2 (tables_outlive_their_graphs sample_env [] [] [] init_state
                  eq_refl)).
  by vm_compute.
Defined.

Lemma iterations_of_every_engine_witness :
  ∃ res, suite_measured sample_env res [] (bench_duckdb sample_env init_state).2.
Proof.
  destruct (iterations_of_every_engine sample_env [] init_state
              (ex_intro _ Idle (conj I eq_refl))) as (Hduck & _ & _).
  destruct (bench_duckdb sample_env init_state) as [[res|e] s'] eqn:E.
  - exists res. by apply Hduck.
  - by vm_compute in E.
Defined.

Lemma missing_dataset_stops_the_run_witness :
  ∃ p, path_exists missing_env p = false
       ∧ main missing_env init_state
         = (Raise (SystemExit 1),
            mkState [EvPrint ("Dataset not found: " +:+ p)] ∅).
Proof.
  destruct (missing_dataset_stops_the_run missing_env init_state
              (CSV_JOIN_X missing_env))
    as (p & _ & Hp & Hmain & _).
  - apply list_elem_of_In. simpl. auto.
  - by vm_compute.
  - exists p. split; [exact Hp|exact Hmain].
Defined.



Lemma generation_is_deterministic_witness :
  ∃ o st1' st2',
    generate_h2oai_groupby sample_random 1 "a.csv" 3 2 50 0
      (mkGenState sample_random 17 ∅) = Some (o, st1')
    ∧ generate_h2oai_groupby sample_random 1 "b.csv" 3 2 50 0
        (mkGenState sample_random 4242 {["b.csv" := "old"]}) = Some (o, st2')
    ∧ random_state sample_random st1' = random_state sample_random st2'
    ∧ (2 ≠ 0 → ∃ csv, files sample_random st1' !! "a.csv" = Some csv
                      ∧ files sample_random st2' !! "b.csv" = Some csv).
Proof.
  apply (generation_is_deterministic sample_random 1 "a.csv" "b.csv" 3 2 50 0).
  lia.
Defined.

Lemma median_of_permutation_witness : median [3; 1; 2] = median [1; 2; 3].
Proof.
  apply median_of_permutation.
  change [3; 1; 2] with ([3] ++ [1; 2]). by rewrite Permutation_app_comm.
Defined.

Lemma median_splits_the_samples_witness : median [4; 1; 3; 2] = Ok 3.
Proof.
  apply (proj2 (median_splits_the_samples [4; 1; 3; 2] 3)).
  vm_compute. lia.
Defined.

Lemma a_query_needs_an_iteration_witness :
  raises_one_of (bench_duckdb_run sample_env "q1" "SELECT 1" 0 init_state).1
    [IndexError; EngineError].
Proof.
  apply (a_query_needs_an_iteration sample_env "q1" "SELECT 1" 0 0
           (fun d => PlSort d []) [] [] [] [] 0 init_state).
  lia.
Defined.

Lemma run_groupby_needs_an_operator_per_column_witness :
  raises_one_of
    (run_groupby sample_env 7 "q" ["id1"] [1] ["v1"; "v2"] 1 init_state).1
    [IndexError; EngineError].
Proof.
  apply run_groupby_needs_an_operator_per_column. simpl. lia.
Defined.


Lemma main_saves_every_median_witness :
  ∃ l, log (main sample_env init_state).2 =
         EvPrint (nl +:+ "Results saved to "
                  +:+ path_join (SCRIPT_DIR sample_env) "results.json")
         :: EvDump (path_join (SCRIPT_DIR sample_env) "results.json")
                   (results (main sample_env init_state).2)
         :: l
       ∧ extends any_call init_state
           (mkState l (results (main sample_env init_state).2))
       ∧ ∀ engine q, engine ∈ ["teide"; "duckdb"; "polars"] → q ∈ queries →
           ∃ ms, get_median (results (main sample_env init_state).2) engine q.2
                 = Ok (Some ms).
Proof.
  apply (main_saves_every_median sample_env init_state). by vm_compute.
Defined.

Lemma a_failed_query_skips_the_teardown_witness :
  (∃ cols' L',
      borrows (log (bench_teide failing_env init_state).2)
      = Some (mkBorrows None [] cols' L' []))
  ∧ extends no_destroy init_state (bench_teide failing_env init_state).2.
Proof.
  destruct (a_failed_query_skips_the_teardown failing_env [] [] [] init_state
              EngineError) as [H|(c & l & Hl & Hc)].
  - reflexivity.
  - by vm_compute.
  - exact H.
  - exfalso. vm_compute in Hl. injection Hl as <- _. discriminate Hc.
Defined.

Lemma a_failed_query_leaves_the_connection_open_witness :
  extends no_destroy init_state (bench_duckdb offline_env init_state).2
  ∨ ∃ l, log (bench_duckdb offline_env init_state).2
         = EvCall ConClose None :: l.
Proof.
  apply (a_failed_query_leaves_the_connection_open offline_env init_state
           EngineError).
  by vm_compute.
Defined.

Lemma generated_rows_are_well_formed_witness :
  ∃ rows, Forall (group_row sample_random 3 2 50) rows
          ∧ (length rows ≤ 3)%nat.
Proof.
  destruct (generate_h2oai_groupby_total sample_random 1 "a.csv" 3 2 50 0
              (mkGenState sample_random 17 ∅)) as [[o st'] E]; [lia|].
  destruct (generated_rows_are_well_formed sample_random 1 "a.csv" 3 2 50 0
              (mkGenState sample_random 17 ∅) st' o ltac:(done) E)
    as (rows & _ & Hrows & Hlen).
  exists rows. split; [exact Hrows|].
  destruct o; [rewrite Hlen; simpl; lia|destruct Hlen as [Hlen _]; simpl in Hlen; lia].
Defined.

Lemma generation_returns_witness :
  ∃ st', generate_h2oai_groupby sample_random 1 "a.csv" 3 2 50 0
           (mkGenState sample_random 17 ∅) = Some (Ok tt, st').
Proof.
  apply generation_returns; [lia| |lia].
  intros n r Hn. simpl.
  pose proof (Z.mod_pos_bound r (Z.of_nat n)). lia.
Defined.

Lemma generation_needs_a_group_witness :
  ∃ e st',
    generate_h2oai_groupby sample_random 1 "a.csv" 3 (-1) 0 0
      (mkGenState sample_random 17 ∅) = Some (Raise e, st')
    ∧ (-1 < 0 → e = IndexError
                ∧ files sample_random st' =
                    <["a.csv" := csv_line sample_random
                                   (groupby_header sample_random)]> ∅).
Proof.
  destruct (generation_needs_a_group sample_random 1 "a.csv" 3 (-1) 0 0
              (mkGenState sample_random 17 ∅)) as (e & st' & Hrun & _ & Hneg);
    [lia|lia|done|].
  by exists e, st'.
Defined.

Lemma n_to_scientific_rounds_down_witness : n_to_scientific 15000000 = "1e7".
Proof. apply (n_to_scientific_rounds_down 7 15000000); lia. Defined.

Lemma the_harness_reads_a_bucket_of_datasets_witness :
  CSV_GROUPBY sample_env
  = path_join (path_join (DATASETS sample_env) (dataset_name 15000000 250 0 0))
      (csv_filename 15000000 250 0 0).
Proof. apply the_harness_reads_a_bucket_of_datasets; lia. Defined.

Lemma join_data_needs_a_row_per_group_witness :
  ∃ st',
    generate_h2oai_join_data sample_random path_join "out" 3 5 42
      (mkGenState sample_random 17 ∅) = (inr ValueError, st')
    ∧ files sample_random st' =
        <[path_join "out" "J1_1e7_NA_0_0.csv" :=
            csv_line sample_random (join_header sample_random "v1")]> ∅.
Proof.
  apply (join_data_needs_a_row_per_group sample_random path_join "out" 3 5 42
           (mkGenState sample_random 17 ∅)); lia.
Defined.

Lemma join_data_returns_witness :
  ∃ rows_x rows_y st',
    generate_h2oai_join_data sample_random path_join "out" 4 2 42
      (mkGenState sample_random 17 ∅) = (inl tt, st')
    ∧ files sample_random st' =
        <[path_join "out" "J1_1e7_1e7_0_0.csv" :=
            csv_line sample_random (join_header sample_random "v2")
            +:+ csv_text sample_random rows_y]>
          (<[path_join "out" "J1_1e7_NA_0_0.csv" :=
               csv_line sample_random (join_header sample_random "v1")
               +:+ csv_text sample_random rows_x]> ∅)
    ∧ length rows_x = 4%nat ∧ length rows_y = 4%nat
    ∧ Forall (fun row => length row = 7%nat) (rows_x ++ rows_y).
Proof.
  apply (join_data_returns sample_random path_join "out" 4 2 42
           (mkGenState sample_random 17 ∅)); lia.
Defined.

Lemma join_data_is_drawn_from_two_seeds_witness :
  ∃ rows_x rows_y text_z,
    files sample_random
      (generate_h2oai_join_data sample_random path_join "a" 4 2 42
         (mkGenState sample_random 17 ∅)).2
    = <[path_join "a" "J1_1e7_1e7_0_0.csv" :=
          csv_line sample_random (join_header sample_random "v2")
          +:+ csv_text sample_random rows_y]>
        (<[path_join "a" "J1_1e7_NA_0_0.csv" :=
             csv_line sample_random (join_header sample_random "v1")
             +:+ csv_text sample_random rows_x]> ∅)
    ∧ files sample_random
        (generate_h2oai_join_data sample_random path_join "b" 4 2 (42 + 1)
           (mkGenState sample_random 5 ∅)).2
      = <[path_join "b" "J1_1e7_1e7_0_0.csv" :=
            csv_line sample_random (join_header sample_random "v2")
            +:+ text_z]>
          (<[path_join "b" "J1_1e7_NA_0_0.csv" :=
               csv_line sample_random (join_header sample_random "v1")
               +:+ csv_text sample_random rows_y]> ∅).
Proof.
  apply (proj2 (join_data_is_drawn_from_two_seeds sample_random path_join
                  "a" "b" 4 2 42 (mkGenState sample_random 17 ∅)
                  (mkGenState sample_random 5 ∅))).
  by vm_compute.
Defined.
